(** * jrtti: reflection registry and JSON-flavoured text codec

    A shallow embedding of the parts of jrtti that the specification's
    testable properties talk about:

    - [MetaString] / [JSONReader.removeEscapeSeq]: the string escaper and the
      reader's unescaper (JSONSerializer.hpp);
    - [JSONWriter]: the stream writer (JSONSerializer.hpp);
    - [JSONReader]: the single-character-lookahead reader (JSONSerializer.hpp);
    - [Property]: the property mode bits and [TypedProperty] (property.hpp);
    - [AnnotationList]: the container of annotations (property.hpp);
    - [Metacollection]: the collection adapter (collection.hpp);
    - [Reflector]: the type registry (reflector.hpp).

    C++ objects that are shared through pointers (metatypes, properties) live
    in explicit stores indexed by addresses; streams are the text still to be
    read or the text written so far; loops that the source does not bound are
    given a fuel argument, and running out of fuel is a result of its own. *)

From Stdlib Require Import ZArith Ascii String List.
From stdpp Require Import base option gmap strings pretty list fin_maps.

Local Open Scope string_scope.
Local Open Scope Z_scope.

(* ===================================================================== *)
(** * Results of C++ calls *)
(* ===================================================================== *)

(** What a C++ exception carries. [Error] is [jrtti::Error] with its
    message; the others are the library exceptions the modelled code can
    raise. *)
Inductive exn : Type :=
| Error (msg : string)
| bad_any_cast
| bad_function_call
| out_of_range.

(** The outcome of a call: a value, a thrown exception, undefined behaviour
    (a null or past-the-end dereference), or a loop that was still
    running when the fuel ran out. *)
Inductive result (A : Type) : Type :=
| Ok (a : A)
| Throw (e : exn)
| Undefined
| OutOfFuel.
Arguments Ok {A} a.
Arguments Throw {A} e.
Arguments Undefined {A}.
Arguments OutOfFuel {A}.

#[global] Instance result_ret : MRet result := fun A a => Ok a.
#[global] Instance result_bind : MBind result := fun A B f m =>
  match m with
  | Ok a => f a
  | Throw e => Throw e
  | Undefined => Undefined
  | OutOfFuel => OutOfFuel
  end.

#[global] Instance result_fmap : FMap result := fun A B f m =>
  match m with
  | Ok a => Ok (f a)
  | Throw e => Throw e
  | Undefined => Undefined
  | OutOfFuel => OutOfFuel
  end.

(* ===================================================================== *)
(** * Characters *)
(* ===================================================================== *)

Module Chars.

Definition char_of (n : nat) : ascii := ascii_of_nat n.

Definition dquote : ascii := char_of 34.      (* double quote *)
Definition backslash : ascii := char_of 92.   (* backslash *)
Definition ch_b : ascii := char_of 8.         (* backspace *)
Definition ch_t : ascii := char_of 9.         (* tab *)
Definition ch_n : ascii := char_of 10.        (* newline *)
Definition ch_v : ascii := char_of 11.        (* vertical tab *)
Definition ch_f : ascii := char_of 12.        (* form feed *)
Definition ch_r : ascii := char_of 13.        (* carriage return *)

(** [std::istream::get()] returns [traits::eof()], the int -1, once the
    stream is exhausted; stored into a [char] it is the byte 0xFF. *)
Definition EOF_char : ascii := char_of 255.

(** [isspace] in the C locale. *)
Definition isspace (c : ascii) : bool :=
  let n := nat_of_ascii c in
  (Nat.eqb n 32 || (Nat.leb 9 n && Nat.leb n 13))%bool.

(** [char(n)] for an [int] n: the low eight bits. *)
Definition char_of_int (n : Z) : ascii := ascii_of_N (Z.to_N (n mod 256)).

(** Value of a hexadecimal digit, either case. *)
Definition hex_digit_value (c : ascii) : option Z :=
  let n := Z.of_nat (nat_of_ascii c) in
  if (48 <=? n) && (n <=? 57) then Some (n - 48)
  else if (97 <=? n) && (n <=? 102) then Some (n - 87)
  else if (65 <=? n) && (n <=? 70) then Some (n - 55)
  else None.

(** The lower-case hexadecimal digit of a value below sixteen. *)
Definition hex_digit (d : N) : ascii :=
  if (d <? 10)%N then ascii_of_N (48 + d) else ascii_of_N (87 + d).

End Chars.
Import Chars.

(* ===================================================================== *)
(** * String escaping *)
(* ===================================================================== *)

Module MetaString.

(** Modelled from the spec: [MetaString::addEscapeSeq], which
    [JSONWriter::writeString] calls, is declared in basetypes.hpp and
    that header is not among the sources.  Following section 4.5 and the
    escaping round-trip property of section 8, every character of the
    [std::string] is treated on its own: the double quote and the
    backslash are written behind a backslash, backspace, form feed, newline,
    carriage return and tab become [\b \f \n \r \t], every other control
    character (below 0x20, or 0x7F) and every non-ASCII character (0x80
    and above) becomes [\u] followed by its value as four hexadecimal
    digits, and everything else is copied. *)
Definition escape_char (c : ascii) : string :=
  let n := N_of_ascii c in
  if Ascii.eqb c dquote then String backslash (String dquote "")
  else if Ascii.eqb c backslash then String backslash (String backslash "")
  else if Ascii.eqb c ch_b then String backslash "b"
  else if Ascii.eqb c ch_f then String backslash "f"
  else if Ascii.eqb c ch_n then String backslash "n"
  else if Ascii.eqb c ch_r then String backslash "r"
  else if Ascii.eqb c ch_t then String backslash "t"
  else if ((n <? 32) || (127 <=? n))%N then
    String backslash
      (String "u" (String "0" (String "0"
        (String (hex_digit (n / 16)) (String (hex_digit (n mod 16)) "")))))
  else String c "".

Fixpoint addEscapeSeq (s : string) : string :=
  match s with
  | "" => ""
  | String c rest => escape_char c ++ addEscapeSeq rest
  end.

End MetaString.

(* ===================================================================== *)
(** * Types and metatype descriptors *)
(* ===================================================================== *)

(** The C++ types a template parameter can stand for: the ten primitive
    types that the registry declares by default, a class, struct or
    container type given by its spelling, and pointers. *)
Inductive ctype : Type :=
| Tbool | Tchar | Tshort | Tint | Tlong
| Tfloat | Tdouble | Tlongdouble | Twchar_t | Tstring
| Tclass (spelling : string)
| Tptr (pointee : ctype).

#[global] Instance ctype_eq_dec : EqDecision ctype.
Proof. solve_decision. Defined.

(** Addresses of heap-allocated [Metatype] objects and of [Property]
    objects. *)
Abbreviation addr := nat (only parsing).
Abbreviation paddr := nat (only parsing).

(** [Annotations] (property.hpp): a vector of annotation objects.  Only
    the kind of each annotation is kept; [Custom] stands for any class the
    application derives from [Annotation]. *)
Inductive Annotation : Type :=
| NonStreamable
| Custom (kind : string).

Definition Annotations := list Annotation.

(** The dynamic class of a [Metatype] object, which is what [dynamic_cast]
    inspects: one of the ten primitive metatypes and [MetaPointerType]
    that [register_defaults] and [internal_declare] construct, or one of
    the classes the declare functions construct.  [CustomMetaclass C] has
    a second template argument that [declareAbstract] sets to
    [boost::true_type]; [Metacollection C] is derived from
    [CustomMetaclass C] (collection.hpp). *)
Inductive metaclass : Type :=
| MetaBool | MetaChar | MetaShort | MetaInt | MetaLong
| MetaFloat | MetaDouble | MetaLongDouble | MetaWchar_t | MetaString_
| MetaPointerType (base : addr)
| CustomMetaclass (C : ctype) (is_abstract : bool)
| Metacollection_ (C : ctype).

(** A [Metatype] object.  The class is declared in metatype.hpp, which is
    not among the sources; the record keeps what the code modelled here
    reads and writes: the [std::type_info] the object was built with
    ([typeInfo()]), its dynamic class, its annotations and the
    pointer-metatype that [pointerMetatype( ptr_mc )] stores. *)
Record Metatype : Type := mkMetatype {
  typeInfo : ctype;
  dynamic_class : metaclass;
  annotations : Annotations;
  pointerMetatype : option addr
}.

(* ===================================================================== *)
(** * JSONWriter *)
(* ===================================================================== *)

Module JSONWriter.

Section Writer.

(** [std::type_info::name()]: the text is chosen by the compiler. *)
Variable typeid_name : ctype -> string.

(** [numToStr], the number formatter the integer writes share; it is not
    among the sources. *)
Variable numToStr : Z -> string.

(** The writer: the text written to [m_stream] so far and the three
    members.  [indentLevel] is an [int]; it counts open objects and
    collections and stays far inside the range of [int]. *)
Record t : Type := mk {
  m_stream : string;
  need_nl : bool;
  col_need_nl : bool;
  indentLevel : Z
}.

(** The constructor initialises [m_stream] and [indentLevel] only;
    [need_nl] and [col_need_nl] start with whatever the memory holds. *)
Definition create (need_nl0 col_need_nl0 : bool) : t :=
  {| m_stream := ""; need_nl := need_nl0; col_need_nl := col_need_nl0;
     indentLevel := 0 |}.

Definition put (s : string) (w : t) : t :=
  {| m_stream := m_stream w ++ s; need_nl := need_nl w;
     col_need_nl := col_need_nl w; indentLevel := indentLevel w |}.

Definition set_need_nl (b : bool) (w : t) : t :=
  {| m_stream := m_stream w; need_nl := b;
     col_need_nl := col_need_nl w; indentLevel := indentLevel w |}.

Definition set_col_need_nl (b : bool) (w : t) : t :=
  {| m_stream := m_stream w; need_nl := need_nl w;
     col_need_nl := b; indentLevel := indentLevel w |}.

Definition set_indentLevel (n : Z) (w : t) : t :=
  {| m_stream := m_stream w; need_nl := need_nl w;
     col_need_nl := col_need_nl w; indentLevel := n |}.

Definition nl : string := String ch_n "".
Definition tab : string := String ch_t "".
Definition quote : string := String dquote "".

Fixpoint tabs (n : nat) : string :=
  match n with
  | O => ""
  | S k => tab ++ tabs k
  end.

(** [for ( int i = 0; i < indentLevel; ++i ) m_stream << tab] *)
Definition indent (w : t) : t := put (tabs (Z.to_nat (indentLevel w))) w.

Definition writeBool (value : bool) (w : t) : t :=
  put (if value then "true" else "false") w.

(** [writeChar], [writeShort], [writeInt] and [writeLong] have this one
    body; [writeWchar_t] converts to [int] first. *)
Definition writeInt (value : Z) (w : t) : t := put (numToStr value) w.

Definition writeString (value : string) (w : t) : t :=
  put (quote ++ MetaString.addEscapeSeq value ++ quote) w.

Definition propertyBegin (propName : string) (propMetatype : Metatype) (w : t) : t :=
  let w := if need_nl w then put ("," ++ nl) w else w in
  let w := set_need_nl true w in
  let w := indent w in
  put (quote ++ propName ++ quote ++ ": ") w.

Definition propertyEnd (w : t) : t := w.

Definition collectionBegin (w : t) : t :=
  let w := put ("[" ++ nl) w in
  let w := set_col_need_nl false w in
  let w := set_indentLevel (indentLevel w + 1) w in
  indent w.

Definition collectionEnd (w : t) : t :=
  let w := set_indentLevel (indentLevel w - 1) w in
  let w := put nl w in
  put "]" (indent w).

Definition elementBegin (w : t) : t :=
  let w := if col_need_nl w then indent (put ("," ++ nl) w) else w in
  set_col_need_nl true w.

Definition elementEnd (w : t) : t := w.

Definition writeNullPtr (w : t) : t := put "NULL" w.

Definition writeObjectId (objId : string) (w : t) : t :=
  let w := indent w in
  let w := set_need_nl true w in
  put (quote ++ "$id" ++ quote ++ ": " ++ quote ++ objId ++ quote) w.

Definition writeObjectRef (objId : string) (w : t) : t :=
  let w := indent w in
  let w := set_need_nl true w in
  put (quote ++ "$ref" ++ quote ++ ": " ++ quote ++ objId ++ quote) w.

Definition objectBegin (mt : Metatype) (w : t) : t :=
  let w := set_need_nl false w in
  let w := put (typeid_name (typeInfo mt) ++ " {" ++ nl) w in
  set_indentLevel (indentLevel w + 1) w.

Definition objectEnd (mt : Metatype) (w : t) : t :=
  let w := set_indentLevel (indentLevel w - 1) w in
  let w := put nl w in
  let w := indent w in
  let w := put "}" w in
  set_need_nl true w.

(** ** Sequences of calls *)

(** One call of the writer's interface, with its arguments. *)
Inductive call : Type :=
| WriteBool (value : bool)
| WriteInt (value : Z)
| WriteString (value : string)
| PropertyBegin (propName : string) (propMetatype : Metatype)
| PropertyEnd
| CollectionBegin
| CollectionEnd
| ElementBegin
| ElementEnd
| WriteNullPtr
| WriteObjectId (objId : string)
| WriteObjectRef (objId : string)
| ObjectBegin (mt : Metatype)
| ObjectEnd (mt : Metatype).

Definition exec (c : call) (w : t) : t :=
  match c with
  | WriteBool value => writeBool value w
  | WriteInt value => writeInt value w
  | WriteString value => writeString value w
  | PropertyBegin propName propMetatype => propertyBegin propName propMetatype w
  | PropertyEnd => propertyEnd w
  | CollectionBegin => collectionBegin w
  | CollectionEnd => collectionEnd w
  | ElementBegin => elementBegin w
  | ElementEnd => elementEnd w
  | WriteNullPtr => writeNullPtr w
  | WriteObjectId objId => writeObjectId objId w
  | WriteObjectRef objId => writeObjectRef objId w
  | ObjectBegin mt => objectBegin mt w
  | ObjectEnd mt => objectEnd mt w
  end.

(** The calls of a list, first to last. *)
Definition exec_all (cs : list call) (w : t) : t :=
  foldl (fun w c => exec c w) w cs.

(** By how much a call moves [indentLevel]. *)
Definition level_change (c : call) : Z :=
  match c with
  | CollectionBegin | ObjectBegin _ => 1
  | CollectionEnd | ObjectEnd _ => -1
  | _ => 0
  end.

Definition level_changes (cs : list call) : Z :=
  foldr (fun c n => level_change c + n) 0 cs.

(** Whether a call leaves [col_need_nl] alone: all but the two calls that
    assign it. *)
Definition keeps_col_need_nl (c : call) : bool :=
  match c with
  | CollectionBegin | ElementBegin => false
  | _ => true
  end.

End Writer.

End JSONWriter.

(* ===================================================================== *)
(** * JSONReader *)
(* ===================================================================== *)

Module JSONReader.

(** The reader: the part of [m_stream] not yet extracted, and the
    one-character lookahead. *)
Record t : Type := mk {
  m_stream : string;
  currentChar : ascii
}.

(** [currentChar = m_stream.get()] *)
Definition advance (rd : t) : t :=
  match m_stream rd with
  | "" => {| m_stream := ""; currentChar := EOF_char |}
  | String c rest => {| m_stream := rest; currentChar := c |}
  end.

(** The constructor reads the first character. *)
Definition create (input : string) : t :=
  advance {| m_stream := input; currentChar := EOF_char |}.

(** ** The unescaper *)

Fixpoint hex_run (s : string) (acc : Z) : Z :=
  match s with
  | "" => acc
  | String c r =>
      match hex_digit_value c with
      | Some d => hex_run r (16 * acc + d)
      | None => acc
      end
  end.

Definition starts_with_hex_digit (s : string) : bool :=
  match s with
  | "" => false
  | String c _ => bool_decide (is_Some (hex_digit_value c))
  end.

Fixpoint skip_ws (s : string) : string :=
  match s with
  | "" => ""
  | String c r => if isspace c then skip_ws r else s
  end.

(** [d << std::hex << num; d >> n]: formatted extraction of an [int] in
    base sixteen.  Leading white space is skipped, a sign and a [0x]
    prefix are accepted, and the digits that follow are converted; when
    there is no digit the extraction fails ([None]) and stores 0 in [n],
    as the GNU library does. *)
Definition extract_hex (num : string) : option Z :=
  let s := skip_ws num in
  let '(neg, s) :=
    match s with
    | String "+" r => (false, r)
    | String "-" r => (true, r)
    | _ => (false, s)
    end in
  let s :=
    match s with
    | String "0" (String x r) =>
        if (Ascii.eqb x "x" || Ascii.eqb x "X") && starts_with_hex_digit r
        then r else s
    | _ => s
    end in
  if starts_with_hex_digit s
  then Some (if neg then - hex_run s 0 else hex_run s 0)
  else None.

(** [removeEscapeSeq].  The iterator is advanced past a backslash without
    a test against [s.end()], and four more times after a [u]: when the
    text ends too early the source dereferences a past-the-end iterator.
    After a failed extraction [n] holds 0 and the character written is
    the one with code 0. *)
Fixpoint removeEscapeSeq (s : string) : result string :=
  match s with
  | "" => Ok ""
  | String c rest =>
      if Ascii.eqb c backslash then
        match rest with
        | "" => Undefined
        | String e rest' =>
            if Ascii.eqb e "b" then String ch_b <$> removeEscapeSeq rest'
            else if Ascii.eqb e "f" then String ch_f <$> removeEscapeSeq rest'
            else if Ascii.eqb e "n" then String ch_n <$> removeEscapeSeq rest'
            else if Ascii.eqb e "r" then String ch_r <$> removeEscapeSeq rest'
            else if Ascii.eqb e "t" then String ch_t <$> removeEscapeSeq rest'
            else if Ascii.eqb e "u" then
              match rest' with
              | String h1 (String h2 (String h3 (String h4 rest''))) =>
                  match extract_hex
                          (String h1 (String h2 (String h3 (String h4 "")))) with
                  | Some n => String (char_of_int n) <$> removeEscapeSeq rest''
                  | None => String (char_of_int 0) <$> removeEscapeSeq rest''
                  end
              | _ => Undefined
              end
            else String e <$> removeEscapeSeq rest'
        end
      else String c <$> removeEscapeSeq rest
  end.

(** ** The tokenizer *)

(** [isSeparator( char c )] tests [currentChar], not its argument. *)
Definition isSeparator (rd : t) (c : ascii) : bool :=
  if isspace (currentChar rd) || Ascii.eqb (currentChar rd) ","
  then true else false.

Fixpoint skipSpaces (fuel : nat) (rd : t) : result t :=
  if isSeparator rd (currentChar rd) then
    match fuel with
    | O => OutOfFuel
    | S fuel' => skipSpaces fuel' (advance rd)
    end
  else Ok rd.

Fixpoint skipColon (fuel : nat) (rd : t) : result t :=
  if Ascii.eqb (currentChar rd) ":" then
    match fuel with
    | O => OutOfFuel
    | S fuel' => skipColon fuel' (advance rd)
    end
  else Ok rd.

(** The loop of [getString]: [str] is the text collected so far. *)
Fixpoint getString_loop (fuel : nat) (str : string) (rd : t)
  : result (string * t) :=
  if negb (Ascii.eqb (currentChar rd) dquote) then
    match fuel with
    | O => OutOfFuel
    | S fuel' =>
        let '(str, rd) :=
          if Ascii.eqb (currentChar rd) backslash
          then (str ++ String (currentChar rd) "", advance rd)
          else (str, rd) in
        getString_loop fuel' (str ++ String (currentChar rd) "") (advance rd)
    end
  else Ok (str, rd).

Definition getString (fuel : nat) (rd : t) : result (string * t) :=
  let rd := advance rd in
  '(str, rd) ← getString_loop fuel "" rd;
  let rd := advance rd in
  s ← removeEscapeSeq str;
  Ok (s, rd).

Fixpoint getToken_loop (fuel : nat) (token : string) (rd : t)
  : result (string * t) :=
  if negb (isSeparator rd (currentChar rd)) then
    match fuel with
    | O => OutOfFuel
    | S fuel' =>
        getToken_loop fuel' (token ++ String (currentChar rd) "") (advance rd)
    end
  else Ok (token, rd).

Definition getToken (fuel : nat) (rd : t) : result (string * t) :=
  rd ← (if isSeparator rd (currentChar rd) then skipSpaces fuel rd else Ok rd);
  if Ascii.eqb (currentChar rd) dquote then getString fuel rd
  else getToken_loop fuel "" rd.

(** ** Primitive reads that need nothing but the tokenizer *)

Definition readChar (fuel : nat) (rd : t) : result (ascii * t) :=
  rd ← skipSpaces fuel rd;
  '(tok, rd) ← getToken fuel rd;
  match tok with
  | "" => Throw out_of_range          (* std::string::at( 0 ) *)
  | String c _ => Ok (c, rd)
  end.

Definition readBool (fuel : nat) (rd : t) : result (bool * t) :=
  '(tok, rd) ← getToken fuel rd;
  Ok (String.eqb tok "true", rd).

Definition readString (fuel : nat) (rd : t) : result (string * t) :=
  getToken fuel rd.

(** ** Objects, properties and collections *)

(** What the reader needs from the metatype layer (metatype.hpp and
    custommetaclass.hpp are not among the sources): the calls that
    [readObject] and [readProperty] make on [Metatype], [Property] and
    [Reflector], over a store [World] of application objects.
    [prop_metatype_read] is [prop.metatype().read( this, value )], which
    goes on reading from the same reader and so takes the fuel and the
    reader state. *)
Class MetaLayer (any Instance World : Type) : Type := {
  any_empty : any;                       (* boost::any() *)
  any_of_int : Z -> any;                 (* boost::any( 0 ) *)
  any_of_instance : Instance -> any;     (* boost::any( instance ) *)
  any_is_empty : any -> bool;            (* any::empty() *)
  MetatypeRef : Type;                    (* const Metatype& *)
  PropertyRef : Type;                    (* Property& *)
  property : MetatypeRef -> string -> result PropertyRef;
  prop_get : PropertyRef -> Instance -> World -> result any;
  prop_set : PropertyRef -> Instance -> any -> World -> result World;
  prop_isWritable : PropertyRef -> bool;
  prop_metatype_isCollection : PropertyRef -> bool;
  prop_metatype_read :
    PropertyRef -> nat -> any -> t -> World -> result (any * t * World);
  (* jrtti_cast< void * >( Reflector::instance().metatype( name ).create() ) *)
  create_by_name : string -> World -> result (Instance * World)
}.

(** [boost::trim]: white space removed at both ends. *)
Fixpoint trim_right (s : string) : string :=
  match s with
  | "" => ""
  | String c r =>
      match trim_right r with
      | "" => if isspace c then "" else String c ""
      | r' => String c r'
      end
  end.

Definition trim (s : string) : string := trim_right (skip_ws s).

Fixpoint objectBegin_loop (fuel : nat) (objTypeName : string) (rd : t)
  : result (string * t) :=
  if negb (Ascii.eqb (currentChar rd) "{") then
    match fuel with
    | O => OutOfFuel
    | S fuel' =>
        objectBegin_loop fuel'
          (objTypeName ++ String (currentChar rd) "") (advance rd)
    end
  else Ok (objTypeName, rd).

Definition objectBegin (fuel : nat) (rd : t) : result (string * t) :=
  rd ← skipSpaces fuel rd;
  '(objTypeName, rd) ← objectBegin_loop fuel "" rd;
  let rd := advance rd in
  Ok (trim objTypeName, rd).

Definition endObject (fuel : nat) (rd : t) : result (bool * t) :=
  rd ← skipSpaces fuel rd;
  Ok (Ascii.eqb (currentChar rd) "}", rd).

Fixpoint objectEnd_loop (fuel : nat) (rd : t) : result t :=
  '(stop, rd) ← endObject fuel rd;
  if negb stop then
    match fuel with
    | O => OutOfFuel
    | S fuel' => objectEnd_loop fuel' (advance rd)
    end
  else Ok rd.

Definition objectEnd (fuel : nat) (rd : t) : result t :=
  rd ← objectEnd_loop fuel rd;
  Ok (advance rd).

Fixpoint collectionBegin_loop (fuel : nat) (rd : t) : result t :=
  if negb (Ascii.eqb (currentChar rd) "[") then
    match fuel with
    | O => OutOfFuel
    | S fuel' => collectionBegin_loop fuel' (advance rd)
    end
  else Ok rd.

Definition collectionBegin (fuel : nat) (rd : t) : result t :=
  rd ← collectionBegin_loop fuel rd;
  Ok (advance rd).

Definition endCollection (fuel : nat) (rd : t) : result (bool * t) :=
  rd ← skipSpaces fuel rd;
  Ok (Ascii.eqb (currentChar rd) "]", rd).

Fixpoint collectionEnd_loop (fuel : nat) (rd : t) : result t :=
  '(stop, rd) ← endCollection fuel rd;
  if negb stop then
    match fuel with
    | O => OutOfFuel
    | S fuel' => collectionEnd_loop fuel' (advance rd)
    end
  else Ok rd.

Definition collectionEnd (fuel : nat) (rd : t) : result t :=
  rd ← collectionEnd_loop fuel rd;
  Ok (advance rd).

Section Objects.

Context {any Instance World : Type} `{ML : !MetaLayer any Instance World}.

(** [readProperty].  Both marker branches read the id token into a
    local variable and do nothing else with it. *)
Definition readProperty (fuel : nat) (mt : MetatypeRef) (instance : Instance)
    (rd : t) (w : World) : result (any * t * World) :=
  '(propName, rd) ← getToken fuel rd;
  rd ← skipColon fuel rd;
  if String.eqb propName "$id" then
    '(ref, rd) ← getToken fuel rd;
    Ok (any_empty, rd, w)
  else if String.eqb propName "$ref" then
    '(ref, rd) ← getToken fuel rd;
    Ok (any_of_int 0, rd, w)
  else
    prop ← property mt propName;
    value ← prop_get prop instance w;
    '(mod_, rd, w) ← prop_metatype_read prop fuel value rd w;
    if negb (any_is_empty mod_) && negb (prop_metatype_isCollection prop)
       && prop_isWritable prop
    then w ← prop_set prop instance mod_ w; Ok (any_empty, rd, w)
    else Ok (any_empty, rd, w).

(** The loop of [readObject]; the value [readProperty] returns is
    dropped. *)
Fixpoint readObject_loop (fuel : nat) (mt : MetatypeRef) (instance : Instance)
    (rd : t) (w : World) : result (t * World) :=
  '(stop, rd) ← endObject fuel rd;
  if negb stop then
    match fuel with
    | O => OutOfFuel
    | S fuel' =>
        '(_, rd, w) ← readProperty fuel mt instance rd w;
        readObject_loop fuel' mt instance rd w
    end
  else Ok (rd, w).

(** [readObject]; a null [instance] is [None]. *)
Definition readObject (fuel : nat) (mt : MetatypeRef)
    (instance : option Instance) (rd : t) (w : World)
  : result (any * t * World) :=
  '(objTypeName, rd) ← objectBegin fuel rd;
  '(instance, w) ←
     match instance with
     | Some i => Ok (i, w)
     | None => create_by_name objTypeName w
     end;
  '(rd, w) ← readObject_loop fuel mt instance rd w;
  rd ← objectEnd fuel rd;
  Ok (any_of_instance instance, rd, w).

End Objects.

(** ** Texts without a delimiter *)

(** Whether a character occurs in a text. *)
Fixpoint contains (c : ascii) (s : string) : bool :=
  match s with
  | "" => false
  | String x r => Ascii.eqb x c || contains c r
  end.

(** Neither the lookahead nor the rest of the stream holds [c]. *)
Definition lacks (c : ascii) (rd : t) : bool :=
  negb (Ascii.eqb (currentChar rd) c) && negb (contains c (m_stream rd)).

(** ** Texts and the tokenizer *)

(** The characters [isSeparator] accepts: white space and the comma. *)
Definition separator (c : ascii) : bool := isspace c || Ascii.eqb c ",".

(** Whether every character of a text passes a test. *)
Fixpoint all_chars (p : ascii -> bool) (s : string) : bool :=
  match s with
  | "" => true
  | String c r => p c && all_chars p r
  end.

(** A character that is part of an unquoted token. *)
Definition token_char (c : ascii) : bool := negb (separator c).

(** A character that a quoted string holds as it is: neither the quote nor
    the backslash. *)
Definition plain_char (c : ascii) : bool :=
  negb (Ascii.eqb c dquote) && negb (Ascii.eqb c backslash).

(** The reader as it stands when the lookahead is the first [c] at or
    after the present lookahead; [None] when there is no [c] ahead. *)
Fixpoint seek_from (c cur : ascii) (s : string) : option t :=
  if Ascii.eqb cur c then Some {| m_stream := s; currentChar := cur |}
  else
    match s with
    | "" => None
    | String x r => seek_from c x r
    end.

Definition seek (c : ascii) (rd : t) : option t :=
  seek_from c (currentChar rd) (m_stream rd).

(** A token that does not start with a quote. *)
Definition unquoted (tok : string) : bool :=
  match tok with
  | "" => false
  | String c _ => negb (Ascii.eqb c dquote)
  end.

(** A character other than the backslash. *)
Definition no_backslash (c : ascii) : bool := negb (Ascii.eqb c backslash).

(** The letters that [removeEscapeSeq] gives a meaning after a backslash. *)
Definition escape_letter (c : ascii) : bool :=
  existsb (Ascii.eqb c) ["b"; "f"; "n"; "r"; "t"; "u"]%char.

(** A type name that [objectBegin] returns as it was written: it holds no
    opening brace, does not start with a separator, and has no white space
    at either end. *)
Definition plain_type_name (name : string) : bool :=
  negb (contains "{" name)
  && String.eqb (trim name) name
  && match name with
     | "" => true
     | String c _ => token_char c
     end.

End JSONReader.

(* ===================================================================== *)
(** * Property and TypedProperty *)
(* ===================================================================== *)

Module Property.

(** [enum Mode {Readable=1, Writable=2}] *)
Definition Readable : Z := 1.
Definition Writable : Z := 2.

Record t : Type := mk {
  _annotations : Annotations;
  _type_name : string;
  _name : string;
  _mode : Z
}.

(** [Property()] sets [_mode] to [(Mode)0]. *)
Definition create : t :=
  {| _annotations := []; _type_name := ""; _name := ""; _mode := 0 |}.

Definition name (p : t) : string := _name p.
Definition typeName (p : t) : string := _type_name p.

Definition set_typeName (value : string) (p : t) : t :=
  {| _annotations := _annotations p; _type_name := value;
     _name := _name p; _mode := _mode p |}.

Definition set_name (value : string) (p : t) : t :=
  {| _annotations := _annotations p; _type_name := _type_name p;
     _name := value; _mode := _mode p |}.

(** [return (_mode & Readable);] converted to [bool]. *)
Definition isReadable (p : t) : bool := negb (Z.land (_mode p) Readable =? 0).

(** [return (_mode & Writable) != 0;] *)
Definition isWritable (p : t) : bool := negb (Z.land (_mode p) Writable =? 0).

Definition isReadWrite (p : t) : bool := isReadable p && isWritable p.
Definition isReadOnly (p : t) : bool := isReadable p && negb (isWritable p).

(** [_mode = (Mode) (_mode | mode);] *)
Definition setMode (mode : Z) (p : t) : t :=
  {| _annotations := _annotations p; _type_name := _type_name p;
     _name := _name p; _mode := Z.lor (_mode p) mode |}.

End Property.

Module TypedProperty.

Section Typed.

(** [ClassT] is the state of one object of the class, [PropT] the
    property's value type.  [any] is [boost::any]; [any_cast] is
    [boost::any_cast< PropNoRefT >], which fails with [bad_any_cast]
    when the held type is another one. *)
Context {ClassT PropT any : Type}.
Variable any_cast : any -> option PropT.
Variable any_of : PropT -> any.
Variable nameOf_PropT : string.          (* jrtti::nameOf<PropT>() *)

(** A pointer to a data member: how to read and to overwrite the field
    of an object. *)
Record member : Type := mk_member {
  read_member : ClassT -> PropT;
  write_member : ClassT -> PropT -> ClassT
}.

(** An empty [boost::function] and a null member pointer are [None].
    A setter functor is applied to the object and returns it as it has
    become. *)
Record t : Type := mk {
  base : Property.t;
  m_setter : option (ClassT -> PropT -> ClassT);
  m_getter : option (ClassT -> PropT);
  m_dataMember : option member
}.

(** The constructor sets the type name; [m_dataMember] is not
    initialised and holds [dataMember0] until a setter is bound. *)
Definition create (dataMember0 : option member) : t :=
  {| base := Property.set_typeName nameOf_PropT Property.create;
     m_setter := None; m_getter := None; m_dataMember := dataMember0 |}.

Definition isReadable (p : t) : bool := Property.isReadable (base p).
Definition isWritable (p : t) : bool := Property.isWritable (base p).

Definition setMode (mode : Z) (p : t) : t :=
  {| base := Property.setMode mode (base p); m_setter := m_setter p;
     m_getter := m_getter p; m_dataMember := m_dataMember p |}.

(** [setter( functor )] for a functor on an object and a [PropT] *)
Definition setter (functor : option (ClassT -> PropT -> ClassT)) (p : t) : t :=
  let p := if functor is Some _ then setMode Property.Writable p else p in
  {| base := base p; m_setter := functor;
     m_getter := m_getter p; m_dataMember := None |}.

(** [setter( PropNoRefT ClassT::* dataMember )] *)
Definition setter_member (dataMember : option member) (p : t) : t :=
  let p := setMode Property.Writable p in
  let p := setMode Property.Readable p in
  {| base := base p; m_setter := None;
     m_getter := m_getter p; m_dataMember := dataMember |}.

(** [getter( functor )] for a functor from an object to a [PropT] *)
Definition getter (functor : option (ClassT -> PropT)) (p : t) : t :=
  let p := if functor is Some _ then setMode Property.Readable p else p in
  {| base := base p; m_setter := m_setter p;
     m_getter := functor; m_dataMember := m_dataMember p |}.

(** [get]: every [internal_get] calls [m_getter]. *)
Definition get (p : t) (instance : ClassT) : result any :=
  match m_getter p with
  | Some g => Ok (any_of (g instance))
  | None => Throw bad_function_call
  end.

Definition internal_set (p : t) (instance : ClassT) (value : PropT)
  : result ClassT :=
  match m_dataMember p with
  | Some m => Ok (write_member m instance value)
  | None =>
      match m_setter p with
      | Some f => Ok (f instance value)
      | None => Throw bad_function_call
      end
  end.

(** [set]: the object as it is after the call. *)
Definition set (p : t) (instance : ClassT) (val : any) : result ClassT :=
  if isWritable p then
    match any_cast val with
    | Some v => internal_set p instance v
    | None => Throw bad_any_cast
    end
  else Ok instance.

(** ** Sequences of bindings *)

(** One call that binds an accessor: [setter] with a functor, [setter]
    with a data member, [getter]. *)
Inductive binding : Type :=
| Setter (functor : option (ClassT -> PropT -> ClassT))
| SetterMember (dataMember : option member)
| Getter (functor : option (ClassT -> PropT)).

Definition configure (b : binding) (p : t) : t :=
  match b with
  | Setter functor => setter functor p
  | SetterMember dataMember => setter_member dataMember p
  | Getter functor => getter functor p
  end.

(** The calls chain, each returning the property: first to last. *)
Definition configure_all (bs : list binding) (p : t) : t :=
  foldl (fun p b => configure b p) p bs.

(** The part of two properties that [get] and [set] can see: the member
    pointer counts only once the property is writable. *)
Definition same_but_member (p q : t) : Prop :=
  base p = base q /\ m_setter p = m_setter q /\ m_getter p = m_getter q
  /\ (isWritable p = true -> m_dataMember p = m_dataMember q).

End Typed.

End TypedProperty.

(* ===================================================================== *)
(** * Metacollection *)
(* ===================================================================== *)

Module Metacollection.

Section Collection.

(** [ClassT] is a sequence container given by its elements in
    iteration order, so that [insert( end(), x )] appends [x].
    [getReference] resolves the [boost::any] that holds a pointer to
    the container or a reference wrapper around it to the container
    itself, which the functions below take and return. *)
Context {value_type any : Type}.

(** Parts that are not among the sources: the element metatype's
    [_toStr] and [_fromStr] (metatype.hpp), [ident] (metatype.hpp),
    [boost::any_cast< value_type >], and [parser], which [_fromStr]
    iterates without declaring it: the entries, in iteration order, of
    the [JSONParser] (jsonparser.hpp) for the text. *)
Variable elem_toStr : value_type -> bool -> string.
Variable elem_fromStr : string -> result any.
Variable any_cast : any -> option value_type.
Variable any_empty : any.
Variable ident : string -> string.
Variable parser : string -> list (string * string).

Definition nl : string := String ch_n "".

Fixpoint _toStr_loop (elems : list value_type) (formatForStreaming : bool)
    (need_nl : bool) (str : string) : string :=
  match elems with
  | [] => str
  | e :: rest =>
      let str := if need_nl then str ++ "," ++ nl else str in
      _toStr_loop rest formatForStreaming true
        (str ++ ident (elem_toStr e formatForStreaming))
  end.

Definition _toStr (_collection : list value_type) (formatForStreaming : bool)
  : string :=
  _toStr_loop _collection formatForStreaming false ("[" ++ nl) ++ nl ++ "]".

(** The loop of [_fromStr] over the parser's entries. *)
Fixpoint _fromStr_loop (entries : list (string * string))
    (_collection : list value_type) : result (list value_type) :=
  match entries with
  | [] => Ok _collection
  | it :: rest =>
      mod_ ← elem_fromStr (snd it);
      match any_cast mod_ with
      | Some x => _fromStr_loop rest (_collection ++ [x])%list
      | None => Throw bad_any_cast
      end
  end.

(** [_fromStr]: between [getReference] and the loop the source has no
    statement; the container is handed to the loop as it is. *)
Definition _fromStr (_collection : list value_type) (str : string)
  : result (any * list value_type) :=
  c ← _fromStr_loop (parser str) _collection;
  Ok (any_empty, c).

(** The element metatype decodes the text of an entry to [x]. *)
Definition decodes_to (it : string * string) (x : value_type) : Prop :=
  exists m, elem_fromStr (snd it) = Ok m /\ any_cast m = Some x.

(** ** The collection behind a [boost::any] *)

(** What [getReference] can find in the [boost::any] it is given: a
    container by value, a pointer to one ([None] is the null pointer), a
    reference wrapper around one, or anything else. *)
Inductive held : Type :=
| any_collection (c : list value_type)
| any_pointer (p : option addr)
| any_reference_wrapper (a : addr)
| any_other.

(** The containers of the program: the ones the application owns, by
    address, and [ref], the function-local static of [getReference],
    which is [None] until the declaration has been executed. *)
Record store : Type := mk_store {
  static_ref : option (list value_type);
  objects : gmap addr (list value_type)
}.

(** The container a returned reference designates. *)
Inductive reference : Type :=
| to_static_ref
| to_object (a : addr).

(** [getReference].  The static is initialised by the first call that
    reaches its declaration and by no later one.  Dereferencing a null
    or dangling pointer is undefined. *)
Definition getReference (value : held) (st : store) : result (reference * store) :=
  match value with
  | any_collection c =>
      match static_ref st with
      | Some _ => Ok (to_static_ref, st)
      | None =>
          Ok (to_static_ref, {| static_ref := Some c; objects := objects st |})
      end
  | any_pointer (Some a) | any_reference_wrapper a =>
      if objects st !! a is Some _ then Ok (to_object a, st) else Undefined
  | any_pointer None => Undefined
  | any_other => Throw bad_any_cast
  end.

Definition read_reference (r : reference) (st : store)
  : result (list value_type) :=
  match r with
  | to_static_ref =>
      if static_ref st is Some c then Ok c else Undefined
  | to_object a =>
      if objects st !! a is Some c then Ok c else Undefined
  end.

Definition write_reference (r : reference) (c : list value_type) (st : store)
  : store :=
  match r with
  | to_static_ref => {| static_ref := Some c; objects := objects st |}
  | to_object a => {| static_ref := static_ref st; objects := <[a := c]> (objects st) |}
  end.

(** [_toStr] and [_fromStr] with their first statement, the call of
    [getReference], on the [boost::any] they receive. *)
Definition _toStr_any (value : held) (formatForStreaming : bool) (st : store)
  : result (string * store) :=
  '(r, st) ← getReference value st;
  _collection ← read_reference r st;
  Ok (_toStr _collection formatForStreaming, st).

Definition _fromStr_any (instance : held) (str : string) (st : store)
  : result (any * store) :=
  '(r, st) ← getReference instance st;
  _collection ← read_reference r st;
  c ← _fromStr_loop (parser str) _collection;
  Ok (any_empty, write_reference r c st).

(** The texts of a list with a separator between neighbours. *)
Fixpoint joined (sep : string) (texts : list string) : string :=
  match texts with
  | [] => ""
  | [x] => x
  | x :: rest => x ++ sep ++ joined sep rest
  end.

End Collection.

End Metacollection.

(* ===================================================================== *)
(** * Reflector: the type registry *)
(* ===================================================================== *)

Module Reflector.

(** The registry together with the objects it points to.

    - [heap]: the live [Metatype] objects, by address;
    - [property_metatype]: for each [Property] object, the metatype that
      [setMetatype] stored in it last;
    - [_meta_types]: the [TypeMap], from [typeid] names to metatypes;
    - [m_prefixDecorators]: the vector of prefixes;
    - [m_pendingProperties]: the multimap of pending properties, as the
      properties queued under each name, oldest first (a name with no
      entry has no key).

    The members [m_addressRefs] and [m_nameRefs] are only handed out by
    their accessors and are left out. *)
Record t : Type := mk {
  heap : gmap addr Metatype;
  property_metatype : gmap paddr addr;
  _meta_types : gmap string addr;
  m_prefixDecorators : list string;
  m_pendingProperties : gmap string (list paddr)
}.

Definition set_heap (h : gmap addr Metatype) (s : t) : t :=
  mk h (property_metatype s) (_meta_types s) (m_prefixDecorators s)
     (m_pendingProperties s).

Definition set_property_metatype (pm : gmap paddr addr) (s : t) : t :=
  mk (heap s) pm (_meta_types s) (m_prefixDecorators s)
     (m_pendingProperties s).

Definition set_meta_types (m : gmap string addr) (s : t) : t :=
  mk (heap s) (property_metatype s) m (m_prefixDecorators s)
     (m_pendingProperties s).

Definition set_prefixDecorators (d : list string) (s : t) : t :=
  mk (heap s) (property_metatype s) (_meta_types s) d
     (m_pendingProperties s).

Definition set_pendingProperties (p : gmap string (list paddr)) (s : t) : t :=
  mk (heap s) (property_metatype s) (_meta_types s) (m_prefixDecorators s) p.

(** [new]: the object is placed at an address that holds no live
    metatype. *)
Definition new_metatype (m : Metatype) (s : t) : addr * t :=
  let a := fresh (dom (heap s)) in
  (a, set_heap (<[a := m]> (heap s)) s).

(** Modelled from the spec: [Property::setMetatype] is not in the
    [Property] class of the sources; it records the metatype that the
    property's value type resolved to. *)
Definition setMetatype (prop : paddr) (mc : addr) (s : t) : t :=
  set_property_metatype (<[prop := mc]> (property_metatype s)) s.

(** [mc->pointerMetatype( ptr_mc )] *)
Definition set_pointerMetatype (mc ptr_mc : addr) (s : t) : result t :=
  match heap s !! mc with
  | None => Undefined
  | Some m =>
      Ok (set_heap
            (<[mc := mkMetatype (typeInfo m) (dynamic_class m)
                                (annotations m) (Some ptr_mc)]> (heap s)) s)
  end.

Section Registry.

(** [std::type_info::name()], and [abi::__cxa_demangle] with the
    result it gives when its status is zero.  The conditional
    compilation is resolved for GNU C++ ([__GNUG__] defined,
    [__BORLANDC__] not). *)
Variable typeid_name : ctype -> string.
Variable cxa_demangle : string -> option string.

Definition demangle (name : string) : string :=
  match cxa_demangle name with
  | Some res => res
  | None => name
  end.

(** [_meta_types.count( name )] *)
Definition count (name : string) (s : t) : bool :=
  bool_decide (is_Some (_meta_types s !! name)).

Definition registerPrefixDecorator (decorator : string) (s : t) : t :=
  set_prefixDecorators (m_prefixDecorators s ++ [decorator])%list s.

(** [metatype( const std::string& )] *)
Definition metatype (pname : string) (s : t) : result addr :=
  match _meta_types s !! pname with
  | None => Throw (Error ("Metatype '" ++ demangle pname ++ "' not declared"))
  | Some a => Ok a
  end.

(** [metatype< T >()] *)
Definition metatype_of (T : ctype) (s : t) : result addr :=
  metatype (typeid_name T) s.

Definition addPendingProperty (tname : string) (prop : paddr) (s : t) : t :=
  set_pendingProperties
    (<[tname := (default [] (m_pendingProperties s !! tname) ++ [prop])%list]>
       (m_pendingProperties s)) s.

Definition updatePendingProperties (mc : addr) (s : t) : result t :=
  match heap s !! mc with
  | None => Undefined
  | Some m =>
      let key := typeid_name (typeInfo m) in
      let ret := default [] (m_pendingProperties s !! key) in
      let s := foldl (fun s prop => setMetatype prop mc s) s ret in
      Ok (set_pendingProperties (delete key (m_pendingProperties s)) s)
  end.

(** [internal_declare< T >( mc )] *)
Definition internal_declare (T : ctype) (mc : addr) (s : t) : result t :=
  '(ptr_mc, s) ←
    (if negb (count (typeid_name T) s)
     then Ok (new_metatype (mkMetatype (Tptr T) (MetaPointerType mc) [] None) s)
     else ptr_mc ← metatype_of (Tptr T) s; Ok (ptr_mc, s));
  let s := set_meta_types (<[typeid_name T := mc]> (_meta_types s)) s in
  let s := set_meta_types (<[typeid_name (Tptr T) := ptr_mc]> (_meta_types s)) s in
  s ← set_pointerMetatype mc ptr_mc s;
  s ← updatePendingProperties mc s;
  updatePendingProperties ptr_mc s.

(** [dynamic_cast< Target * >( &metatype< C >() )] followed by the
    dereference: a null result makes the dereference undefined. *)
Definition dynamic_cast (accepts : metaclass -> bool) (a : addr) (s : t)
  : result addr :=
  match heap s !! a with
  | Some m => if accepts (dynamic_class m) then Ok a else Undefined
  | None => Undefined
  end.

(** What each [dynamic_cast] of the declare functions accepts:
    [Metacollection<C>] is derived from [CustomMetaclass<C>]. *)
Definition is_CustomMetaclass (C : ctype) (k : metaclass) : bool :=
  match k with
  | CustomMetaclass C' false => bool_decide (C' = C)
  | Metacollection_ C' => bool_decide (C' = C)
  | _ => false
  end.

Definition is_CustomMetaclass_abstract (C : ctype) (k : metaclass) : bool :=
  match k with
  | CustomMetaclass C' true => bool_decide (C' = C)
  | _ => false
  end.

Definition is_Metacollection (C : ctype) (k : metaclass) : bool :=
  match k with
  | Metacollection_ C' => bool_decide (C' = C)
  | _ => false
  end.

(** [declare< C >( annotations )]: the metatype returned, by address. *)
Definition declare (C : ctype) (annotations : Annotations) (s : t)
  : result (addr * t) :=
  if count (typeid_name C) s then
    a ← metatype_of C s;
    a ← dynamic_cast (is_CustomMetaclass C) a s;
    Ok (a, s)
  else
    let '(mc, s) :=
      new_metatype (mkMetatype C (CustomMetaclass C false) annotations None) s in
    s ← internal_declare C mc s;
    Ok (mc, s).

Definition declareAbstract (C : ctype) (annotations : Annotations) (s : t)
  : result (addr * t) :=
  if count (typeid_name C) s then
    a ← metatype_of C s;
    a ← dynamic_cast (is_CustomMetaclass_abstract C) a s;
    Ok (a, s)
  else
    let '(mc, s) :=
      new_metatype (mkMetatype C (CustomMetaclass C true) annotations None) s in
    s ← internal_declare C mc s;
    Ok (mc, s).

Definition declareCollection (C : ctype) (annotations : Annotations) (s : t)
  : result (addr * t) :=
  if count (typeid_name C) s then
    a ← metatype_of C s;
    a ← dynamic_cast (is_Metacollection C) a s;
    Ok (a, s)
  else
    let '(mc, s) :=
      new_metatype (mkMetatype C (Metacollection_ C) annotations None) s in
    s ← internal_declare C mc s;
    Ok (mc, s).

(** [eraseMetatypes]: the registered pointers are collected in a set,
    each is deleted once, and the map is emptied.  Deleting a pointer
    to an object that is not live is undefined. *)
Definition eraseMetatypes (s : t) : result t :=
  let pending : gset addr := map_img (_meta_types s) in
  if bool_decide (pending ⊆ dom (heap s)) then
    Ok (set_meta_types ∅
          (set_heap (filter (fun kv => kv.1 ∉ pending) (heap s)) s))
  else Undefined.

(** [internal_declare< T >( new Meta() )] for a primitive metatype. *)
Definition declare_default (T : ctype) (k : metaclass) (s : t) : result t :=
  let '(mc, s) := new_metatype (mkMetatype T k [] None) s in
  internal_declare T mc s.

Definition register_defaults (s : t) : result t :=
  s ← declare_default Tbool MetaBool s;
  s ← declare_default Tchar MetaChar s;
  s ← declare_default Tshort MetaShort s;
  s ← declare_default Tint MetaInt s;
  s ← declare_default Tlong MetaLong s;
  s ← declare_default Tfloat MetaFloat s;
  s ← declare_default Tdouble MetaDouble s;
  s ← declare_default Tlongdouble MetaLongDouble s;
  s ← declare_default Twchar_t MetaWchar_t s;
  declare_default Tstring MetaString_ s.

Definition clear (s : t) : result t :=
  s ← eraseMetatypes s;
  let s := set_prefixDecorators [] s in
  let s := registerPrefixDecorator "struct" s in
  let s := registerPrefixDecorator "class" s in
  register_defaults s.

(** [Reflector()]: all members are empty, then [clear()] runs.  The
    registry is built before any metatype exists; [props] is what the
    [Property] objects of the program hold at that time. *)
Definition create (props : gmap paddr addr) : result t :=
  clear (mk ∅ props ∅ [] ∅).

(** ** Predicates the statements about the registry use *)

(** What a declaration makes of the registry when the name of [T] is
    free: [M] is the metatype object the caller has just built. *)
Definition declared_state (T : ctype) (M : Metatype) (s s' : t)
    (mc ptr : addr) : Prop :=
  heap s !! mc = None /\ heap s !! ptr = None /\ mc <> ptr
  /\ heap s'
     = <[mc := mkMetatype (typeInfo M) (dynamic_class M) (annotations M) (Some ptr)]>
         (<[ptr := mkMetatype (Tptr T) (MetaPointerType mc) [] None]>
            (<[mc := M]> (heap s)))
  /\ _meta_types s'
     = <[typeid_name (Tptr T) := ptr]>
         (<[typeid_name T := mc]> (_meta_types s))
  /\ m_prefixDecorators s' = m_prefixDecorators s
  /\ m_pendingProperties s'
     = delete (typeid_name (Tptr T))
         (delete (typeid_name (typeInfo M)) (m_pendingProperties s))
  /\ forall prop,
       property_metatype s' !! prop
       = if bool_decide
              (prop ∈ default []
                 (delete (typeid_name (typeInfo M)) (m_pendingProperties s)
                    !! typeid_name (Tptr T)))
         then Some ptr
         else if bool_decide
                   (prop ∈ default []
                      (m_pendingProperties s !! typeid_name (typeInfo M)))
              then Some mc
              else property_metatype s !! prop.

(** The properties queued under a name, oldest first. *)
Definition pending_for (tname : string) (s : t) : list paddr :=
  default [] (m_pendingProperties s !! tname).

(** The declare functions of the registry. *)
Definition declarations : list (ctype -> Annotations -> t -> result (addr * t)) :=
  [declare; declareAbstract; declareCollection].

(** The primitive types with the class of their metatype, in the order
    of [register_defaults]. *)
Definition primitive_types : list (ctype * metaclass) :=
  [ (Tbool, MetaBool); (Tchar, MetaChar); (Tshort, MetaShort);
    (Tint, MetaInt); (Tlong, MetaLong); (Tfloat, MetaFloat);
    (Tdouble, MetaDouble); (Tlongdouble, MetaLongDouble);
    (Twchar_t, MetaWchar_t); (Tstring, MetaString_) ].

(** The names a list of types and their pointer types are registered
    under. *)
Fixpoint registry_keys (l : list (ctype * metaclass)) : list string :=
  match l with
  | [] => []
  | (T, _) :: l' => typeid_name T :: typeid_name (Tptr T) :: registry_keys l'
  end.

(** Every registered pointer is a live object. *)
Definition registered_live (s : t) : Prop :=
  forall name a, _meta_types s !! name = Some a -> is_Some (heap s !! a).

(** [T] is registered with a metatype of class [k], its pointer type is
    registered with a pointer-metatype over it, and the two are paired. *)
Definition registered (T : ctype) (k : metaclass) (s : t) : Prop :=
  exists mc ptr,
    metatype (typeid_name T) s = Ok mc
    /\ metatype (typeid_name (Tptr T)) s = Ok ptr
    /\ heap s !! mc = Some (mkMetatype T k [] (Some ptr))
    /\ heap s !! ptr = Some (mkMetatype (Tptr T) (MetaPointerType mc) [] None).

Fixpoint declare_defaults (l : list (ctype * metaclass)) (s : t) : result t :=
  match l with
  | [] => Ok s
  | (T, k) :: l' => s ← declare_default T k s; declare_defaults l' s
  end.

(** What a registry holds once the defaults are in. *)
Definition defaults_registered (s : t) : Prop :=
  m_prefixDecorators s = ["struct"; "class"]
  /\ registered_live s
  /\ forall T k, (T, k) ∈ primitive_types -> registered T k s.

(** The registries that the public operations produce, starting from the
    constructor. *)
Inductive reachable : t -> Prop :=
| reach_create props s :
    create props = Ok s -> reachable s
| reach_clear s0 s :
    reachable s0 -> clear s0 = Ok s -> reachable s
| reach_declaration d T ann s0 mc s :
    reachable s0 -> d ∈ declarations -> d T ann s0 = Ok (mc, s) -> reachable s
| reach_decorator decorator s0 :
    reachable s0 -> reachable (registerPrefixDecorator decorator s0)
| reach_pending tname prop s0 :
    reachable s0 -> reachable (addPendingProperty tname prop s0).

(** The registries reached from [s] by operations that register nothing
    under the name of [C] in place of what is there: declarations of any
    type but one whose pointer type has the name of [C], new decorators
    and new pending properties.  [clear] is not among them. *)
Inductive reached_keeping (C : ctype) (s : t) : t -> Prop :=
| keeping_start :
    reached_keeping C s s
| keeping_declaration d T ann s1 mc s2 :
    reached_keeping C s s1 -> d ∈ declarations ->
    typeid_name (Tptr T) <> typeid_name C ->
    d T ann s1 = Ok (mc, s2) -> reached_keeping C s s2
| keeping_decorator decorator s1 :
    reached_keeping C s s1 ->
    reached_keeping C s (registerPrefixDecorator decorator s1)
| keeping_pending tname prop s1 :
    reached_keeping C s s1 ->
    reached_keeping C s (addPendingProperty tname prop s1).

(** Every registered name is the [typeid] name of the object it is
    registered for. *)
Definition registered_by_name (s : t) : Prop :=
  forall name a, _meta_types s !! name = Some a ->
    exists m, heap s !! a = Some m /\ typeid_name (typeInfo m) = name.

(** ** [demangle] for the other compilers *)

(** [std::string::find( str )]: the first position at which [str]
    occurs. *)
Fixpoint find (str s : string) : option nat :=
  if String.prefix str s then Some 0%nat
  else
    match s with
    | "" => None
    | String _ r => S <$> find str r
    end.

(** [std::string::substr( pos )]: the text from [pos] on; a position
    behind the end throws [out_of_range]. *)
Fixpoint substr (pos : nat) (s : string) : result string :=
  match pos, s with
  | O, _ => Ok s
  | S p, String _ r => substr p r
  | S _, "" => Throw out_of_range
  end.

(** The branch of [demangle] that is compiled when neither [__GNUG__]
    nor [__BORLANDC__] is defined: the loop over [m_prefixDecorators]. *)
Fixpoint demangle_loop (decorators : list string) (name : string)
  : result string :=
  match decorators with
  | [] => Ok name
  | it :: rest =>
      match find it name with
      | Some pos => substr (pos + String.length it + 1) name
      | None => demangle_loop rest name
      end
  end.

Definition demangle_portable (name : string) (s : t) : result string :=
  demangle_loop (m_prefixDecorators s) name.

End Registry.

End Reflector.

(* ===================================================================== *)
(** * Annotations *)
(* ===================================================================== *)

(** The member functions of class [Annotations] (property.hpp) on the
    vector [m_annotations].  The vector holds shared pointers; an
    annotation object stands for the pointer to it, and null pointers in
    the vector are left out of the model. *)
Module AnnotationList.

Section Cast.

(** [dynamic_cast< T* >] succeeds on the objects whose class is [T] or is
    derived from [T]. *)
Variable is_a_T : Annotation -> bool.

(** [operator << ( Annotation * annotation )] *)
Definition push (annotation : Annotation) (m_annotations : Annotations)
  : Annotations :=
  (m_annotations ++ [annotation])%list.

(** [getFirst< T >()]; [None] is the null pointer. *)
Fixpoint getFirst (m_annotations : Annotations) : option Annotation :=
  match m_annotations with
  | [] => None
  | it :: rest => if is_a_T it then Some it else getFirst rest
  end.

(** The loop of [getAll< T >()]: [v] is the vector filled so far. *)
Fixpoint getAll_loop (m_annotations : Annotations) (v : list Annotation)
  : list Annotation :=
  match m_annotations with
  | [] => v
  | it :: rest =>
      getAll_loop rest (if is_a_T it then (v ++ [it])%list else v)
  end.

Definition getAll (m_annotations : Annotations) : list Annotation :=
  getAll_loop m_annotations [].

(** [has< T >()]: [getFirst< T >() != NULL] *)
Definition has (m_annotations : Annotations) : bool :=
  if getFirst m_annotations is Some _ then true else false.

End Cast.

End AnnotationList.

(* ===================================================================== *)
(** * Sample programs *)
(* ===================================================================== *)

(** The names GNU C++ gives: one letter for a primitive type, [Ss] for
    [std::string], the length and the spelling for a class, and a [P] in
    front for a pointer. *)
Fixpoint gxx_typeid_name (T : ctype) : string :=
  match T with
  | Tbool => "b" | Tchar => "c" | Tshort => "s" | Tint => "i" | Tlong => "l"
  | Tfloat => "f" | Tdouble => "d" | Tlongdouble => "e" | Twchar_t => "w"
  | Tstring => "Ss"
  | Tclass spelling => pretty (String.length spelling) ++ spelling
  | Tptr pointee => "P" ++ gxx_typeid_name pointee
  end.

(** [abi::__cxa_demangle] on these names.  The text behind a decimal
    length is a class name when it has that length. *)
Fixpoint source_name (s : string) (len : nat) (seen_digit : bool)
  : option string :=
  match s with
  | "" => None
  | String c r =>
      let n := nat_of_ascii c in
      if (Nat.leb 48 n && Nat.leb n 57)%bool
      then source_name r (10 * len + (n - 48)) true
      else if (seen_digit && Nat.eqb (String.length s) len)%bool
           then Some s else None
  end.

Definition gxx_builtin : list (string * string) :=
  [ ("b", "bool"); ("c", "char"); ("s", "short"); ("i", "int"); ("l", "long");
    ("f", "float"); ("d", "double"); ("e", "long double"); ("w", "wchar_t");
    ("Ss", "std::string") ].

(** The spelling of the type for the names above, with a star behind the
    pointee for a pointer; a text that is none of these names is not
    demangled, and [demangle] then returns it as it is. *)
Fixpoint gxx_demangle (name : string) : option string :=
  match name with
  | "" => None
  | String c r =>
      if Ascii.eqb c "P" then (fun pointee => pointee ++ "*") <$> gxx_demangle r
      else
        match list_find (fun entry => String.eqb entry.1 name = true) gxx_builtin with
        | Some (_, entry) => Some entry.2
        | None => source_name name 0 false
        end
  end.

(** The string of the specification's scenario: a double quote, a
    backslash, a newline and the non-ASCII character 0xE9. *)
Definition escaping_sample : string :=
  String dquote (String backslash (String ch_n (String (char_of 233) "z"))).

(** A class without properties, as a declaration would describe it. *)
Definition empty_class_metatype : Metatype :=
  mkMetatype (Tclass "TypeName") (CustomMetaclass (Tclass "TypeName") false) [] None.

(** A counter object with one integer field, read through a getter. *)
Definition counter_getter (c : Z) : Z := c.

(** ** A collection of integers *)

(** The texts between the commas of a text, as entries keyed by their
    position: a stand-in for the parser of a collection of numbers. *)
Fixpoint split_commas (s cur : string) : list string :=
  match s with
  | "" => [cur]
  | String c r =>
      if Ascii.eqb c "," then cur :: split_commas r ""
      else split_commas r (cur ++ String c "")
  end.

Definition sample_parser (str : string) : list (string * string) :=
  imap (fun i v => (pretty i, v)) (split_commas str "").

Fixpoint digits_value (s : string) (acc : Z) : option Z :=
  match s with
  | "" => Some acc
  | String c r =>
      let n := Z.of_nat (nat_of_ascii c) in
      if (48 <=? n) && (n <=? 57) then digits_value r (10 * acc + (n - 48))
      else None
  end.

(** The element metatype of [int]: the [any] it returns holds an [int]. *)
Definition int_fromStr (s : string) : result (option Z) :=
  match digits_value s 0 with
  | Some z => Ok (Some z)
  | None => Throw (Error ("not a number: " ++ s))
  end.

(** ** A class with a pointer to itself *)

(** A class [Node] with one member, a pointer [next] to a [Node], which
    its constructor sets to null: the store maps the address of each
    [Node] object to that member, [None] being the null pointer. *)
Inductive sample_any : Type :=
| holds_nothing
| holds_int (n : Z)
| holds_pointer (p : option nat).

Definition sample_property (mt : unit) (name : string) : result unit :=
  if String.eqb name "next" then Ok tt
  else Throw (Error ("Property '" ++ name ++ "' not declared")).

Definition sample_get (prop : unit) (instance : nat) (w : gmap nat (option nat))
  : result sample_any :=
  match w !! instance with
  | Some p => Ok (holds_pointer p)
  | None => Undefined
  end.

Definition sample_set (prop : unit) (instance : nat) (v : sample_any)
    (w : gmap nat (option nat)) : result (gmap nat (option nat)) :=
  match v with
  | holds_pointer p => Ok (<[instance := p]> w)
  | _ => Throw bad_any_cast
  end.

(** The value of the pointer property is read as the token [NULL] only;
    reading a pointed-to object belongs to the pointer metatype, which is
    not among the sources. *)
Definition sample_read (prop : unit) (fuel : nat) (value : sample_any)
    (rd : JSONReader.t) (w : gmap nat (option nat))
  : result (sample_any * JSONReader.t * gmap nat (option nat)) :=
  '(tok, rd) ← JSONReader.getToken fuel rd;
  if String.eqb tok "NULL" then Ok (holds_pointer None, rd, w) else Undefined.

(** A new [Node] at an address not in use. *)
Definition sample_create (name : string) (w : gmap nat (option nat))
  : result (nat * gmap nat (option nat)) :=
  let a := fresh (dom w) in Ok (a, <[a := None]> w).

#[global] Instance sample_layer
  : JSONReader.MetaLayer sample_any nat (gmap nat (option nat)) := {|
  JSONReader.any_empty := holds_nothing;
  JSONReader.any_of_int := holds_int;
  JSONReader.any_of_instance := fun a => holds_pointer (Some a);
  JSONReader.any_is_empty := fun v => if v is holds_nothing then true else false;
  JSONReader.MetatypeRef := unit;
  JSONReader.PropertyRef := unit;
  JSONReader.property := sample_property;
  JSONReader.prop_get := sample_get;
  JSONReader.prop_set := sample_set;
  JSONReader.prop_isWritable := fun _ => true;
  JSONReader.prop_metatype_isCollection := fun _ => false;
  JSONReader.prop_metatype_read := sample_read;
  JSONReader.create_by_name := sample_create
|}.

Definition Node_metatype : Metatype :=
  mkMetatype (Tclass "Node") (CustomMetaclass (Tclass "Node") false) [] None.

(** The body the writer emits for an instance it has already written under
    the id 0. *)
Definition reference_body : string :=
  JSONWriter.m_stream
    (JSONWriter.objectEnd Node_metatype
       (JSONWriter.writeObjectRef "0"
          (JSONWriter.objectBegin gxx_typeid_name Node_metatype
             (JSONWriter.create false false)))).

(** The object at address 0 has been rebuilt under the id 0; its pointer
    member, which referred to the object itself when the graph was
    written, is still null. *)
Definition world_with_object_0 : gmap nat (option nat) := {[ 0%nat := None ]}.

(** ** Registries *)

(** The registry the constructor builds under the GNU names, with no
    property object in the program yet. *)
Definition sample_registry : Reflector.t :=
  match Reflector.create gxx_typeid_name gxx_demangle ∅ with
  | Ok s => s
  | _ => Reflector.mk ∅ ∅ ∅ [] ∅
  end.

(** Two properties of value type [Sample] and [Sample*], declared before
    [Sample] is. *)
Definition registry_with_pending : Reflector.t :=
  Reflector.addPendingProperty "P6Sample" 1%nat
    (Reflector.addPendingProperty "6Sample" 0%nat sample_registry).

(** ** A counter with a setter and a data member *)

(** The setter adds to the counter; the data member is the counter
    itself. *)
Definition counter_add (c v : Z) : Z := c + v.

Definition counter_member : @TypedProperty.member Z Z :=
  TypedProperty.mk_member (fun c => c) (fun _ v => v).

(** A property of value type [int], declared before the registry is
    rebuilt. *)
Definition registry_with_pending_int : Reflector.t :=
  Reflector.addPendingProperty "i" 2%nat sample_registry.

(* ===================================================================== *)
(** * Facts about strings *)
(* ===================================================================== *)

Lemma string_app_assoc (a b c : string) : (a ++ b) ++ c = a ++ (b ++ c).
Proof.
  induction a as [|x a IH]; [reflexivity|].
  change (String x ((a ++ b) ++ c) = String x (a ++ (b ++ c))).
  by rewrite IH.
Qed.

Lemma string_app_nil_r (a : string) : a ++ "" = a.
Proof.
  induction a as [|x a IH]; [reflexivity|].
  change (String x (a ++ "") = String x a).
  by rewrite IH.
Qed.

Lemma string_length_app (a b : string) :
  String.length (a ++ b) = (String.length a + String.length b)%nat.
Proof.
  induction a as [|x a IH]; [reflexivity|].
  change (S (String.length (a ++ b)) = S (String.length a + String.length b)).
  by rewrite IH.
Qed.

(* ===================================================================== *)
(** * Escaping round trip *)
(* ===================================================================== *)

Section EscapeProofs.

Import MetaString JSONReader.

(** One escaped character in front of any text is undone on its own. *)
Lemma removeEscapeSeq_escape_char (c : ascii) (rest : string) :
  removeEscapeSeq (escape_char c ++ rest) = String c <$> removeEscapeSeq rest.
Proof.
  destruct c as [[] [] [] [] [] [] [] []]; reflexivity.
Qed.

(** C4. For every string, the unescaper applied to the escaped text
    returns the string itself, character for character: the double
    quote, the backslash, the five named escapes and the [\u00XX] form for
    the other control characters and the non-ASCII ones are all undone. *)
Theorem removeEscapeSeq_addEscapeSeq (s : string) :
  removeEscapeSeq (addEscapeSeq s) = Ok s.
Proof.
  induction s as [|c s IH]; [reflexivity|].
  cbn [addEscapeSeq].
  rewrite removeEscapeSeq_escape_char, IH.
  reflexivity.
Qed.

Example addEscapeSeq_sample :
  addEscapeSeq escaping_sample
  = String backslash (String dquote (String backslash (String backslash
      (String backslash ("n" ++ String backslash "u00e9z"))))).
Proof. reflexivity. Qed.

Example removeEscapeSeq_sample :
  removeEscapeSeq (addEscapeSeq escaping_sample) = Ok escaping_sample.
Proof. reflexivity. Qed.

(** The unescaper on text the escaper never writes. *)
Example removeEscapeSeq_dangling_backslash :
  removeEscapeSeq (String backslash "") = Undefined.
Proof. reflexivity. Qed.

Example removeEscapeSeq_short_u :
  removeEscapeSeq (String backslash "u00e") = Undefined.
Proof. reflexivity. Qed.

Example removeEscapeSeq_wide_u :
  removeEscapeSeq (String backslash "u20ac") = Ok (String (char_of 172) "").
Proof. reflexivity. Qed.

Example removeEscapeSeq_no_hex_u :
  removeEscapeSeq (String backslash "uzzzz") = Ok (String (char_of 0) "").
Proof. reflexivity. Qed.

End EscapeProofs.

(** ** Through the streams *)

Section StringStreamProofs.

Import MetaString JSONReader.

(** The three shapes of an escaped character: the character itself, a
    backslash and one more character, or the six characters of the [\u]
    form, none of which ends a quoted string. *)
Lemma escape_char_shape (c : ascii) :
  (escape_char c = String c ""
   /\ Ascii.eqb c dquote = false /\ Ascii.eqb c backslash = false)
  \/ (exists x, escape_char c = String backslash (String x ""))
  \/ (exists h1 h2,
        escape_char c
        = String backslash (String "u" (String "0" (String "0"
            (String h1 (String h2 "")))))
        /\ Ascii.eqb h1 dquote = false /\ Ascii.eqb h1 backslash = false
        /\ Ascii.eqb h2 dquote = false /\ Ascii.eqb h2 backslash = false).
Proof.
  destruct c as [[] [] [] [] [] [] [] []];
    first [ left; repeat split; reflexivity
          | right; left; eexists; reflexivity
          | right; right; do 2 eexists; repeat split; reflexivity ].
Qed.

Lemma advance_create (x : ascii) (r : string) :
  advance (create (String x r)) = create r.
Proof. reflexivity. Qed.

Lemma getString_loop_plain (fuel : nat) (acc : string) (c : ascii) (rest : string) :
  Ascii.eqb c dquote = false -> Ascii.eqb c backslash = false ->
  getString_loop (S fuel) acc (create (String c rest))
  = getString_loop fuel (acc ++ String c "") (create rest).
Proof.
  intros H1 H2. cbn [getString_loop create advance m_stream currentChar].
  rewrite H1, H2. reflexivity.
Qed.

Lemma getString_loop_escaped (fuel : nat) (acc : string) (x : ascii) (rest : string) :
  getString_loop (S fuel) acc (create (String backslash (String x rest)))
  = getString_loop fuel (acc ++ String backslash (String x "")) (create rest).
Proof.
  cbn [getString_loop create advance m_stream currentChar].
  change (Ascii.eqb backslash dquote) with false.
  change (Ascii.eqb backslash backslash) with true.
  cbn [negb]. rewrite string_app_assoc. reflexivity.
Qed.

Lemma getString_loop_fuel_mono (fuel : nat) (acc : string) (rd : t) (r : string * t) :
  getString_loop fuel acc rd = Ok r -> getString_loop (S fuel) acc rd = Ok r.
Proof.
  revert acc rd. induction fuel as [|fuel IH]; intros acc rd.
  - cbn [getString_loop]. destruct (negb _); [discriminate|done].
  - intros H. cbn [getString_loop] in H |- *.
    destruct (negb (Ascii.eqb (currentChar rd) dquote)); [|done].
    destruct (Ascii.eqb (currentChar rd) backslash); by apply IH.
Qed.

(** The loop of [getString] collects an escaped text up to the quote that
    follows it. *)
Lemma getString_loop_escaped_text (s : string) (fuel : nat) (acc tail : string) :
  (String.length (addEscapeSeq s) <= fuel)%nat ->
  getString_loop fuel acc (create (addEscapeSeq s ++ String dquote tail))
  = Ok (acc ++ addEscapeSeq s, create (String dquote tail)).
Proof.
  revert fuel acc. induction s as [|c s IH]; intros fuel acc Hfuel.
  - cbn [addEscapeSeq]. rewrite string_app_nil_r.
    destruct fuel; reflexivity.
  - cbn [addEscapeSeq] in *. rewrite string_app_assoc.
    rewrite string_length_app in Hfuel.
    destruct (escape_char_shape c) as
      [(E & H1 & H2)|[(x & E)|(h1 & h2 & E & A1 & A2 & B1 & B2)]];
      rewrite E in *; clear E.
    + destruct fuel as [|fuel]; [cbn [String.length] in Hfuel; lia|].
      change (String c "" ++ ?r) with (String c r).
      rewrite getString_loop_plain by done.
      rewrite IH by (cbn [String.length] in Hfuel; lia).
      by rewrite string_app_assoc.
    + destruct fuel as [|fuel]; [cbn [String.length] in Hfuel; lia|].
      change (String backslash (String x "") ++ ?r)
        with (String backslash (String x r)).
      rewrite getString_loop_escaped.
      rewrite IH by (cbn [String.length] in Hfuel; lia).
      by rewrite string_app_assoc.
    + do 5 (destruct fuel as [|fuel]; [cbn [String.length] in Hfuel; lia|]).
      change (String backslash (String "u" (String "0" (String "0"
                (String h1 (String h2 ""))))) ++ ?r)
        with (String backslash (String "u" (String "0" (String "0"
                (String h1 (String h2 r)))))).
      rewrite getString_loop_escaped.
      do 2 (rewrite getString_loop_plain by reflexivity).
      rewrite getString_loop_plain by done.
      rewrite getString_loop_plain by done.
      rewrite IH by (cbn [String.length] in Hfuel; lia).
      by rewrite !string_app_assoc.
Qed.

(** X28. What [writeString] puts on the stream is read back by [readString] as
    the string that was written, and the reader is left on the text that
    followed. *)
Lemma readString_writeString (s tail : string) (fuel : nat) (w : JSONWriter.t) :
  JSONWriter.m_stream w = "" ->
  (String.length (addEscapeSeq s) <= fuel)%nat ->
  readString fuel
    (create (JSONWriter.m_stream (JSONWriter.writeString s w) ++ tail))
  = Ok (s, create tail).
Proof.
  intros Hw Hfuel. unfold readString, getToken, JSONWriter.writeString, JSONWriter.put.
  cbn [JSONWriter.m_stream]. rewrite Hw.
  change ("" ++ ?x) with x.
  rewrite !string_app_assoc.
  change (JSONWriter.quote ++ ?r) with (String dquote r).
  cbn [create advance m_stream currentChar].
  change (JSONWriter.quote ++ tail) with (String dquote tail).
  set (rd0 := {| m_stream := addEscapeSeq s ++ String dquote tail;
                 currentChar := dquote |}).
  change (isSeparator rd0 dquote) with false.
  cbn [mbind result_bind].
  change (Ascii.eqb (currentChar rd0) dquote) with true. cbn match.
  unfold getString.
  change (advance rd0) with (create (addEscapeSeq s ++ String dquote tail)).
  rewrite getString_loop_escaped_text by done.
  cbn [mbind result_bind].
  change ("" ++ addEscapeSeq s) with (addEscapeSeq s).
  assert (Hback : removeEscapeSeq (addEscapeSeq s) = Ok s).
  { clear. induction s as [|c s IH]; [reflexivity|].
    cbn [addEscapeSeq]. by rewrite removeEscapeSeq_escape_char, IH. }
  rewrite Hback. reflexivity.
Qed.

End StringStreamProofs.

(* ===================================================================== *)
(** * The writer's object markers *)
(* ===================================================================== *)

Section WriterProofs.

Import JSONWriter.

Variable typeid_name : ctype -> string.

(** What the two markers append at any nesting level, and the state they
    leave. *)
Lemma objectBegin_objectEnd (mt : Metatype) (w : t) :
  objectEnd mt (objectBegin typeid_name mt w)
  = {| m_stream :=
         ((((m_stream w ++ (typeid_name (typeInfo mt) ++ " {" ++ nl)) ++ nl)
             ++ tabs (Z.to_nat (indentLevel w))) ++ "}");
       need_nl := true;
       col_need_nl := col_need_nl w;
       indentLevel := indentLevel w |}.
Proof.
  unfold objectEnd, objectBegin, indent, put, set_need_nl, set_indentLevel.
  cbn. f_equal; [|lia].
  replace (indentLevel w + 1 - 1) with (indentLevel w) by lia.
  reflexivity.
Qed.

(** C5, as the code has it. On a writer that has just been built, the
    begin marker of a type followed at once by its end marker writes the
    type name, a space, the opening brace, two newlines and the closing
    brace: the begin marker ends with a newline and the end marker
    starts with one. *)
Theorem empty_object_text (mt : Metatype) (need_nl0 col_need_nl0 : bool) :
  m_stream (objectEnd mt (objectBegin typeid_name mt (create need_nl0 col_need_nl0)))
  = typeid_name (typeInfo mt) ++ " {" ++ nl ++ nl ++ "}".
Proof.
  rewrite objectBegin_objectEnd.
  cbn [m_stream create indentLevel Z.to_nat tabs].
  rewrite string_app_nil_r, !string_app_assoc.
  reflexivity.
Qed.

(** The scenario of the specification with one integer property: the
    markers and the property between them give the text with one newline
    on each side of the property line. *)
Lemma one_property_text (mt propMt : Metatype) (numToStr : Z -> string)
    (need_nl0 col_need_nl0 : bool) :
  m_stream
    (objectEnd mt
       (propertyEnd
          (writeInt numToStr 23
             (propertyBegin "count" propMt
                (objectBegin typeid_name mt (create need_nl0 col_need_nl0))))))
  = typeid_name (typeInfo mt) ++ " {" ++ nl ++ tab ++ quote ++ "count" ++ quote
    ++ ": " ++ numToStr 23 ++ nl ++ "}".
Proof.
  set (name := typeid_name (typeInfo mt)). set (num := numToStr 23).
  assert (H1 : objectBegin typeid_name mt (create need_nl0 col_need_nl0)
               = mk ("" ++ name ++ " {" ++ nl) false col_need_nl0 1)
    by reflexivity.
  rewrite H1. clear H1.
  assert (H2 : forall text,
             propertyBegin "count" propMt (mk text false col_need_nl0 1)
             = mk ((text ++ tabs 1) ++ quote ++ "count" ++ quote ++ ": ")
                 true col_need_nl0 1)
    by reflexivity.
  rewrite H2. clear H2.
  assert (H3 : forall text,
             objectEnd mt (propertyEnd (writeInt numToStr 23
                                          (mk text true col_need_nl0 1)))
             = mk ((((text ++ num) ++ nl) ++ tabs 0) ++ "}") true col_need_nl0 0)
    by reflexivity.
  rewrite H3. clear H3.
  cbn [m_stream tabs]. change ("" ++ ?x) with x.
  rewrite !string_app_nil_r, !string_app_assoc. reflexivity.
Qed.

End WriterProofs.

(** C5, refuted as stated. With a naming that gives the class its
    spelling, the text written for the class without properties is not the
    name, a space, the opening brace, one newline and the closing brace. *)
Lemma empty_object_text_single_newline_fails :
  JSONWriter.m_stream
    (JSONWriter.objectEnd empty_class_metatype
       (JSONWriter.objectBegin (fun _ => "TypeName") empty_class_metatype
          (JSONWriter.create false false)))
  <> "TypeName {" ++ JSONWriter.nl ++ "}".
Proof. discriminate. Qed.

(* ===================================================================== *)
(** * Property modes *)
(* ===================================================================== *)

Section PropertyProofs.

Import TypedProperty.

Context {ClassT PropT any : Type}.
Variable any_cast : any -> option PropT.
Variable nameOf_PropT : string.

Lemma set_not_writable (p : @t ClassT PropT) (instance : ClassT) (val : any) :
  isWritable p = false -> set any_cast p instance val = Ok instance.
Proof. unfold set. by intros ->. Qed.

Lemma getter_only_modes (g : ClassT -> PropT) (dataMember0 : option member) :
  let p := getter (Some g) (create nameOf_PropT dataMember0) in
  isReadable p = true /\ isWritable p = false.
Proof. split; reflexivity. Qed.

(** C6. A property whose Writable bit is not set ignores [set]: for every
    object and every value the call returns normally and the object is
    as it was.  A property built by the constructor and given only a
    getter is readable and not writable, so [set] on it is such a call. *)
Theorem set_without_Writable_is_noop :
  (forall (p : @t ClassT PropT) (instance : ClassT) (val : any),
      Z.land (Property._mode (base p)) Property.Writable = 0 ->
      set any_cast p instance val = Ok instance)
  /\ (forall (g : ClassT -> PropT) (dataMember0 : option member),
        let p := getter (Some g) (create nameOf_PropT dataMember0) in
        isReadable p = true /\ isWritable p = false
        /\ forall (instance : ClassT) (val : any),
             set any_cast p instance val = Ok instance).
Proof.
  split.
  - intros p instance val Hbit. apply set_not_writable.
    unfold isWritable, Property.isWritable. by rewrite Hbit.
  - intros g d0 p. repeat split.
Qed.

End PropertyProofs.

Lemma set_without_Writable_is_noop_witness :
  let p := TypedProperty.getter (Some counter_getter)
             (TypedProperty.create "int" None) in
  Z.land (Property._mode (TypedProperty.base p)) Property.Writable = 0
  /\ TypedProperty.set (fun v : Z => Some v) p 23 42 = Ok 23.
Proof.
  split; [reflexivity|].
  apply (proj1 (set_without_Writable_is_noop (fun v : Z => Some v) "int")).
  reflexivity.
Defined.

(* ===================================================================== *)
(** * The collection adapter *)
(* ===================================================================== *)

Section CollectionProofs.

Import Metacollection.

Context {value_type any : Type}.
Variable elem_fromStr : string -> result any.
Variable any_cast : any -> option value_type.
Variable any_empty : any.
Variable parser : string -> list (string * string).

Local Abbreviation decodes_to := (Metacollection.decodes_to elem_fromStr any_cast).

Lemma _fromStr_loop_appends (entries : list (string * string))
    (decoded prior : list value_type) :
  Forall2 decodes_to entries decoded ->
  _fromStr_loop elem_fromStr any_cast entries prior = Ok (prior ++ decoded)%list.
Proof.
  intros H. revert prior.
  induction H as [|it x entries decoded (m & Hm & Hx) _ IH]; intros prior;
    cbn [_fromStr_loop].
  - by rewrite app_nil_r.
  - rewrite Hm. cbn [mbind result_bind]. rewrite Hx, IH.
    by rewrite <- app_assoc.
Qed.

(** C2, as the code has it. When every entry of the parsed text decodes,
    [_fromStr] returns normally and the collection then holds what it
    held before the call followed by the decoded elements in the order
    of the entries: the elements arrive in order, and the earlier
    contents are still there in front of them. *)
Theorem fromStr_appends_to_prior_contents (prior : list value_type)
    (str : string) (decoded : list value_type) :
  Forall2 decodes_to (parser str) decoded ->
  _fromStr elem_fromStr any_cast any_empty parser prior str
  = Ok (any_empty, (prior ++ decoded)%list).
Proof.
  intros H. unfold _fromStr.
  by rewrite (_fromStr_loop_appends _ _ _ H).
Qed.

End CollectionProofs.

Lemma fromStr_appends_to_prior_contents_witness :
  Metacollection._fromStr int_fromStr id None sample_parser [9] "1,2"
  = Ok (None, [9; 1; 2]).
Proof.
  apply (fromStr_appends_to_prior_contents int_fromStr id None sample_parser
           [9] "1,2" [1; 2]).
  repeat constructor; eexists; split; reflexivity.
Defined.

(** The text [_toStr] writes for the collection lists the elements in
    iteration order. *)
Example toStr_in_order :
  Metacollection._toStr (fun (x : Z) _ => pretty x) id [1; 2; 3] true
  = "[" ++ Metacollection.nl ++ "1," ++ Metacollection.nl ++ "2,"
    ++ Metacollection.nl ++ "3" ++ Metacollection.nl ++ "]".
Proof. vm_compute. reflexivity. Qed.

(* ===================================================================== *)
(** * The reader's scans *)
(* ===================================================================== *)

Section ScanProofs.

Import JSONReader.

Variable c : ascii.
Hypothesis c_not_EOF : Ascii.eqb EOF_char c = false.

Lemma lacks_current (rd : t) : lacks c rd = true -> Ascii.eqb (currentChar rd) c = false.
Proof.
  unfold lacks. intros H. apply andb_true_iff in H as [H _].
  by apply negb_true_iff in H.
Qed.

Lemma lacks_advance (rd : t) : lacks c rd = true -> lacks c (advance rd) = true.
Proof.
  unfold lacks, advance. intros H. apply andb_true_iff in H as [_ H].
  apply negb_true_iff in H.
  destruct (m_stream rd) as [|x r]; cbn [m_stream currentChar contains] in *.
  - by rewrite c_not_EOF.
  - apply orb_false_iff in H as [-> ->]. reflexivity.
Qed.

Lemma lacks_skipSpaces (fuel : nat) (rd rd' : t) :
  lacks c rd = true -> skipSpaces fuel rd = Ok rd' -> lacks c rd' = true.
Proof.
  revert rd. induction fuel as [|fuel IH]; intros rd Hl; cbn [skipSpaces].
  - destruct (isSeparator rd (currentChar rd)); [discriminate|]. congruence.
  - destruct (isSeparator rd (currentChar rd)); [|congruence].
    intros Hrun. eapply IH; [|exact Hrun]. by apply lacks_advance.
Qed.

(** The outcome of [skipSpaces] is a reader or the end of the fuel. *)
Lemma skipSpaces_outcome (fuel : nat) (rd : t) :
  skipSpaces fuel rd = OutOfFuel \/ exists rd', skipSpaces fuel rd = Ok rd'.
Proof.
  revert rd. induction fuel as [|fuel IH]; intros rd; cbn [skipSpaces];
    destruct (isSeparator rd (currentChar rd)); eauto.
Qed.

End ScanProofs.

Section DivergenceProofs.

Import JSONReader.

Lemma objectBegin_loop_diverges (fuel : nat) (objTypeName : string) (rd : t) :
  lacks "{" rd = true -> objectBegin_loop fuel objTypeName rd = OutOfFuel.
Proof.
  revert objTypeName rd.
  induction fuel as [|fuel IH]; intros acc rd Hl; cbn [objectBegin_loop];
    rewrite (lacks_current _ _ Hl); cbn [negb]; [reflexivity|].
  apply IH. by apply lacks_advance.
Qed.

Lemma objectEnd_loop_diverges (fuel : nat) (rd : t) :
  lacks "}" rd = true -> objectEnd_loop fuel rd = OutOfFuel.
Proof.
  revert rd. induction fuel as [|fuel IH]; intros rd Hl;
    cbn [objectEnd_loop]; unfold endObject;
    match goal with
    | |- context [skipSpaces ?f rd] =>
        destruct (skipSpaces_outcome f rd) as [E|[rd' E]]
    end;
    rewrite E; cbn [mbind result_bind]; try reflexivity;
    rewrite (lacks_current "}" rd') by (eapply lacks_skipSpaces; eauto);
    cbn [negb]; try reflexivity.
  apply IH. apply lacks_advance; [reflexivity|].
  eapply lacks_skipSpaces; eauto.
Qed.

Lemma collectionEnd_loop_diverges (fuel : nat) (rd : t) :
  lacks "]" rd = true -> collectionEnd_loop fuel rd = OutOfFuel.
Proof.
  revert rd. induction fuel as [|fuel IH]; intros rd Hl;
    cbn [collectionEnd_loop]; unfold endCollection;
    match goal with
    | |- context [skipSpaces ?f rd] =>
        destruct (skipSpaces_outcome f rd) as [E|[rd' E]]
    end;
    rewrite E; cbn [mbind result_bind]; try reflexivity;
    rewrite (lacks_current "]" rd') by (eapply lacks_skipSpaces; eauto);
    cbn [negb]; try reflexivity.
  apply IH. apply lacks_advance; [reflexivity|].
  eapply lacks_skipSpaces; eauto.
Qed.

(** C9. On a reader whose lookahead and remaining input hold no opening
    brace, [objectBegin] is still scanning however much fuel it is given;
    the same holds for [objectEnd] when there is no closing brace and for
    [collectionEnd] when there is no closing bracket.  The end of the
    stream does not stop them: the character read there is none of the
    delimiters. *)
Theorem unterminated_scans_never_return (rd : t) :
  (lacks "{" rd = true -> forall fuel, objectBegin fuel rd = OutOfFuel)
  /\ (lacks "}" rd = true -> forall fuel, objectEnd fuel rd = OutOfFuel)
  /\ (lacks "]" rd = true -> forall fuel, collectionEnd fuel rd = OutOfFuel).
Proof.
  split; [|split]; intros Hl fuel.
  - unfold objectBegin.
    destruct (skipSpaces_outcome fuel rd) as [E|[rd' E]]; rewrite E;
      cbn [mbind result_bind]; [reflexivity|].
    rewrite objectBegin_loop_diverges; [reflexivity|].
    eapply lacks_skipSpaces; eauto.
  - unfold objectEnd. by rewrite objectEnd_loop_diverges.
  - unfold collectionEnd. by rewrite collectionEnd_loop_diverges.
Qed.

(** With the delimiters in place the same scans return. *)
Example objectBegin_returns :
  objectBegin 10 (create "Point { }")
  = Ok ("Point", {| m_stream := "}"; currentChar := " " |}).
Proof. reflexivity. Qed.

Example objectEnd_returns :
  objectEnd 10 (create "  } ,")
  = Ok {| m_stream := ","; currentChar := " " |}.
Proof. reflexivity. Qed.

Example collectionEnd_returns :
  collectionEnd 10 (create " ]")
  = Ok {| m_stream := ""; currentChar := EOF_char |}.
Proof. reflexivity. Qed.

End DivergenceProofs.

Lemma unterminated_scans_never_return_witness :
  (forall fuel, JSONReader.objectBegin fuel (JSONReader.create "Point ") = OutOfFuel)
  /\ (forall fuel, JSONReader.objectEnd fuel (JSONReader.create "Point { ") = OutOfFuel)
  /\ (forall fuel, JSONReader.collectionEnd fuel (JSONReader.create "[ 1, 2") = OutOfFuel).
Proof.
  split; [|split].
  - apply (proj1 (unterminated_scans_never_return (JSONReader.create "Point "))).
    reflexivity.
  - apply (proj1 (proj2 (unterminated_scans_never_return
                           (JSONReader.create "Point { ")))).
    reflexivity.
  - apply (proj2 (proj2 (unterminated_scans_never_return
                           (JSONReader.create "[ 1, 2")))).
    reflexivity.
Defined.

(* ===================================================================== *)
(** * Identity and reference markers on the read side *)
(* ===================================================================== *)

Section MarkerProofs.

Import JSONReader.

Context {any Instance World : Type} `{ML : !MetaLayer any Instance World}.

(** A [$id] marker is read and dropped: nothing records which instance
    carries the id. *)
Lemma readProperty_id (fuel : nat) (mt : MetatypeRef) (instance : Instance)
    (rd rd1 rd2 rd3 : t) (ref : string) (w : World) :
  getToken fuel rd = Ok ("$id", rd1) ->
  skipColon fuel rd1 = Ok rd2 ->
  getToken fuel rd2 = Ok (ref, rd3) ->
  readProperty fuel mt instance rd w = Ok (any_empty, rd3, w).
Proof.
  intros H1 H2 H3. unfold readProperty.
  rewrite H1. cbn [mbind result_bind]. rewrite H2. cbn [mbind result_bind].
  cbn [String.eqb Ascii.eqb Bool.eqb]. rewrite H3. reflexivity.
Qed.

(** C1, as the code has it. When [readProperty] meets a [$ref] marker it
    reads the id that follows and returns an [any] holding the integer 0:
    the store of application objects is exactly as it was, whatever the
    id, the instance and the metatype are.  No property of the instance
    is set, and the id is not looked up. *)
Theorem readProperty_ref_changes_nothing (fuel : nat) (mt : MetatypeRef)
    (instance : Instance) (rd rd1 rd2 rd3 : t) (ref : string) (w : World) :
  getToken fuel rd = Ok ("$ref", rd1) ->
  skipColon fuel rd1 = Ok rd2 ->
  getToken fuel rd2 = Ok (ref, rd3) ->
  readProperty fuel mt instance rd w = Ok (any_of_int 0, rd3, w).
Proof.
  intros H1 H2 H3. unfold readProperty.
  rewrite H1. cbn [mbind result_bind]. rewrite H2. cbn [mbind result_bind].
  cbn [String.eqb Ascii.eqb Bool.eqb]. rewrite H3. reflexivity.
Qed.

End MarkerProofs.

Lemma readProperty_ref_changes_nothing_witness :
  JSONReader.readProperty (ML := sample_layer) 10 tt 0%nat
    (JSONReader.create
       (JSONWriter.quote ++ "$ref" ++ JSONWriter.quote ++ ": "
        ++ JSONWriter.quote ++ "0" ++ JSONWriter.quote ++ "}"))
    world_with_object_0
  = Ok (holds_int 0, {| JSONReader.m_stream := ""; JSONReader.currentChar := "}" |},
        world_with_object_0).
Proof.
  apply (readProperty_ref_changes_nothing (ML := sample_layer) 10 tt 0%nat
           (JSONReader.create
              (JSONWriter.quote ++ "$ref" ++ JSONWriter.quote ++ ": "
               ++ JSONWriter.quote ++ "0" ++ JSONWriter.quote ++ "}"))
           {| JSONReader.m_stream :=
                " " ++ JSONWriter.quote ++ "0" ++ JSONWriter.quote ++ "}";
              JSONReader.currentChar := ":" |}
           {| JSONReader.m_stream :=
                JSONWriter.quote ++ "0" ++ JSONWriter.quote ++ "}";
              JSONReader.currentChar := " " |}
           {| JSONReader.m_stream := ""; JSONReader.currentChar := "}" |}
           "0" world_with_object_0);
    vm_compute; reflexivity.
Defined.

(** [readObject] on the reference body, with the null instance it gets
    when the pointer being read is null: a second object is created, at
    address 1, and the object at address 0 keeps its null pointer. *)
Example readObject_reference_body :
  reference_body
  = "4Node {" ++ JSONWriter.nl ++ JSONWriter.tab ++ JSONWriter.quote ++ "$ref"
    ++ JSONWriter.quote ++ ": " ++ JSONWriter.quote ++ "0" ++ JSONWriter.quote
    ++ JSONWriter.nl ++ "}"
  /\ JSONReader.readObject (ML := sample_layer) 30 tt None
       (JSONReader.create reference_body)
       world_with_object_0
     = Ok (holds_pointer (Some 1%nat),
           {| JSONReader.m_stream := ""; JSONReader.currentChar := EOF_char |},
           {[ 0%nat := None; 1%nat := None ]}).
Proof. split; vm_compute; reflexivity. Qed.

(* ===================================================================== *)
(** * The registry *)
(* ===================================================================== *)

Section RegistryProofs.

Import Reflector.

Variable typeid_name : ctype -> string.
Variable cxa_demangle : string -> option string.

Local Abbreviation metatype := (Reflector.metatype cxa_demangle).
Local Abbreviation internal_declare := (Reflector.internal_declare typeid_name cxa_demangle).
Local Abbreviation updatePendingProperties := (Reflector.updatePendingProperties typeid_name).
Local Abbreviation declare := (Reflector.declare typeid_name cxa_demangle).
Local Abbreviation declareAbstract := (Reflector.declareAbstract typeid_name cxa_demangle).
Local Abbreviation declareCollection := (Reflector.declareCollection typeid_name cxa_demangle).
Local Abbreviation declare_default := (Reflector.declare_default typeid_name cxa_demangle).
Local Abbreviation register_defaults := (Reflector.register_defaults typeid_name cxa_demangle).
Local Abbreviation clear := (Reflector.clear typeid_name cxa_demangle).
Local Abbreviation create := (Reflector.create typeid_name cxa_demangle).
Local Abbreviation declared_state := (Reflector.declared_state typeid_name).
Local Abbreviation declarations := (Reflector.declarations typeid_name cxa_demangle).
Local Abbreviation registry_keys := (Reflector.registry_keys typeid_name).
Local Abbreviation registered := (Reflector.registered typeid_name cxa_demangle).
Local Abbreviation declare_defaults := (Reflector.declare_defaults typeid_name cxa_demangle).
Local Abbreviation defaults_registered := (Reflector.defaults_registered typeid_name cxa_demangle).
Local Abbreviation reachable := (Reflector.reachable typeid_name cxa_demangle).
Local Abbreviation reached_keeping := (Reflector.reached_keeping typeid_name cxa_demangle).

(** ** Lookup *)

Lemma count_true (name : string) (s : t) :
  count name s = true <-> is_Some (_meta_types s !! name).
Proof. unfold count. by rewrite bool_decide_eq_true. Qed.

Lemma count_false (name : string) (s : t) :
  count name s = false <-> _meta_types s !! name = None.
Proof.
  unfold count. rewrite bool_decide_eq_false, eq_None_not_Some. done.
Qed.

(** ** Binding pending properties *)

(** The metatype a property holds after a run of [setMetatype] calls. *)
Lemma setMetatype_foldl_lookup (ret : list paddr) (mc : addr) (s : t) (prop : paddr) :
  property_metatype (foldl (fun s prop => setMetatype prop mc s) s ret) !! prop
  = if bool_decide (prop ∈ ret) then Some mc else property_metatype s !! prop.
Proof.
  revert s. induction ret as [|p ret IH]; intros s; cbn [foldl].
  - reflexivity.
  - rewrite IH. cbn [setMetatype set_property_metatype property_metatype].
    destruct (decide (prop = p)) as [->|Hne].
    + rewrite lookup_insert_eq.
      rewrite (bool_decide_eq_true_2 (p ∈ p :: ret)) by set_solver.
      by case_bool_decide.
    + rewrite lookup_insert_ne by done.
      repeat case_bool_decide; set_solver.
Qed.

Lemma setMetatype_foldl_frame (ret : list paddr) (mc : addr) (s : t) :
  let s' := foldl (fun s prop => setMetatype prop mc s) s ret in
  heap s' = heap s /\ _meta_types s' = _meta_types s
  /\ m_prefixDecorators s' = m_prefixDecorators s
  /\ m_pendingProperties s' = m_pendingProperties s.
Proof.
  revert s. induction ret as [|p ret IH]; intros s; cbn [foldl]; [done|].
  destruct (IH (setMetatype p mc s)) as (-> & -> & -> & ->). done.
Qed.

Lemma updatePendingProperties_spec (mc : addr) (m : Metatype) (s : t) :
  heap s !! mc = Some m ->
  exists s',
    updatePendingProperties mc s = Ok s'
    /\ heap s' = heap s
    /\ _meta_types s' = _meta_types s
    /\ m_prefixDecorators s' = m_prefixDecorators s
    /\ m_pendingProperties s'
       = delete (typeid_name (typeInfo m)) (m_pendingProperties s)
    /\ forall prop,
         property_metatype s' !! prop
         = if bool_decide
                (prop ∈ default [] (m_pendingProperties s
                                      !! typeid_name (typeInfo m)))
           then Some mc else property_metatype s !! prop.
Proof.
  intros Hm. unfold Reflector.updatePendingProperties. rewrite Hm.
  eexists. split; [reflexivity|].
  pose proof (setMetatype_foldl_frame
    (default [] (m_pendingProperties s !! typeid_name (typeInfo m))) mc s)
    as (Hh & Ht & Hd & Hp).
  cbn [set_pendingProperties heap _meta_types m_prefixDecorators
       m_pendingProperties property_metatype].
  rewrite Hh, Ht, Hd, Hp. repeat split.
  intros prop. apply setMetatype_foldl_lookup.
Qed.

(** ** Declaring a type that is not registered *)

Lemma new_then_internal_declare (T : ctype) (M : Metatype) (s : t) :
  _meta_types s !! typeid_name T = None ->
  exists (ptr : addr) (s' : t),
    internal_declare T (new_metatype M s).1 (new_metatype M s).2 = Ok s'
    /\ declared_state T M s s' (new_metatype M s).1 ptr.
Proof.
  intros Hfree.
  set (mc := fresh (dom (heap s))).
  assert (Hmc : heap s !! mc = None).
  { apply not_elem_of_dom. apply is_fresh. }
  set (h0 := <[mc := M]> (heap s)).
  set (ptr := fresh (dom h0)).
  assert (Hptr0 : h0 !! ptr = None).
  { apply not_elem_of_dom. apply is_fresh. }
  assert (Hne : mc <> ptr).
  { intros E. rewrite <- E in Hptr0. unfold h0 in Hptr0.
    by rewrite lookup_insert_eq in Hptr0. }
  assert (Hptr : heap s !! ptr = None).
  { unfold h0 in Hptr0. by rewrite lookup_insert_ne in Hptr0. }
  exists ptr.
  unfold Reflector.internal_declare, new_metatype.
  cbn [fst snd]. fold mc. 
  replace (count (typeid_name T) (set_heap (<[mc:=M]> (heap s)) s)) with false
    by (symmetry; by apply count_false).
  cbn [negb mbind result_bind set_heap heap]. fold h0. fold ptr.
  unfold set_pointerMetatype.
  cbn [set_meta_types set_heap heap _meta_types property_metatype
       m_prefixDecorators m_pendingProperties].
  assert (Hne' : ptr <> mc) by done.
  rewrite lookup_insert_ne by exact Hne'.
  assert (Hh0 : h0 !! mc = Some M) by apply lookup_insert_eq.
  rewrite Hh0.
  cbn [mbind result_bind set_heap].
  match goal with |- context [updatePendingProperties mc ?st] =>
    destruct (updatePendingProperties_spec mc
      (mkMetatype (typeInfo M) (dynamic_class M) (annotations M) (Some ptr)) st)
      as (s1 & -> & Hh1 & Ht1 & Hd1 & Hp1 & Hpm1)
  end.
  { cbn [heap set_heap set_meta_types]. apply lookup_insert_eq. }
  cbn [mbind result_bind].
  destruct (updatePendingProperties_spec ptr
      (mkMetatype (Tptr T) (MetaPointerType mc) [] None) s1)
      as (s2 & -> & Hh2 & Ht2 & Hd2 & Hp2 & Hpm2).
  { rewrite Hh1. cbn [heap set_heap set_meta_types].
    rewrite lookup_insert_ne by done. apply lookup_insert_eq. }
  exists s2. split; [reflexivity|].
  cbn [typeInfo heap _meta_types m_prefixDecorators m_pendingProperties
       property_metatype set_heap set_meta_types] in *.
  unfold Reflector.declared_state. repeat split; try done.
  - by rewrite Hh2, Hh1.
  - by rewrite Ht2, Ht1.
  - by rewrite Hd2, Hd1.
  - by rewrite Hp2, Hp1.
  - intros prop. rewrite Hpm2, Hp1, Hpm1. reflexivity.
Qed.

(** The three declare functions do the same when the name is free; [k]
    is the class of the metatype object they build. *)
Lemma fresh_declaration (k : metaclass) (T : ctype) (ann : Annotations) (s : t) :
  _meta_types s !! typeid_name T = None ->
  exists (mc ptr : addr) (s' : t),
    (let '(mc0, s0) := new_metatype (mkMetatype T k ann None) s in
     s1 ← internal_declare T mc0 s0; Ok (mc0, s1)) = Ok (mc, s')
    /\ declared_state T (mkMetatype T k ann None) s s' mc ptr.
Proof.
  intros Hfree.
  destruct (new_then_internal_declare T (mkMetatype T k ann None) s Hfree)
    as (ptr & s' & Hrun & Hst).
  destruct (new_metatype (mkMetatype T k ann None) s) as [mc0 s0] eqn:Hnew.
  cbn [fst snd] in Hrun, Hst.
  exists mc0, ptr, s'. rewrite Hrun. done.
Qed.

Lemma declared_state_lookup_type (T : ctype) (M : Metatype) (s s' : t)
    (mc ptr : addr) :
  typeid_name T <> typeid_name (Tptr T) ->
  declared_state T M s s' mc ptr ->
  _meta_types s' !! typeid_name T = Some mc
  /\ _meta_types s' !! typeid_name (Tptr T) = Some ptr
  /\ heap s' !! mc
     = Some (mkMetatype (typeInfo M) (dynamic_class M) (annotations M) (Some ptr))
  /\ heap s' !! ptr = Some (mkMetatype (Tptr T) (MetaPointerType mc) [] None).
Proof.
  intros Hne (Hmc & Hptr & Hap & Hh & Ht & _).
  rewrite Ht, Hh. repeat split.
  - rewrite lookup_insert_ne by done. apply lookup_insert_eq.
  - apply lookup_insert_eq.
  - apply lookup_insert_eq.
  - rewrite lookup_insert_ne by done. apply lookup_insert_eq.
Qed.

(** A declaration leaves alone the names and the objects it does not
    create. *)
Lemma declared_state_frame (T : ctype) (M : Metatype) (s s' : t)
    (mc ptr : addr) :
  declared_state T M s s' mc ptr ->
  (forall key, key <> typeid_name T -> key <> typeid_name (Tptr T) ->
               _meta_types s' !! key = _meta_types s !! key)
  /\ (forall a m, heap s !! a = Some m -> heap s' !! a = Some m).
Proof.
  intros (Hmc & Hptr & Hap & Hh & Ht & _). split.
  - intros key H1 H2. rewrite Ht.
    rewrite lookup_insert_ne by done. by rewrite lookup_insert_ne.
  - intros a m Ha. rewrite Hh.
    rewrite lookup_insert_ne by congruence.
    rewrite lookup_insert_ne by congruence.
    by rewrite lookup_insert_ne by congruence.
Qed.

(** ** Declaring twice *)

Lemma declare_registered (C : ctype) (ann : Annotations) (s : t) (a : addr) (m : Metatype) :
  _meta_types s !! typeid_name C = Some a ->
  heap s !! a = Some m ->
  is_CustomMetaclass C (dynamic_class m) = true ->
  declare C ann s = Ok (a, s).
Proof.
  intros Hreg Hobj Hcls. unfold Reflector.declare.
  rewrite (proj2 (count_true _ _)) by (by rewrite Hreg).
  unfold metatype_of, Reflector.metatype. rewrite Hreg.
  cbn [mbind result_bind]. unfold dynamic_cast. rewrite Hobj, Hcls.
  reflexivity.
Qed.

Lemma declare_free (C : ctype) (ann : Annotations) (s : t) :
  _meta_types s !! typeid_name C = None ->
  exists (mc ptr : addr) (s' : t),
    declare C ann s = Ok (mc, s')
    /\ declared_state C (mkMetatype C (CustomMetaclass C false) ann None) s s' mc ptr.
Proof.
  intros Hfree. unfold Reflector.declare.
  rewrite (proj2 (count_false _ _)) by done.
  by apply fresh_declaration.
Qed.

(** ** Lookup by name *)

(** C7. Looking up a name that is not registered throws [Error] with
    the message that the metatype of that name, demangled, is not
    declared; looking up a registered name returns the metatype
    registered under it. *)
Theorem metatype_lookup (name : string) (s : t) :
  (_meta_types s !! name = None ->
   metatype name s
   = Throw (Error ("Metatype '" ++ demangle cxa_demangle name ++ "' not declared")))
  /\ (forall a, _meta_types s !! name = Some a -> metatype name s = Ok a).
Proof.
  unfold Reflector.metatype. split.
  - by intros ->.
  - by intros a ->.
Qed.

(** ** Pending properties *)

Lemma addPendingProperty_queued (tname : string) (prop : paddr) (s : t) :
  pending_for tname (addPendingProperty tname prop s)
  = (pending_for tname s ++ [prop])%list.
Proof.
  unfold pending_for, addPendingProperty.
  cbn [set_pendingProperties m_pendingProperties].
  by rewrite lookup_insert_eq.
Qed.

Lemma addPendingProperty_frame (tname : string) (prop : paddr) (s : t) :
  let s' := addPendingProperty tname prop s in
  heap s' = heap s /\ _meta_types s' = _meta_types s
  /\ property_metatype s' = property_metatype s
  /\ forall other, other <> tname -> pending_for other s' = pending_for other s.
Proof.
  repeat split. intros other Hne. unfold pending_for, addPendingProperty.
  cbn [set_pendingProperties m_pendingProperties].
  by rewrite lookup_insert_ne.
Qed.

Lemma declaration_free (d : ctype -> Annotations -> t -> result (addr * t))
    (T : ctype) (ann : Annotations) (s : t) :
  d ∈ declarations ->
  _meta_types s !! typeid_name T = None ->
  exists (k : metaclass) (mc ptr : addr) (s' : t),
    d T ann s = Ok (mc, s')
    /\ declared_state T (mkMetatype T k ann None) s s' mc ptr.
Proof.
  intros Hd Hfree. unfold Reflector.declarations in Hd.
  apply elem_of_cons in Hd as [->|Hd];
    [|apply elem_of_cons in Hd as [->|Hd];
      [|apply elem_of_cons in Hd as [->|Hd]; [|by apply elem_of_nil in Hd]]].
  - exists (CustomMetaclass T false). unfold Reflector.declare.
    rewrite (proj2 (count_false _ _)) by done. by apply fresh_declaration.
  - exists (CustomMetaclass T true). unfold Reflector.declareAbstract.
    rewrite (proj2 (count_false _ _)) by done. by apply fresh_declaration.
  - exists (Metacollection_ T). unfold Reflector.declareCollection.
    rewrite (proj2 (count_false _ _)) by done. by apply fresh_declaration.
Qed.

(** C8. A property handed to [addPendingProperty] is queued under the
    given name.  When a type whose name is not registered is declared,
    by any of the declare functions, the declaration succeeds with a new
    descriptor and a new pointer-metatype paired with it; every property
    queued under the type's name holds the new descriptor afterwards
    (the new pointer-metatype, should the same property be queued under
    the pointer's name too, which is bound last), every property queued
    under the name of the pointer type holds the new pointer-metatype,
    and the queues of both names are gone. *)
Theorem pending_property_resolved
    (d : ctype -> Annotations -> t -> result (addr * t))
    (T : ctype) (ann : Annotations) (s : t) :
  d ∈ declarations ->
  typeid_name T <> typeid_name (Tptr T) ->
  _meta_types s !! typeid_name T = None ->
  (forall tname prop s0, prop ∈ pending_for tname (addPendingProperty tname prop s0))
  /\ exists (mc ptr : addr) (m : Metatype) (s' : t),
       d T ann s = Ok (mc, s')
       /\ heap s !! mc = None /\ heap s !! ptr = None
       /\ heap s' !! mc = Some m /\ typeInfo m = T
       /\ pointerMetatype m = Some ptr
       /\ _meta_types s' !! typeid_name T = Some mc
       /\ _meta_types s' !! typeid_name (Tptr T) = Some ptr
       /\ (forall prop,
             prop ∈ pending_for (typeid_name T) s ->
             property_metatype s' !! prop
             = Some (if bool_decide (prop ∈ pending_for (typeid_name (Tptr T)) s)
                     then ptr else mc))
       /\ (forall prop,
             prop ∈ pending_for (typeid_name (Tptr T)) s ->
             property_metatype s' !! prop = Some ptr)
       /\ m_pendingProperties s' !! typeid_name T = None
       /\ m_pendingProperties s' !! typeid_name (Tptr T) = None.
Proof.
  intros Hd Hne Hfree. split.
  { intros tname prop s0. rewrite addPendingProperty_queued. set_solver. }
  destruct (declaration_free d T ann s Hd Hfree) as (k & mc & ptr & s' & Hrun & Hst).
  destruct (declared_state_lookup_type _ _ _ _ _ _ Hne Hst)
    as (Hl1 & Hl2 & Hobj & _).
  destruct Hst as (Hmc & Hptr & _ & _ & _ & _ & Hpend & Hpm).
  cbn [typeInfo] in Hpend, Hpm.
  exists mc, ptr, (mkMetatype T k ann (Some ptr)), s'.
  split; [exact Hrun|]. do 2 (split; [done|]).
  split; [exact Hobj|]. do 2 (split; [reflexivity|]).
  do 2 (split; [done|]).
  assert (Hdel : delete (typeid_name T) (m_pendingProperties s)
                   !! typeid_name (Tptr T)
                 = m_pendingProperties s !! typeid_name (Tptr T))
    by (by rewrite lookup_delete_ne).
  rewrite Hdel in Hpm. fold (pending_for (typeid_name (Tptr T)) s) in Hpm.
  fold (pending_for (typeid_name T) s) in Hpm.
  repeat split.
  - intros prop Hin. rewrite Hpm.
    rewrite (bool_decide_eq_true_2 (prop ∈ pending_for (typeid_name T) s)) by done.
    by case_bool_decide.
  - intros prop Hin. rewrite Hpm. by rewrite bool_decide_eq_true_2.
  - rewrite Hpend. rewrite lookup_delete_ne by done. apply lookup_delete_eq.
  - rewrite Hpend. apply lookup_delete_eq.
Qed.

(** ** The default metatypes *)

Lemma bind_Ok_r {A : Type} (m : result A) : m ≫= Ok = m.
Proof. by destruct m. Qed.

Lemma register_defaults_unfold (s : t) :
  register_defaults s = declare_defaults primitive_types s.
Proof.
  unfold Reflector.register_defaults. cbn [Reflector.declare_defaults primitive_types].
  repeat match goal with
         | |- context [declare_default ?T ?k ?st] =>
             destruct (declare_default T k st);
             cbn [mbind result_bind]; try reflexivity
         end.
Qed.

Lemma metatype_Ok (name : string) (s : t) (a : addr) :
  metatype name s = Ok a <-> _meta_types s !! name = Some a.
Proof.
  unfold Reflector.metatype. destruct (_meta_types s !! name); split; congruence.
Qed.

Lemma declare_default_spec (T : ctype) (k : metaclass) (s : t) :
  _meta_types s !! typeid_name T = None ->
  exists (mc ptr : addr) (s' : t),
    declare_default T k s = Ok s'
    /\ declared_state T (mkMetatype T k [] None) s s' mc ptr.
Proof.
  intros Hfree. unfold Reflector.declare_default.
  destruct (new_then_internal_declare T (mkMetatype T k [] None) s Hfree)
    as (ptr & s' & Hrun & Hst).
  destruct (new_metatype (mkMetatype T k [] None) s) as [mc0 s0].
  cbn [fst snd] in Hrun, Hst. eauto.
Qed.

Lemma declared_state_live (T : ctype) (M : Metatype) (s s' : t) (mc ptr : addr) :
  declared_state T M s s' mc ptr -> registered_live s -> registered_live s'.
Proof.
  intros Hst Hlive name a Hreg.
  pose proof (declared_state_frame _ _ _ _ _ _ Hst) as [_ Hheap].
  destruct Hst as (_ & _ & Hap & Hh & Ht & _).
  rewrite Ht in Hreg.
  destruct (decide (name = typeid_name (Tptr T))) as [->|H2].
  { rewrite lookup_insert_eq in Hreg. injection Hreg as <-.
    rewrite Hh. rewrite lookup_insert_ne by done.
    rewrite lookup_insert_eq. eauto. }
  rewrite lookup_insert_ne in Hreg by done.
  destruct (decide (name = typeid_name T)) as [->|H1].
  { rewrite lookup_insert_eq in Hreg. injection Hreg as <-.
    rewrite Hh. rewrite lookup_insert_eq. eauto. }
  rewrite lookup_insert_ne in Hreg by done.
  destruct (Hlive _ _ Hreg) as [m Hm]. eauto.
Qed.

Lemma declared_state_registered (T : ctype) (k : metaclass) (s s' : t)
    (mc ptr : addr) :
  typeid_name T <> typeid_name (Tptr T) ->
  declared_state T (mkMetatype T k [] None) s s' mc ptr ->
  registered T k s'.
Proof.
  intros Hne Hst.
  destruct (declared_state_lookup_type _ _ _ _ _ _ Hne Hst) as (H1 & H2 & H3 & H4).
  exists mc, ptr. rewrite !metatype_Ok. done.
Qed.

Lemma declared_state_keeps_registered (T : ctype) (M : Metatype) (s s' : t)
    (mc ptr : addr) (T0 : ctype) (k0 : metaclass) :
  declared_state T M s s' mc ptr ->
  registered T0 k0 s ->
  typeid_name T0 ∉ [typeid_name T; typeid_name (Tptr T)] ->
  typeid_name (Tptr T0) ∉ [typeid_name T; typeid_name (Tptr T)] ->
  registered T0 k0 s'.
Proof.
  intros Hst (mc0 & ptr0 & H1 & H2 & H3 & H4) Hn1 Hn2.
  destruct (declared_state_frame _ _ _ _ _ _ Hst) as [Hkeys Hheap].
  exists mc0, ptr0. rewrite !metatype_Ok in *.
  rewrite !Hkeys by set_solver. split_and!; eauto.
Qed.

Lemma declare_defaults_spec (l : list (ctype * metaclass)) (s : t) :
  NoDup (registry_keys l) ->
  (forall key, key ∈ registry_keys l -> _meta_types s !! key = None) ->
  registered_live s ->
  exists s',
    declare_defaults l s = Ok s'
    /\ m_prefixDecorators s' = m_prefixDecorators s
    /\ registered_live s'
    /\ (forall T k, (T, k) ∈ l -> registered T k s')
    /\ (forall T k, registered T k s ->
                    typeid_name T ∉ registry_keys l ->
                    typeid_name (Tptr T) ∉ registry_keys l ->
                    registered T k s').
Proof.
  revert s. induction l as [|[T k] l IH]; intros s Hnd Hfree Hlive.
  { exists s. cbn. repeat split; [done|set_solver|done]. }
  cbn [Reflector.registry_keys] in Hnd, Hfree.
  apply NoDup_cons in Hnd as [HT Hnd]. apply NoDup_cons in Hnd as [HP Hnd].
  assert (Hne : typeid_name T <> typeid_name (Tptr T)) by set_solver.
  destruct (declare_default_spec T k s) as (mc & ptr & s1 & Hrun & Hst).
  { apply Hfree. set_solver. }
  pose proof (declared_state_frame _ _ _ _ _ _ Hst) as [Hkeys _].
  destruct (IH s1 Hnd) as (s' & Hrun' & Hdec & Hlive' & Hall & Hkeep).
  { intros key Hkey. rewrite Hkeys by set_solver. apply Hfree. set_solver. }
  { by eapply declared_state_live. }
  exists s'. cbn [Reflector.declare_defaults]. rewrite Hrun. cbn [mbind result_bind].
  split; [exact Hrun'|]. split.
  { rewrite Hdec. by destruct Hst as (_ & _ & _ & _ & _ & -> & _). }
  split; [exact Hlive'|]. split.
  - intros T0 k0 Hin. apply elem_of_cons in Hin as [Heq|Hin].
    + injection Heq as -> ->. apply Hkeep; [|set_solver..].
      by eapply declared_state_registered.
    + by apply Hall.
  - intros T0 k0 Hreg Hn1 Hn2. cbn [Reflector.registry_keys] in Hn1, Hn2.
    apply Hkeep; [|set_solver..].
    eapply declared_state_keeps_registered; [exact Hst|exact Hreg|set_solver..].
Qed.

Lemma registered_live_img (s : t) :
  registered_live s <-> map_img (_meta_types s) ⊆ (dom (heap s) : gset addr).
Proof.
  unfold registered_live. split.
  - intros Hlive a Ha. apply elem_of_map_img in Ha as [name Hname].
    apply elem_of_dom. eauto.
  - intros Hsub name a Hname. apply elem_of_dom, Hsub.
    apply elem_of_map_img. eauto.
Qed.

Lemma clear_spec (s0 : t) :
  NoDup (registry_keys primitive_types) ->
  registered_live s0 ->
  exists s, clear s0 = Ok s /\ defaults_registered s.
Proof.
  intros Hnd Hlive. unfold Reflector.clear, eraseMetatypes.
  rewrite bool_decide_eq_true_2 by (by apply registered_live_img).
  cbn [mbind result_bind]. rewrite register_defaults_unfold.
  match goal with |- context [declare_defaults _ ?st] =>
    destruct (declare_defaults_spec primitive_types st Hnd)
      as (s & Hrun & Hdec & Hlive' & Hall & _)
  end.
  { intros key _. apply lookup_empty. }
  { intros name a Hreg. cbn in Hreg. by rewrite lookup_empty in Hreg. }
  exists s. split; [exact Hrun|]. split; [|done].
  rewrite Hdec. reflexivity.
Qed.

(** ** Registries a program can reach *)

Lemma declaration_registered_state
    (d : ctype -> Annotations -> t -> result (addr * t))
    (T : ctype) (ann : Annotations) (s0 s : t) (mc : addr) :
  d ∈ declarations ->
  is_Some (_meta_types s0 !! typeid_name T) ->
  d T ann s0 = Ok (mc, s) ->
  s = s0.
Proof.
  intros Hd Hreg Hrun. unfold Reflector.declarations in Hd.
  apply count_true in Hreg.
  repeat (apply elem_of_cons in Hd as [->|Hd]); [| | |by apply elem_of_nil in Hd].
  all: unfold Reflector.declare, Reflector.declareAbstract,
         Reflector.declareCollection in Hrun;
       rewrite Hreg in Hrun;
       destruct (metatype_of typeid_name cxa_demangle T s0);
         cbn [mbind result_bind] in Hrun; try discriminate;
       match type of Hrun with
       | context [dynamic_cast ?f ?a ?st] => destruct (dynamic_cast f a st)
       end; cbn [mbind result_bind] in Hrun; try discriminate;
       by injection Hrun as _ <-.
Qed.

(** What a returned declaration tells about the registry it leaves. *)
Lemma declare_returns_registered (C : ctype) (ann : Annotations) (s s1 : t)
    (mc : addr) :
  typeid_name C <> typeid_name (Tptr C) ->
  declare C ann s = Ok (mc, s1) ->
  _meta_types s1 !! typeid_name C = Some mc
  /\ exists m, heap s1 !! mc = Some m
               /\ is_CustomMetaclass C (dynamic_class m) = true.
Proof.
  intros Hne Hrun.
  destruct (_meta_types s !! typeid_name C) as [a|] eqn:Hreg.
  - unfold Reflector.declare in Hrun.
    rewrite (proj2 (count_true _ _)) in Hrun by (by rewrite Hreg).
    unfold metatype_of, Reflector.metatype in Hrun. rewrite Hreg in Hrun.
    cbn [mbind result_bind] in Hrun. unfold dynamic_cast in Hrun.
    destruct (heap s !! a) as [m|] eqn:Hobj; [|discriminate].
    destruct (is_CustomMetaclass C (dynamic_class m)) eqn:Hcls; [|discriminate].
    cbn [mbind result_bind] in Hrun. injection Hrun as <- <-. eauto.
  - destruct (declare_free C ann s Hreg) as (mc' & ptr & s' & Hrun' & Hst).
    rewrite Hrun' in Hrun. injection Hrun as <- <-.
    destruct (declared_state_lookup_type _ _ _ _ _ _ Hne Hst)
      as (Hl & _ & Hobj & _).
    split; [exact Hl|]. eexists. split; [exact Hobj|].
    cbn. by apply bool_decide_eq_true_2.
Qed.

(** Declarations of other types in between do not disturb it: a type
    declared once is still found, as the same object, after any declaration
    that registers other names. *)
Lemma declare_survives_declaration
    (d : ctype -> Annotations -> t -> result (addr * t))
    (C T : ctype) (ann annT : Annotations) (s s1 s2 : t) (mc mcT : addr) :
  typeid_name C <> typeid_name (Tptr C) ->
  declare C ann s = Ok (mc, s1) ->
  d ∈ declarations ->
  typeid_name T <> typeid_name C ->
  typeid_name (Tptr T) <> typeid_name C ->
  d T annT s1 = Ok (mcT, s2) ->
  forall ann', declare C ann' s2 = Ok (mc, s2).
Proof.
  intros Hne Hrun Hd HT HP HrunT ann'.
  destruct (declare_returns_registered C ann s s1 mc Hne Hrun)
    as (Hl & m & Hobj & Hcls).
  destruct (_meta_types s1 !! typeid_name T) as [a|] eqn:Hreg.
  - rewrite (declaration_registered_state d T annT s1 s2 mcT Hd
               (mk_is_Some _ _ Hreg) HrunT).
    by eapply declare_registered.
  - destruct (declaration_free d T annT s1 Hd Hreg)
      as (k & mc' & ptr & s' & Hrun' & Hst).
    rewrite Hrun' in HrunT. injection HrunT as <- <-.
    destruct (declared_state_frame _ _ _ _ _ _ Hst) as [Hkeys Hheap].
    eapply declare_registered; [|by apply Hheap|exact Hcls].
    by rewrite Hkeys.
Qed.

(** The registration of a type outlasts every operation that keeps its
    name. *)
Lemma reached_keeping_registered (C : ctype) (s1 s2 : t) (mc : addr)
    (m : Metatype) :
  _meta_types s1 !! typeid_name C = Some mc ->
  heap s1 !! mc = Some m ->
  reached_keeping C s1 s2 ->
  _meta_types s2 !! typeid_name C = Some mc /\ heap s2 !! mc = Some m.
Proof.
  intros Hl Hobj Hreach.
  induction Hreach as
    [|d T annT s' mcT s2 _ [IHl IHobj] Hd HP Hrun
     |decorator s' _ IH|tname prop s' _ IH].
  - done.
  - destruct (_meta_types s' !! typeid_name T) as [a|] eqn:Hreg.
    + by rewrite (declaration_registered_state d T annT s' s2 mcT Hd
                    (mk_is_Some _ _ Hreg) Hrun).
    + destruct (declaration_free d T annT s' Hd Hreg)
        as (k & mc' & ptr & s'' & Hrun' & Hst).
      rewrite Hrun' in Hrun. injection Hrun as <- <-.
      destruct (declared_state_frame _ _ _ _ _ _ Hst) as [Hkeys Hheap].
      split; [|by apply Hheap].
      rewrite Hkeys; [done| |by intros Heq; apply HP].
      intros Heq. rewrite Heq in IHl. congruence.
  - exact IH.
  - exact IH.
Qed.

(** Declaring the pointee of a declared pointer type takes the name of
    the pointer type away from its descriptor: the name is then
    registered for the pointer metatype of the pointee, and the next
    declaration of the pointer type casts that one, gets a null pointer
    and dereferences it. *)
Lemma declare_pointee_breaks_pointer_type (C : ctype)
    (ann ann' ann'' : Annotations) (s : t) :
  _meta_types s !! typeid_name C = None ->
  _meta_types s !! typeid_name (Tptr C) = None ->
  typeid_name C <> typeid_name (Tptr C) ->
  typeid_name C <> typeid_name (Tptr (Tptr C)) ->
  exists mcP s1 mc s2,
    declare (Tptr C) ann s = Ok (mcP, s1)
    /\ declare C ann' s1 = Ok (mc, s2)
    /\ count (typeid_name (Tptr C)) s2 = true
    /\ declare (Tptr C) ann'' s2 = Undefined.
Proof.
  intros HfreeC HfreeP Hne Hne2.
  destruct (declare_free (Tptr C) ann s HfreeP) as (mcP & ptrP & s1 & Hrun1 & Hst1).
  destruct (declared_state_frame _ _ _ _ _ _ Hst1) as [Hkeys1 _].
  assert (HfreeC1 : _meta_types s1 !! typeid_name C = None).
  { by rewrite Hkeys1. }
  destruct (declare_free C ann' s1 HfreeC1) as (mc & ptr & s2 & Hrun2 & Hst2).
  destruct (declared_state_lookup_type _ _ _ _ _ _ Hne Hst2)
    as (_ & Hlp & _ & Hpobj).
  exists mcP, s1, mc, s2. split; [exact Hrun1|]. split; [exact Hrun2|].
  assert (Hcount : count (typeid_name (Tptr C)) s2 = true).
  { apply count_true. by rewrite Hlp. }
  split; [exact Hcount|].
  unfold Reflector.declare. rewrite Hcount.
  unfold Reflector.metatype_of, Reflector.metatype. rewrite Hlp.
  cbn [mbind result_bind]. unfold dynamic_cast. rewrite Hpobj. reflexivity.
Qed.


(** In every reachable registry the registered pointers are live, so
    [clear] can be called on it. *)
Lemma reachable_live (s : t) :
  NoDup (registry_keys primitive_types) ->
  reachable s -> registered_live s.
Proof.
  intros Hnd Hreach. induction Hreach as
    [props s Hrun|s0 s _ IH Hrun|d T ann s0 mc s _ IH Hd Hrun
    |decorator s0 _ IH|tname prop s0 _ IH].
  - unfold Reflector.create in Hrun.
    destruct (clear_spec (mk ∅ props ∅ [] ∅) Hnd) as (s' & Hrun' & _ & Hlive & _).
    { intros name a Hreg. cbn in Hreg. by rewrite lookup_empty in Hreg. }
    rewrite Hrun' in Hrun. by injection Hrun as <-.
  - destruct (clear_spec s0 Hnd IH) as (s' & Hrun' & _ & Hlive & _).
    rewrite Hrun' in Hrun. by injection Hrun as <-.
  - destruct (_meta_types s0 !! typeid_name T) as [a|] eqn:Hreg.
    + rewrite (declaration_registered_state d T ann s0 s mc Hd
                 (mk_is_Some _ _ Hreg) Hrun).
      exact IH.
    + destruct (declaration_free d T ann s0 Hd Hreg)
        as (k & mc' & ptr & s' & Hrun' & Hst).
      rewrite Hrun' in Hrun. injection Hrun as <- <-.
      by eapply declared_state_live.
  - exact IH.
  - exact IH.
Qed.

(** C10. When the names of the ten primitive types and of their pointer
    types are pairwise distinct, the constructor succeeds, and [clear]
    succeeds on every registry whose registered pointers are live, which
    is the case of every registry the public operations can produce.  The
    registry each of them leaves holds the prefixes [struct] and [class],
    in that order and nothing else, and for each of bool, char, short, int,
    long, float, double, long double, wchar_t and std::string a metatype
    of the matching class and a pointer-metatype over it, paired with each
    other and found by name without an exception. *)
Theorem defaults_registered_after_clear :
  NoDup (registry_keys primitive_types) ->
  (forall props, exists s, create props = Ok s /\ defaults_registered s)
  /\ (forall s0, registered_live s0 ->
                 exists s, clear s0 = Ok s /\ defaults_registered s)
  /\ (forall s0, reachable s0 ->
                 exists s, clear s0 = Ok s /\ defaults_registered s).
Proof.
  intros Hnd. split; [|split].
  - intros props. unfold Reflector.create. apply clear_spec; [done|].
    intros name a Hreg. cbn in Hreg. by rewrite lookup_empty in Hreg.
  - intros s0 Hlive. by apply clear_spec.
  - intros s0 Hreach. apply clear_spec; [done|]. by apply reachable_live.
Qed.

End RegistryProofs.



Lemma metatype_lookup_witness :
  Reflector.metatype gxx_demangle "6Sample" sample_registry
  = Throw (Error "Metatype 'Sample' not declared")
  /\ Reflector.metatype gxx_demangle "i" sample_registry = Ok 6%nat.
Proof.
  split.
  - apply (proj1 (metatype_lookup gxx_demangle "6Sample" sample_registry)).
    vm_compute. reflexivity.
  - apply (proj2 (metatype_lookup gxx_demangle "i" sample_registry)).
    vm_compute. reflexivity.
Defined.

Lemma pending_property_resolved_witness :
  exists mc ptr s',
    Reflector.declare gxx_typeid_name gxx_demangle (Tclass "Sample") []
      registry_with_pending = Ok (mc, s')
    /\ Reflector.property_metatype s' !! 0%nat = Some mc
    /\ Reflector.property_metatype s' !! 1%nat = Some ptr
    /\ Reflector.m_pendingProperties s' !! "6Sample" = None
    /\ Reflector.m_pendingProperties s' !! "P6Sample" = None.
Proof.
  destruct (pending_property_resolved gxx_typeid_name gxx_demangle
              (Reflector.declare gxx_typeid_name gxx_demangle)
              (Tclass "Sample") [] registry_with_pending)
    as (_ & mc & ptr & m & s' & Hrun & _ & _ & _ & _ & _ & _ & _ & H0 & H1 & Hq0 & Hq1).
  - apply list_elem_of_here.
  - vm_compute. discriminate.
  - vm_compute. reflexivity.
  - exists mc, ptr, s'. split; [exact Hrun|]. split.
    + rewrite H0 by (apply (bool_decide_unpack _); vm_compute; exact I).
      rewrite bool_decide_eq_false_2; [reflexivity|].
      apply (bool_decide_unpack _). vm_compute. exact I.
    + split; [|split; [exact Hq0|exact Hq1]].
      apply H1. apply (bool_decide_unpack _). vm_compute. exact I.
Defined.

Lemma defaults_registered_after_clear_witness :
  NoDup (Reflector.registry_keys gxx_typeid_name Reflector.primitive_types)
  /\ exists s,
       Reflector.clear gxx_typeid_name gxx_demangle registry_with_pending = Ok s
       /\ Reflector.defaults_registered gxx_typeid_name gxx_demangle s.
Proof.
  assert (Hnd : NoDup (Reflector.registry_keys gxx_typeid_name Reflector.primitive_types)).
  { apply (bool_decide_unpack _). vm_compute. exact I. }
  split; [exact Hnd|].
  apply (proj1 (proj2 (defaults_registered_after_clear
                         gxx_typeid_name gxx_demangle Hnd))).
  apply registered_live_img. apply (bool_decide_unpack _). vm_compute. exact I.
Defined.

(* ===================================================================== *)
(** * The tokenizer *)
(* ===================================================================== *)

Section TokenizerProofs.

Import JSONReader.

Lemma isSeparator_separator (rd : t) (c : ascii) :
  isSeparator rd c = separator (currentChar rd).
Proof. unfold isSeparator, separator. by destruct (_ || _). Qed.

Lemma create_cons (x : ascii) (r : string) :
  create (String x r) = {| m_stream := r; currentChar := x |}.
Proof. reflexivity. Qed.

Lemma string_app_cons (x : ascii) (a b : string) :
  String x a ++ b = String x (a ++ b).
Proof. reflexivity. Qed.

(** [skipSpaces] runs over leading separators and stops on the first
    character that is none. *)
Lemma skipSpaces_over (lead : string) (x : ascii) (r : string) (fuel : nat) :
  all_chars separator lead = true ->
  separator x = false ->
  (String.length lead <= fuel)%nat ->
  skipSpaces fuel (create (lead ++ String x r))
  = Ok {| m_stream := r; currentChar := x |}.
Proof.
  revert fuel. induction lead as [|c lead IH]; intros fuel Hlead Hx Hfuel.
  - change ("" ++ String x r) with (String x r). rewrite create_cons.
    destruct fuel; cbn [skipSpaces]; rewrite isSeparator_separator;
      cbn [currentChar]; by rewrite Hx.
  - cbn [all_chars] in Hlead. apply andb_true_iff in Hlead as [Hc Hlead].
    destruct fuel as [|fuel]; [cbn [String.length] in Hfuel; lia|].
    rewrite string_app_cons, create_cons. cbn [skipSpaces].
    rewrite isSeparator_separator. cbn [currentChar]. rewrite Hc.
    change (advance {| m_stream := lead ++ String x r; currentChar := c |})
      with (create (lead ++ String x r)).
    apply IH; [done..|]. cbn [String.length] in Hfuel. lia.
Qed.

(** On a reader that is on no separator [skipSpaces] does nothing. *)
Lemma skipSpaces_none (fuel : nat) (rd : t) :
  separator (currentChar rd) = false -> skipSpaces fuel rd = Ok rd.
Proof.
  intros H. destruct fuel; cbn [skipSpaces]; rewrite isSeparator_separator;
    by rewrite H.
Qed.

(** The loop of [getToken] collects the characters up to the next
    separator. *)
Lemma getToken_loop_over (tok : string) (acc : string) (sep : ascii)
    (rest : string) (fuel : nat) :
  all_chars token_char tok = true ->
  separator sep = true ->
  (String.length tok <= fuel)%nat ->
  getToken_loop fuel acc (create (tok ++ String sep rest))
  = Ok (acc ++ tok, {| m_stream := rest; currentChar := sep |}).
Proof.
  revert fuel acc. induction tok as [|c tok IH]; intros fuel acc Htok Hsep Hfuel.
  - change ("" ++ String sep rest) with (String sep rest). rewrite create_cons.
    rewrite string_app_nil_r.
    destruct fuel; cbn [getToken_loop]; rewrite isSeparator_separator;
      cbn [currentChar]; by rewrite Hsep.
  - cbn [all_chars] in Htok. apply andb_true_iff in Htok as [Hc Htok].
    unfold token_char in Hc. apply negb_true_iff in Hc.
    destruct fuel as [|fuel]; [cbn [String.length] in Hfuel; lia|].
    rewrite string_app_cons, create_cons. cbn [getToken_loop].
    rewrite isSeparator_separator. cbn [currentChar]. rewrite Hc. cbn [negb].
    change (advance {| m_stream := tok ++ String sep rest; currentChar := c |})
      with (create (tok ++ String sep rest)).
    rewrite IH by (try done; cbn [String.length] in Hfuel; lia).
    by rewrite string_app_assoc.
Qed.

Lemma separator_EOF : separator EOF_char = false.
Proof. reflexivity. Qed.

(** X1. [skipSpaces] and [skipColon] always return: with more fuel than
    there are characters left in the stream, each returns a reader, and
    that reader is on no separator, respectively on no colon.  The end of
    the stream stops them, since the character read there is neither. *)
Theorem skipSpaces_skipColon_return (fuel : nat) (rd : t) :
  (String.length (m_stream rd) < fuel)%nat ->
  (exists rd', skipSpaces fuel rd = Ok rd'
               /\ separator (currentChar rd') = false)
  /\ (exists rd', skipColon fuel rd = Ok rd'
                  /\ Ascii.eqb (currentChar rd') ":" = false).
Proof.
  revert rd. induction fuel as [|fuel IH]; intros rd Hfuel; [lia|].
  split.
  - cbn [skipSpaces]. rewrite isSeparator_separator.
    destruct (separator (currentChar rd)) eqn:Hsep; [|eauto].
    unfold advance. destruct (m_stream rd) as [|x r] eqn:Hs.
    + exists {| m_stream := ""; currentChar := EOF_char |}.
      split; [|reflexivity]. by apply skipSpaces_none.
    + apply (IH {| m_stream := r; currentChar := x |}).
      cbn [m_stream String.length] in *. lia.
  - cbn [skipColon].
    destruct (Ascii.eqb (currentChar rd) ":") eqn:Hc; [|eauto].
    unfold advance. destruct (m_stream rd) as [|x r] eqn:Hs.
    + exists {| m_stream := ""; currentChar := EOF_char |}.
      split; [|reflexivity]. by destruct fuel.
    + apply (IH {| m_stream := r; currentChar := x |}).
      cbn [m_stream String.length] in *. lia.
Qed.

(** An unquoted token is read as the characters up to the next
    separator. *)
Lemma getToken_unquoted_text (lead tok : string) (sep : ascii) (rest : string)
    (fuel : nat) :
  all_chars separator lead = true ->
  all_chars token_char tok = true ->
  unquoted tok = true ->
  separator sep = true ->
  (String.length lead + String.length tok <= fuel)%nat ->
  getToken fuel (create (lead ++ tok ++ String sep rest))
  = Ok (tok, {| m_stream := rest; currentChar := sep |}).
Proof.
  intros Hlead Htok Hq Hsep Hfuel.
  destruct tok as [|c tok]; [discriminate|].
  cbn [unquoted] in Hq. apply negb_true_iff in Hq.
  pose proof Htok as Htok'. cbn [all_chars] in Htok'.
  apply andb_true_iff in Htok' as [Hc _].
  unfold token_char in Hc. apply negb_true_iff in Hc.
  assert (Hskip : skipSpaces fuel (create (lead ++ String c tok ++ String sep rest))
                  = Ok (create (String c tok ++ String sep rest))).
  { rewrite string_app_cons. apply skipSpaces_over; [done..|lia]. }
  unfold getToken.
  assert (Hfirst : (if isSeparator (create (lead ++ String c tok ++ String sep rest))
                         (currentChar (create (lead ++ String c tok ++ String sep rest)))
                    then skipSpaces fuel (create (lead ++ String c tok ++ String sep rest))
                    else Ok (create (lead ++ String c tok ++ String sep rest)))
                   = Ok (create (String c tok ++ String sep rest))).
  { destruct (isSeparator _ _) eqn:Hs; [exact Hskip|].
    rewrite isSeparator_separator in Hs.
    rewrite <- Hskip. symmetry. by apply skipSpaces_none. }
  rewrite Hfirst. cbn [mbind result_bind].
  change (currentChar (create (String c tok ++ String sep rest))) with c.
  rewrite Hq. rewrite getToken_loop_over by (try done; lia).
  reflexivity.
Qed.

(** ** Quoted tokens *)

Lemma plain_char_inv (c : ascii) :
  plain_char c = true ->
  Ascii.eqb c dquote = false /\ Ascii.eqb c backslash = false.
Proof.
  unfold plain_char. intros H. apply andb_true_iff in H as [H1 H2].
  by apply negb_true_iff in H1, H2.
Qed.

Lemma getString_loop_plain_text (s acc tail : string) (fuel : nat) :
  all_chars plain_char s = true ->
  (String.length s <= fuel)%nat ->
  getString_loop fuel acc (create (s ++ String dquote tail))
  = Ok (acc ++ s, create (String dquote tail)).
Proof.
  revert fuel acc. induction s as [|c s IH]; intros fuel acc Hs Hfuel.
  - change ("" ++ String dquote tail) with (String dquote tail).
    rewrite string_app_nil_r. destruct fuel; reflexivity.
  - cbn [all_chars] in Hs. apply andb_true_iff in Hs as [Hc Hs].
    apply plain_char_inv in Hc as [H1 H2].
    destruct fuel as [|fuel]; [cbn [String.length] in Hfuel; lia|].
    rewrite string_app_cons, getString_loop_plain by done.
    rewrite IH by (try done; cbn [String.length] in Hfuel; lia).
    by rewrite string_app_assoc.
Qed.

(** Text without a backslash goes through the unescaper unchanged. *)
Lemma removeEscapeSeq_no_backslash (s : string) :
  all_chars no_backslash s = true -> removeEscapeSeq s = Ok s.
Proof.
  induction s as [|c s IH]; intros Hs; [reflexivity|].
  cbn [all_chars] in Hs. apply andb_true_iff in Hs as [Hc Hs].
  unfold no_backslash in Hc. apply negb_true_iff in Hc.
  cbn [removeEscapeSeq]. rewrite Hc, IH by done. reflexivity.
Qed.

Lemma plain_no_backslash (s : string) :
  all_chars plain_char s = true -> all_chars no_backslash s = true.
Proof.
  induction s as [|c s IH]; [done|]. cbn [all_chars]. intros H.
  apply andb_true_iff in H as [Hc Hs]. apply plain_char_inv in Hc as [_ Hc].
  rewrite IH by done. unfold no_backslash. by rewrite Hc.
Qed.

(** A quoted text without quote and backslash is read as it stands. *)
Lemma getToken_quoted_text (lead s tail : string) (fuel : nat) :
  all_chars separator lead = true ->
  all_chars plain_char s = true ->
  (String.length lead + String.length s <= fuel)%nat ->
  getToken fuel (create (lead ++ String dquote (s ++ String dquote tail)))
  = Ok (s, create tail).
Proof.
  intros Hlead Hs Hfuel.
  set (text := String dquote (s ++ String dquote tail)).
  assert (Hskip : skipSpaces fuel (create (lead ++ text)) = Ok (create text)).
  { apply skipSpaces_over; [done|reflexivity|lia]. }
  unfold getToken.
  assert (Hfirst : (if isSeparator (create (lead ++ text))
                         (currentChar (create (lead ++ text)))
                    then skipSpaces fuel (create (lead ++ text))
                    else Ok (create (lead ++ text)))
                   = Ok (create text)).
  { destruct (isSeparator _ _) eqn:Hsep; [exact Hskip|].
    rewrite isSeparator_separator in Hsep.
    rewrite <- Hskip. symmetry. by apply skipSpaces_none. }
  rewrite Hfirst. cbn [mbind result_bind].
  change (Ascii.eqb (currentChar (create text)) dquote) with true. cbn match.
  unfold getString.
  change (advance (create text)) with (create (s ++ String dquote tail)).
  rewrite getString_loop_plain_text by (try done; lia).
  cbn [mbind result_bind]. change ("" ++ s) with s.
  rewrite removeEscapeSeq_no_backslash by (by apply plain_no_backslash).
  reflexivity.
Qed.

(** X2. What [getToken] returns.  After any run of separators, a text of
    token characters that does not start with a quote and is followed by
    a separator is returned whole, with the reader left on that separator;
    a quoted text that holds neither a quote nor a backslash is returned
    without its quotes, with the reader left after the closing quote.  The
    fuel needed is the number of characters passed. *)
Theorem getToken_returns_token (lead : string) (fuel : nat) :
  all_chars separator lead = true ->
  (forall tok sep rest,
      all_chars token_char tok = true ->
      unquoted tok = true ->
      separator sep = true ->
      (String.length lead + String.length tok <= fuel)%nat ->
      getToken fuel (create (lead ++ tok ++ String sep rest))
      = Ok (tok, {| m_stream := rest; currentChar := sep |}))
  /\ (forall s tail,
        all_chars plain_char s = true ->
        (String.length lead + String.length s <= fuel)%nat ->
        getToken fuel (create (lead ++ String dquote (s ++ String dquote tail)))
        = Ok (s, create tail)).
Proof.
  intros Hlead. split.
  - intros tok sep rest Htok Hq Hsep Hfuel. by apply getToken_unquoted_text.
  - intros s tail Hs Hfuel. by apply getToken_quoted_text.
Qed.

(** ** The unescaper on text the escaper does not write *)

Lemma escape_letter_false (x : ascii) :
  escape_letter x = false ->
  Ascii.eqb x "b" = false /\ Ascii.eqb x "f" = false /\ Ascii.eqb x "n" = false
  /\ Ascii.eqb x "r" = false /\ Ascii.eqb x "t" = false /\ Ascii.eqb x "u" = false.
Proof.
  unfold escape_letter. cbn [existsb]. rewrite !orb_false_iff. tauto.
Qed.

Lemma removeEscapeSeq_lone_backslash (s : string) :
  all_chars no_backslash s = true ->
  removeEscapeSeq (s ++ String backslash "") = Undefined.
Proof.
  induction s as [|c s IH]; intros Hs; [reflexivity|].
  cbn [all_chars] in Hs. apply andb_true_iff in Hs as [Hc Hs].
  unfold no_backslash in Hc. apply negb_true_iff in Hc.
  rewrite string_app_cons. cbn [removeEscapeSeq]. rewrite Hc, IH by done.
  reflexivity.
Qed.

(** X3. The unescaper outside the escapes it knows.  Text without a
    backslash is returned unchanged.  A backslash before a character that
    is none of b, f, n, r, t, u is dropped and the character is kept, so a
    backslash before a quote, a slash or a backslash yields that
    character.  A text that ends in a single backslash sends the iterator
    past the end of the string. *)
Theorem removeEscapeSeq_outside_escapes :
  (forall s, all_chars no_backslash s = true -> removeEscapeSeq s = Ok s)
  /\ (forall x rest,
        escape_letter x = false ->
        removeEscapeSeq (String backslash (String x rest))
        = String x <$> removeEscapeSeq rest)
  /\ (forall s,
        all_chars no_backslash s = true ->
        removeEscapeSeq (s ++ String backslash "") = Undefined).
Proof.
  split; [|split].
  - apply removeEscapeSeq_no_backslash.
  - intros x rest Hx.
    destruct (escape_letter_false x Hx) as (Hb & Hf & Hn & Hr & Ht & Hu).
    cbn [removeEscapeSeq]. change (Ascii.eqb backslash backslash) with true.
    cbn match. by rewrite Hb, Hf, Hn, Hr, Ht, Hu.
  - apply removeEscapeSeq_lone_backslash.
Qed.

(** ** Tokens that do not end *)

Lemma token_chars_advance (rd : t) :
  token_char (currentChar rd) = true ->
  all_chars token_char (m_stream rd) = true ->
  token_char (currentChar (advance rd)) = true
  /\ all_chars token_char (m_stream (advance rd)) = true.
Proof.
  intros _ Hs. unfold advance.
  destruct (m_stream rd) as [|x r]; cbn [m_stream currentChar all_chars] in *.
  - done.
  - by apply andb_true_iff in Hs.
Qed.

Lemma getToken_loop_no_separator (fuel : nat) (token : string) (rd : t) :
  token_char (currentChar rd) = true ->
  all_chars token_char (m_stream rd) = true ->
  getToken_loop fuel token rd = OutOfFuel.
Proof.
  revert token rd. induction fuel as [|fuel IH]; intros token rd Hc Hs;
    cbn [getToken_loop]; rewrite isSeparator_separator;
    unfold token_char in Hc; rewrite Hc; [reflexivity|].
  destruct (token_chars_advance rd) as [Hc' Hs']; [done..|].
  by apply IH.
Qed.

Lemma getString_loop_no_quote (fuel : nat) (str : string) (rd : t) :
  lacks dquote rd = true -> getString_loop fuel str rd = OutOfFuel.
Proof.
  revert str rd. induction fuel as [|fuel IH]; intros str rd Hl;
    cbn [getString_loop]; rewrite (lacks_current _ _ Hl); cbn [negb];
    [reflexivity|].
  destruct (Ascii.eqb (currentChar rd) backslash).
  - apply IH. by do 2 apply (lacks_advance dquote eq_refl).
  - apply IH. by apply (lacks_advance dquote eq_refl).
Qed.

(** X4. A token that nothing ends is never returned.  When the reader is
    on a token character other than the quote and only token characters
    follow up to the end of the stream, [getToken] is still collecting
    whatever the fuel; so is it when the reader is on a quote and no
    second quote follows.  [readString] and [readBool], which are
    [getToken], share this. *)
Theorem unterminated_token_never_returns (rd : t) :
  (token_char (currentChar rd) = true ->
   Ascii.eqb (currentChar rd) dquote = false ->
   all_chars token_char (m_stream rd) = true ->
   forall fuel, getToken fuel rd = OutOfFuel
                /\ readString fuel rd = OutOfFuel
                /\ readBool fuel rd = OutOfFuel)
  /\ (Ascii.eqb (currentChar rd) dquote = true ->
      lacks dquote (advance rd) = true ->
      forall fuel, getToken fuel rd = OutOfFuel
                   /\ readString fuel rd = OutOfFuel
                   /\ readBool fuel rd = OutOfFuel).
Proof.
  split.
  - intros Hc Hq Hs fuel.
    assert (H : getToken fuel rd = OutOfFuel).
    { unfold getToken. rewrite isSeparator_separator.
      unfold token_char in Hc. apply negb_true_iff in Hc. rewrite Hc.
      cbn [mbind result_bind]. rewrite Hq.
      apply getToken_loop_no_separator; [|done].
      unfold token_char. by rewrite Hc. }
    unfold readString, readBool. by rewrite H.
  - intros Hq Hl fuel.
    assert (H : getToken fuel rd = OutOfFuel).
    { unfold getToken. rewrite isSeparator_separator.
      apply Ascii.eqb_eq in Hq. rewrite Hq.
      change (separator dquote) with false. cbn [mbind result_bind].
      rewrite Hq. change (Ascii.eqb dquote dquote) with true. cbn match.
      unfold getString. by rewrite getString_loop_no_quote. }
    unfold readString, readBool. by rewrite H.
Qed.

End TokenizerProofs.

Lemma skipSpaces_skipColon_return_witness :
  (exists rd', JSONReader.skipSpaces 4 (JSONReader.create " , ") = Ok rd'
               /\ JSONReader.separator (JSONReader.currentChar rd') = false)
  /\ (exists rd', JSONReader.skipColon 4 (JSONReader.create "::") = Ok rd'
                  /\ Ascii.eqb (JSONReader.currentChar rd') ":" = false).
Proof.
  split.
  - apply (proj1 (skipSpaces_skipColon_return 4 (JSONReader.create " , ")
                    ltac:(vm_compute; lia))).
  - apply (proj2 (skipSpaces_skipColon_return 4 (JSONReader.create "::")
                    ltac:(vm_compute; lia))).
Defined.


Lemma unterminated_token_never_returns_witness :
  (forall fuel, JSONReader.readString fuel (JSONReader.create "23") = OutOfFuel)
  /\ (forall fuel,
        JSONReader.readString fuel
          (JSONReader.create (String dquote "abc, d")) = OutOfFuel).
Proof.
  split; intros fuel.
  - apply (proj1 (unterminated_token_never_returns (JSONReader.create "23"))
             ltac:(reflexivity) ltac:(reflexivity) ltac:(reflexivity) fuel).
  - apply (proj2 (unterminated_token_never_returns
                    (JSONReader.create (String dquote "abc, d")))
             ltac:(reflexivity) ltac:(reflexivity) fuel).
Defined.

Lemma getToken_returns_token_witness :
  JSONReader.getToken 5 (JSONReader.create ", 23 ,x")
  = Ok ("23", {| JSONReader.m_stream := ",x"; JSONReader.currentChar := " " |})
  /\ JSONReader.getToken 5
       (JSONReader.create (", " ++ String dquote ("$id" ++ String dquote ": 0")))
     = Ok ("$id", JSONReader.create ": 0").
Proof.
  destruct (getToken_returns_token ", " 5 ltac:(reflexivity)) as [H1 H2].
  split.
  - apply (H1 "23" " "%char ",x"); try reflexivity. vm_compute. lia.
  - apply (H2 "$id" ": 0"); [reflexivity|]. vm_compute. lia.
Defined.

Lemma removeEscapeSeq_outside_escapes_witness :
  JSONReader.removeEscapeSeq "a/b" = Ok "a/b"
  /\ JSONReader.removeEscapeSeq (String backslash "/b") = Ok "/b"
  /\ JSONReader.removeEscapeSeq ("ab" ++ String backslash "") = Undefined.
Proof.
  destruct removeEscapeSeq_outside_escapes as (H1 & H2 & H3).
  split; [|split].
  - apply H1. reflexivity.
  - rewrite H2 by reflexivity. reflexivity.
  - apply H3. reflexivity.
Defined.

(* ===================================================================== *)
(** * The [\u] escape *)
(* ===================================================================== *)

Section UnicodeEscapeProofs.

Import JSONReader.

Lemma hex_digit_facts (c : ascii) (v : Z) :
  hex_digit_value c = Some v ->
  0 <= v < 16
  /\ isspace c = false
  /\ Ascii.eqb c "x" = false /\ Ascii.eqb c "X" = false.
Proof.
  destruct c as [[] [] [] [] [] [] [] []]; vm_compute; intros [= <-];
    repeat split; discriminate.
Qed.

Lemma starts_with_hex_digit_digit (c : ascii) (v : Z) (r : string) :
  hex_digit_value c = Some v -> starts_with_hex_digit (String c r) = true.
Proof.
  intros H. unfold starts_with_hex_digit. rewrite H.
  apply bool_decide_eq_true_2. eauto.
Qed.

Lemma extract_hex_four_digits (h1 h2 h3 h4 : ascii) (v1 v2 v3 v4 : Z) :
  hex_digit_value h1 = Some v1 -> hex_digit_value h2 = Some v2 ->
  hex_digit_value h3 = Some v3 -> hex_digit_value h4 = Some v4 ->
  extract_hex (String h1 (String h2 (String h3 (String h4 ""))))
  = Some (16 * (16 * (16 * v1 + v2) + v3) + v4).
Proof.
  intros H1 H2 H3 H4.
  destruct (hex_digit_facts h1 v1 H1) as (_ & Hsp & _).
  destruct (hex_digit_facts h2 v2 H2) as (_ & _ & Hx & HX).
  unfold extract_hex. cbn [skip_ws]. rewrite Hsp.
  pose proof H1 as H1'.
  destruct h1 as [[] [] [] [] [] [] [] []]; vm_compute in H1';
    try discriminate; clear H1'; cbv beta iota zeta;
    rewrite ?Hx, ?HX; cbn [orb andb]; cbv beta iota zeta;
    rewrite (starts_with_hex_digit_digit _ _ _ H1);
    cbn [hex_run]; rewrite H1, H2, H3, H4; f_equal; lia.
Qed.

(** X5. A [\u] escape with four hexadecimal digits yields one character,
    the one whose code the last two digits spell: the first two digits do
    not matter, so every code above 0xFF is cut down to its low byte. *)
Theorem removeEscapeSeq_u_low_byte (h1 h2 h3 h4 : ascii) (v1 v2 v3 v4 : Z)
    (rest : string) :
  hex_digit_value h1 = Some v1 -> hex_digit_value h2 = Some v2 ->
  hex_digit_value h3 = Some v3 -> hex_digit_value h4 = Some v4 ->
  removeEscapeSeq
    (String backslash (String "u" (String h1 (String h2 (String h3 (String h4 rest))))))
  = String (ascii_of_N (Z.to_N (16 * v3 + v4))) <$> removeEscapeSeq rest.
Proof.
  intros H1 H2 H3 H4.
  change (removeEscapeSeq
            (String backslash
               (String "u" (String h1 (String h2 (String h3 (String h4 rest)))))))
    with (match extract_hex (String h1 (String h2 (String h3 (String h4 "")))) with
          | Some n => String (char_of_int n) <$> removeEscapeSeq rest
          | None => String (char_of_int 0) <$> removeEscapeSeq rest
          end).
  rewrite (extract_hex_four_digits h1 h2 h3 h4 v1 v2 v3 v4) by done.
  destruct (hex_digit_facts h1 v1 H1) as (B1 & _).
  destruct (hex_digit_facts h2 v2 H2) as (B2 & _).
  destruct (hex_digit_facts h3 v3 H3) as (B3 & _).
  destruct (hex_digit_facts h4 v4 H4) as (B4 & _).
  unfold char_of_int.
  replace (16 * (16 * (16 * v1 + v2) + v3) + v4)
    with ((16 * v3 + v4) + (16 * v1 + v2) * 256) by lia.
  rewrite Z_mod_plus_full, Z.mod_small by lia.
  reflexivity.
Qed.

End UnicodeEscapeProofs.

Lemma removeEscapeSeq_u_low_byte_witness :
  JSONReader.removeEscapeSeq (String backslash "u20acz")
  = Ok (String (ascii_of_N 172) "z").
Proof.
  apply (removeEscapeSeq_u_low_byte "2" "0" "a" "c" 2 0 10 12 "z");
    reflexivity.
Defined.

(* ===================================================================== *)
(** * Primitive reads *)
(* ===================================================================== *)

Section PrimitiveReadProofs.

Import JSONReader.

(** X6. [readBool] is a comparison of the token with [true]: after any
    run of separators, an unquoted token followed by a separator is read
    as [true] when it is that word and as [false] when it is anything
    else, without an error; so what [writeBool] wrote on an empty stream
    is read back as the value written. *)
Theorem readBool_reads_token (lead : string) (sep : ascii) (rest : string)
    (fuel : nat) :
  all_chars separator lead = true ->
  separator sep = true ->
  (forall tok,
      all_chars token_char tok = true -> unquoted tok = true ->
      (String.length lead + String.length tok <= fuel)%nat ->
      readBool fuel (create (lead ++ tok ++ String sep rest))
      = Ok (String.eqb tok "true", {| m_stream := rest; currentChar := sep |}))
  /\ (forall (value : bool) (w : JSONWriter.t),
        JSONWriter.m_stream w = "" ->
        (String.length lead + 5 <= fuel)%nat ->
        readBool fuel
          (create (lead ++ JSONWriter.m_stream (JSONWriter.writeBool value w)
                   ++ String sep rest))
        = Ok (value, {| m_stream := rest; currentChar := sep |})).
Proof.
  intros Hlead Hsep. split.
  - intros tok Htok Hq Hfuel. unfold readBool.
    by rewrite getToken_unquoted_text.
  - intros value w Hw Hfuel. unfold readBool, JSONWriter.writeBool, JSONWriter.put.
    cbn [JSONWriter.m_stream]. rewrite Hw.
    destruct value.
    + change ("" ++ "true") with "true".
      rewrite getToken_unquoted_text; try done. cbn [String.length]. lia.
    + change ("" ++ "false") with "false".
      rewrite getToken_unquoted_text; try done.
Qed.

(** X7. [readChar] returns the first character of the token.  The token
    of an empty quoted string, which is what [writeString] writes for the
    empty string, has no first character: [at( 0 )] throws
    [out_of_range]. *)
Theorem readChar_first_character (lead : string) (fuel : nat) :
  all_chars separator lead = true ->
  (forall c tok sep rest,
      all_chars token_char (String c tok) = true ->
      Ascii.eqb c dquote = false ->
      separator sep = true ->
      (String.length lead + S (String.length tok) <= fuel)%nat ->
      readChar fuel (create (lead ++ String c tok ++ String sep rest))
      = Ok (c, {| m_stream := rest; currentChar := sep |}))
  /\ (forall (w : JSONWriter.t) tail,
        JSONWriter.m_stream w = "" ->
        (String.length lead <= fuel)%nat ->
        readChar fuel
          (create (lead ++ JSONWriter.m_stream (JSONWriter.writeString "" w) ++ tail))
        = Throw out_of_range).
Proof.
  intros Hlead. split.
  - intros c tok sep rest Htok Hq Hsep Hfuel.
    pose proof Htok as Htok'. cbn [all_chars] in Htok'.
    apply andb_true_iff in Htok' as [Hc _].
    unfold token_char in Hc. apply negb_true_iff in Hc.
    unfold readChar. rewrite string_app_cons.
    rewrite skipSpaces_over by (try done; lia).
    cbn [mbind result_bind].
    change {| m_stream := tok ++ String sep rest; currentChar := c |}
      with (create ("" ++ String c tok ++ String sep rest)).
    rewrite (getToken_unquoted_text "" (String c tok) sep rest fuel);
      try done.
    + cbn [unquoted]. by rewrite Hq.
    + cbn [String.length] in *. lia.
  - intros w tail Hw Hfuel.
    unfold readChar, JSONWriter.writeString, JSONWriter.put.
    cbn [JSONWriter.m_stream MetaString.addEscapeSeq]. rewrite Hw.
    change (("" ++ JSONWriter.quote ++ "" ++ JSONWriter.quote) ++ tail)
      with (String dquote ("" ++ String dquote tail)).
    rewrite skipSpaces_over by (try done; lia).
    cbn [mbind result_bind].
    change {| m_stream := "" ++ String dquote tail; currentChar := dquote |}
      with (create ("" ++ String dquote ("" ++ String dquote tail))).
    rewrite (getToken_quoted_text "" "" tail fuel) by (try done; cbn; lia).
    reflexivity.
Qed.

End PrimitiveReadProofs.

Lemma readString_writeString_witness :
  JSONReader.readString 20
    (JSONReader.create
       (JSONWriter.m_stream
          (JSONWriter.writeString escaping_sample (JSONWriter.create false false))
        ++ ", x"))
  = Ok (escaping_sample, JSONReader.create ", x").
Proof.
  apply (readString_writeString escaping_sample ", x" 20
           (JSONWriter.create false false)); [reflexivity|].
  vm_compute. lia.
Defined.

Lemma readBool_reads_token_witness :
  JSONReader.readBool 6 (JSONReader.create " TRUE,")
  = Ok (false, {| JSONReader.m_stream := ""; JSONReader.currentChar := "," |})
  /\ JSONReader.readBool 6
       (JSONReader.create
          (" " ++ JSONWriter.m_stream
                    (JSONWriter.writeBool true (JSONWriter.create false false))
           ++ ","))
     = Ok (true, {| JSONReader.m_stream := ""; JSONReader.currentChar := "," |}).
Proof.
  destruct (readBool_reads_token " " "," "" 6 ltac:(reflexivity) ltac:(reflexivity))
    as [H1 H2].
  split.
  - apply (H1 "TRUE"); try reflexivity. vm_compute. lia.
  - apply H2; [reflexivity|]. vm_compute. lia.
Defined.

Lemma readChar_first_character_witness :
  JSONReader.readChar 4 (JSONReader.create " ab,")
  = Ok ("a"%char, {| JSONReader.m_stream := ""; JSONReader.currentChar := "," |})
  /\ JSONReader.readChar 4
       (JSONReader.create
          (" " ++ JSONWriter.m_stream
                    (JSONWriter.writeString "" (JSONWriter.create false false))
           ++ ","))
     = Throw out_of_range.
Proof.
  destruct (readChar_first_character " " 4 ltac:(reflexivity)) as [H1 H2].
  split.
  - apply (H1 "a"%char "b" ","%char ""); try reflexivity. vm_compute. lia.
  - apply H2; [reflexivity|]. vm_compute. lia.
Defined.

(* ===================================================================== *)
(** * Scans that find their delimiter *)
(* ===================================================================== *)

Section SeekProofs.

Import JSONReader.

Variable c : ascii.
Hypothesis c_token_char : separator c = false.

Lemma reader_eta (rd : t) :
  {| m_stream := m_stream rd; currentChar := currentChar rd |} = rd.
Proof. by destruct rd. Qed.

Lemma seek_here (rd tgt : t) :
  Ascii.eqb (currentChar rd) c = true -> seek c rd = Some tgt -> tgt = rd.
Proof.
  unfold seek. destruct (m_stream rd) eqn:Hs; cbn [seek_from];
    intros -> [= <-]; rewrite <- Hs; apply reader_eta.
Qed.

Lemma seek_advance (rd tgt : t) :
  Ascii.eqb (currentChar rd) c = false ->
  seek c rd = Some tgt ->
  seek c (advance rd) = Some tgt
  /\ (S (String.length (m_stream (advance rd))) = String.length (m_stream rd))%nat.
Proof.
  unfold seek, advance.
  destruct (m_stream rd) as [|x r]; cbn [seek_from]; intros ->; [discriminate|].
  intros H. cbn [m_stream currentChar String.length]. done.
Qed.

Lemma separator_not_c (rd : t) :
  separator (currentChar rd) = true -> Ascii.eqb (currentChar rd) c = false.
Proof.
  intros Hsep. destruct (Ascii.eqb (currentChar rd) c) eqn:E; [|done].
  apply Ascii.eqb_eq in E. rewrite E in Hsep. congruence.
Qed.

(** [skipSpaces] does not pass a delimiter that is ahead. *)
Lemma seek_skipSpaces (fuel : nat) (rd tgt : t) :
  seek c rd = Some tgt ->
  (String.length (m_stream rd) <= fuel)%nat ->
  exists rd',
    skipSpaces fuel rd = Ok rd'
    /\ seek c rd' = Some tgt
    /\ (String.length (m_stream rd') <= String.length (m_stream rd))%nat.
Proof.
  revert rd. induction fuel as [|fuel IH]; intros rd Hseek Hfuel;
    cbn [skipSpaces]; rewrite isSeparator_separator;
    destruct (separator (currentChar rd)) eqn:Hsep; eauto.
  - destruct (seek_advance rd tgt (separator_not_c rd Hsep) Hseek) as [_ Hlen].
    lia.
  - destruct (seek_advance rd tgt (separator_not_c rd Hsep) Hseek) as [Hs Hlen].
    destruct (IH (advance rd) Hs) as (rd' & Hrun & Hs' & Hlen'); [lia|].
    exists rd'. repeat split; [done..|lia].
Qed.

End SeekProofs.

Section DelimiterProofs.

Import JSONReader.

Lemma collectionBegin_loop_seek (fuel : nat) (rd tgt : t) :
  seek "[" rd = Some tgt ->
  (String.length (m_stream rd) <= fuel)%nat ->
  collectionBegin_loop fuel rd = Ok tgt.
Proof.
  revert rd. induction fuel as [|fuel IH]; intros rd Hseek Hfuel;
    cbn [collectionBegin_loop];
    destruct (Ascii.eqb (currentChar rd) "[") eqn:E; cbn [negb].
  - by rewrite (seek_here "[" rd tgt E Hseek).
  - destruct (seek_advance "[" rd tgt E Hseek) as [_ Hlen]. lia.
  - by rewrite (seek_here "[" rd tgt E Hseek).
  - destruct (seek_advance "[" rd tgt E Hseek) as [Hs Hlen].
    apply IH; [done|lia].
Qed.

Lemma objectEnd_loop_seek (fuel : nat) (rd tgt : t) :
  seek "}" rd = Some tgt ->
  (String.length (m_stream rd) <= fuel)%nat ->
  objectEnd_loop fuel rd = Ok tgt.
Proof.
  revert rd. induction fuel as [|fuel IH]; intros rd Hseek Hfuel;
    cbn [objectEnd_loop]; unfold endObject;
    match goal with
    | |- context [skipSpaces ?f rd] =>
        destruct (seek_skipSpaces "}" eq_refl f rd tgt Hseek Hfuel)
          as (rd' & -> & Hs' & Hlen')
    end;
    cbn [mbind result_bind];
    destruct (Ascii.eqb (currentChar rd') "}") eqn:E; cbn [negb].
  - by rewrite (seek_here "}" rd' tgt E Hs').
  - destruct (seek_advance "}" rd' tgt E Hs') as [_ Hlen]. lia.
  - by rewrite (seek_here "}" rd' tgt E Hs').
  - destruct (seek_advance "}" rd' tgt E Hs') as [Hs Hlen].
    apply IH; [done|lia].
Qed.

Lemma collectionEnd_loop_seek (fuel : nat) (rd tgt : t) :
  seek "]" rd = Some tgt ->
  (String.length (m_stream rd) <= fuel)%nat ->
  collectionEnd_loop fuel rd = Ok tgt.
Proof.
  revert rd. induction fuel as [|fuel IH]; intros rd Hseek Hfuel;
    cbn [collectionEnd_loop]; unfold endCollection;
    match goal with
    | |- context [skipSpaces ?f rd] =>
        destruct (seek_skipSpaces "]" eq_refl f rd tgt Hseek Hfuel)
          as (rd' & -> & Hs' & Hlen')
    end;
    cbn [mbind result_bind];
    destruct (Ascii.eqb (currentChar rd') "]") eqn:E; cbn [negb].
  - by rewrite (seek_here "]" rd' tgt E Hs').
  - destruct (seek_advance "]" rd' tgt E Hs') as [_ Hlen]. lia.
  - by rewrite (seek_here "]" rd' tgt E Hs').
  - destruct (seek_advance "]" rd' tgt E Hs') as [Hs Hlen].
    apply IH; [done|lia].
Qed.

(** X8. A scan whose delimiter is ahead returns just behind the first one,
    whatever stands before it.  With as much fuel as there are characters
    left in the stream, [collectionBegin] returns with the reader behind
    the first opening bracket, [objectEnd] behind the first closing brace
    and [collectionEnd] behind the first closing bracket; nothing of the
    text that is passed is looked at, and [endObject] and [endCollection]
    answer yes once the reader is brought on the delimiter. *)
Theorem scans_stop_behind_delimiter (fuel : nat) (rd tgt : t) :
  (String.length (m_stream rd) <= fuel)%nat ->
  (seek "[" rd = Some tgt -> collectionBegin fuel rd = Ok (advance tgt))
  /\ (seek "}" rd = Some tgt ->
      objectEnd fuel rd = Ok (advance tgt)
      /\ endObject fuel tgt = Ok (true, tgt))
  /\ (seek "]" rd = Some tgt ->
      collectionEnd fuel rd = Ok (advance tgt)
      /\ endCollection fuel tgt = Ok (true, tgt)).
Proof.
  intros Hfuel. split; [|split]; intros Hseek.
  - unfold collectionBegin. by rewrite (collectionBegin_loop_seek fuel rd tgt).
  - split.
    + unfold objectEnd. by rewrite (objectEnd_loop_seek fuel rd tgt).
    + assert (Hc : currentChar tgt = "}"%char).
      { clear Hfuel. unfold seek in Hseek.
        revert Hseek. generalize (currentChar rd).
        induction (m_stream rd) as [|x r IH]; intros cur; cbn [seek_from];
          destruct (Ascii.eqb cur "}") eqn:E;
          try discriminate; try (intros [= <-]; by apply Ascii.eqb_eq);
          apply IH. }
      unfold endObject. rewrite skipSpaces_none by (by rewrite Hc).
      cbn [mbind result_bind]. by rewrite Hc.
  - split.
    + unfold collectionEnd. by rewrite (collectionEnd_loop_seek fuel rd tgt).
    + assert (Hc : currentChar tgt = "]"%char).
      { clear Hfuel. unfold seek in Hseek.
        revert Hseek. generalize (currentChar rd).
        induction (m_stream rd) as [|x r IH]; intros cur; cbn [seek_from];
          destruct (Ascii.eqb cur "]") eqn:E;
          try discriminate; try (intros [= <-]; by apply Ascii.eqb_eq);
          apply IH. }
      unfold endCollection. rewrite skipSpaces_none by (by rewrite Hc).
      cbn [mbind result_bind]. by rewrite Hc.
Qed.

End DelimiterProofs.

Lemma scans_stop_behind_delimiter_witness :
  JSONReader.objectEnd 12 (JSONReader.create "x: 1, y } , z")
  = Ok {| JSONReader.m_stream := ", z"; JSONReader.currentChar := " " |}.
Proof.
  apply (proj1 (proj1 (proj2
           (scans_stop_behind_delimiter 12 (JSONReader.create "x: 1, y } , z")
              {| JSONReader.m_stream := " , z"; JSONReader.currentChar := "}" |}
              ltac:(vm_compute; lia)))
           ltac:(reflexivity))).
Defined.

(* ===================================================================== *)
(** * Objects: from the writer to the reader *)
(* ===================================================================== *)

Section ObjectRoundTripProofs.

Import JSONReader.

Lemma trim_right_app_space (s : string) :
  trim_right (s ++ " ") = trim_right s.
Proof.
  induction s as [|c s IH]; [reflexivity|].
  rewrite string_app_cons. cbn [trim_right]. by rewrite IH.
Qed.

Lemma objectBegin_loop_over (body : string) (acc r : string) (fuel : nat) :
  contains "{" body = false ->
  (String.length body <= fuel)%nat ->
  objectBegin_loop fuel acc (create (body ++ String "{" r))
  = Ok (acc ++ body, {| m_stream := r; currentChar := "{" |}).
Proof.
  revert fuel acc. induction body as [|c body IH]; intros fuel acc Hb Hfuel.
  - change ("" ++ String "{" r) with (String "{" r). rewrite string_app_nil_r.
    destruct fuel; reflexivity.
  - cbn [contains] in Hb. apply orb_false_iff in Hb as [Hc Hb].
    destruct fuel as [|fuel]; [cbn [String.length] in Hfuel; lia|].
    rewrite string_app_cons, create_cons. cbn [objectBegin_loop currentChar].
    rewrite Hc. cbn [negb].
    change (advance {| m_stream := body ++ String "{" r; currentChar := c |})
      with (create (body ++ String "{" r)).
    rewrite IH by (try done; cbn [String.length] in Hfuel; lia).
    by rewrite string_app_assoc.
Qed.

Lemma contains_app (c : ascii) (a b : string) :
  contains c (a ++ b) = contains c a || contains c b.
Proof.
  induction a as [|x a IH]; [reflexivity|].
  rewrite string_app_cons. cbn [contains]. rewrite IH. by rewrite orb_assoc.
Qed.

(** The name, a space and the opening brace, as the writer puts them, are
    read back as the name. *)
Lemma objectBegin_name (name r : string) (fuel : nat) :
  plain_type_name name = true ->
  (S (String.length name) <= fuel)%nat ->
  objectBegin fuel (create (name ++ " {" ++ r))
  = Ok (name, create r).
Proof.
  unfold plain_type_name. intros Hname Hfuel.
  apply andb_true_iff in Hname as [Hname Hfirst].
  apply andb_true_iff in Hname as [Hbrace Htrim].
  apply negb_true_iff in Hbrace. apply String.eqb_eq in Htrim.
  assert (Hloop : forall rd0,
             rd0 = create ((name ++ " ") ++ String "{" r) ->
             objectBegin_loop fuel "" rd0
             = Ok ("" ++ name ++ " ", {| m_stream := r; currentChar := "{" |})).
  { intros rd0 ->. apply objectBegin_loop_over.
    - rewrite contains_app, Hbrace. reflexivity.
    - rewrite string_length_app. cbn [String.length]. lia. }
  change (name ++ " {" ++ r) with (name ++ String " " (String "{" r)).
  unfold objectBegin. destruct name as [|c name].
  - change ("" ++ String " " (String "{" r)) with (" " ++ String "{" r).
    rewrite skipSpaces_over by (try done; lia).
    cbn [mbind result_bind]. destruct fuel; reflexivity.
  - unfold token_char in Hfirst. apply negb_true_iff in Hfirst.
    rewrite skipSpaces_none by (by rewrite string_app_cons, create_cons).
    cbn [mbind result_bind].
    rewrite (Hloop _) by (by rewrite string_app_assoc).
    cbn [mbind result_bind]. f_equal. f_equal.
    change ("" ++ String c name ++ " ") with (String c name ++ " ").
    unfold trim in *.
    assert (Hws : isspace c = false).
    { unfold separator in Hfirst. by apply orb_false_iff in Hfirst as [? _]. }
    rewrite string_app_cons. cbn [skip_ws] in Htrim |- *. rewrite Hws in *.
    rewrite <- string_app_cons, trim_right_app_space. exact Htrim.
Qed.

Lemma skipColon_none (fuel : nat) (rd : t) :
  Ascii.eqb (currentChar rd) ":" = false -> skipColon fuel rd = Ok rd.
Proof. intros H. destruct fuel; cbn [skipColon]; by rewrite H. Qed.

Variable typeid_name : ctype -> string.

(** X9. The type name that the writer's [objectBegin] puts on an empty
    stream is what the reader's [objectBegin] returns, and the reader is
    left on the newline behind the brace, provided the name holds no
    opening brace, does not start with a separator and has no white space
    at its ends. *)
Theorem objectBegin_reads_written_name (mt : Metatype)
    (need_nl0 col_need_nl0 : bool) (rest : string) (fuel : nat) :
  plain_type_name (typeid_name (typeInfo mt)) = true ->
  (S (String.length (typeid_name (typeInfo mt))) <= fuel)%nat ->
  objectBegin fuel
    (create (JSONWriter.m_stream
               (JSONWriter.objectBegin typeid_name mt
                  (JSONWriter.create need_nl0 col_need_nl0)) ++ rest))
  = Ok (typeid_name (typeInfo mt), create (JSONWriter.nl ++ rest)).
Proof.
  intros Hname Hfuel.
  unfold JSONWriter.objectBegin, JSONWriter.put, JSONWriter.set_need_nl,
    JSONWriter.set_indentLevel, JSONWriter.create.
  cbn [JSONWriter.m_stream]. change ("" ++ ?x) with x.
  rewrite !string_app_assoc.
  by apply objectBegin_name.
Qed.

Context {any Instance World : Type} `{ML : !MetaLayer any Instance World}.

(** The text of an object that has nothing but its identity marker. *)
Lemma identified_object_text (mt : Metatype) (id : string)
    (need_nl0 col_need_nl0 : bool) :
  JSONWriter.m_stream
    (JSONWriter.objectEnd mt
       (JSONWriter.writeObjectId id
          (JSONWriter.objectBegin typeid_name mt
             (JSONWriter.create need_nl0 col_need_nl0))))
  = typeid_name (typeInfo mt) ++ " {"
    ++ (JSONWriter.nl ++ JSONWriter.tab)
    ++ String dquote ("$id" ++ String dquote (": "
         ++ String dquote (id ++ String dquote (JSONWriter.nl ++ "}")))).
Proof.
  set (name := typeid_name (typeInfo mt)).
  assert (H1 : JSONWriter.objectBegin typeid_name mt
                 (JSONWriter.create need_nl0 col_need_nl0)
               = JSONWriter.mk ("" ++ name ++ " {" ++ JSONWriter.nl)
                   false col_need_nl0 1)
    by reflexivity.
  rewrite H1. clear H1.
  assert (H2 : forall text,
             JSONWriter.writeObjectId id (JSONWriter.mk text false col_need_nl0 1)
             = JSONWriter.mk
                 ((text ++ JSONWriter.tabs 1)
                  ++ JSONWriter.quote ++ "$id" ++ JSONWriter.quote ++ ": "
                  ++ JSONWriter.quote ++ id ++ JSONWriter.quote)
                 true col_need_nl0 1)
    by reflexivity.
  rewrite H2. clear H2.
  assert (H3 : forall text,
             JSONWriter.objectEnd mt (JSONWriter.mk text true col_need_nl0 1)
             = JSONWriter.mk (((text ++ JSONWriter.nl) ++ JSONWriter.tabs 0) ++ "}")
                 true col_need_nl0 0)
    by reflexivity.
  rewrite H3. clear H3.
  cbn [JSONWriter.m_stream JSONWriter.tabs]. change ("" ++ ?x) with x.
  rewrite !string_app_nil_r, !string_app_assoc. reflexivity.
Qed.

(** X10. An object that the writer emitted with its identity marker and no
    property is read back without a trace: [readObject] consumes the text
    up to and including the closing brace, returns the instance it was
    given, or the one it has created for a null instance, and leaves the
    store of application objects as it was after that creation.  The id
    itself is dropped.  The type name must be one that [objectBegin]
    returns unchanged, and the id must hold neither quote nor backslash,
    since the writer does not escape it. *)
Theorem readObject_identified_empty_object (mt : Metatype) (mtref : MetatypeRef)
    (id rest : string) (need_nl0 col_need_nl0 : bool)
    (instance : option Instance) (obj : Instance) (w w' : World) (fuel : nat) :
  plain_type_name (typeid_name (typeInfo mt)) = true ->
  all_chars plain_char id = true ->
  (String.length (typeid_name (typeInfo mt)) + String.length id + 4 <= fuel)%nat ->
  match instance with
  | Some i => Ok (i, w)
  | None => create_by_name (typeid_name (typeInfo mt)) w
  end = Ok (obj, w') ->
  readObject fuel mtref instance
    (create
       (JSONWriter.m_stream
          (JSONWriter.objectEnd mt
             (JSONWriter.writeObjectId id
                (JSONWriter.objectBegin typeid_name mt
                   (JSONWriter.create need_nl0 col_need_nl0)))) ++ rest))
    w
  = Ok (any_of_instance obj, create rest, w').
Proof.
  intros Hname Hid Hfuel Hinst.
  rewrite identified_object_text.
  set (name := typeid_name (typeInfo mt)) in *.
  set (tl3 := JSONWriter.nl ++ String "}" rest).
  set (tl2 := ": " ++ String dquote (id ++ String dquote tl3)).
  set (tl1 := "$id" ++ String dquote tl2).
  assert (Htext : (name ++ " {"
                   ++ (JSONWriter.nl ++ JSONWriter.tab)
                   ++ String dquote ("$id" ++ String dquote (": "
                        ++ String dquote (id ++ String dquote (JSONWriter.nl ++ "}")))))
                  ++ rest
                  = name ++ " {" ++ ((JSONWriter.nl ++ JSONWriter.tab) ++ String dquote tl1)).
  { unfold tl1, tl2, tl3.
    repeat (rewrite string_app_assoc || rewrite string_app_cons).
    reflexivity. }
  rewrite Htext. clear Htext.
  unfold readObject.
  rewrite objectBegin_name by (try done; lia).
  cbn [mbind result_bind]. fold name. rewrite Hinst. cbn [mbind result_bind].
  (* the loop: one marker, then the closing brace *)
  destruct fuel as [|fuel]; [lia|].
  cbn [readObject_loop]. unfold endObject at 1.
  rewrite skipSpaces_over by (try done; vm_compute String.length; lia).
  cbn [mbind result_bind currentChar].
  change (Ascii.eqb dquote "}") with false. cbn [negb].
  unfold readProperty.
  change {| m_stream := tl1; currentChar := dquote |}
    with (create ("" ++ String dquote ("$id" ++ String dquote tl2))).
  rewrite (getToken_quoted_text "" "$id" tl2) by (try done; vm_compute String.length; lia).
  cbn [mbind result_bind].
  change (create tl2)
    with {| m_stream := " " ++ String dquote (id ++ String dquote tl3);
            currentChar := ":" |}.
  cbn [skipColon currentChar]. change (Ascii.eqb ":" ":") with true. cbn match.
  change (advance {| m_stream := " " ++ String dquote (id ++ String dquote tl3);
                     currentChar := ":" |})
    with (create (" " ++ String dquote (id ++ String dquote tl3))).
  rewrite skipColon_none by reflexivity.
  cbn [mbind result_bind]. change (String.eqb "$id" "$id") with true. cbn match.
  rewrite (getToken_quoted_text " " id tl3) by (try done; cbn [String.length]; lia).
  cbn [mbind result_bind].
  (* second round of the loop *)
  assert (Hend : forall f, (1 <= f)%nat ->
             endObject f (create tl3)
             = Ok (true, {| m_stream := rest; currentChar := "}" |})).
  { intros f Hf. unfold endObject, tl3.
    rewrite skipSpaces_over by (try done; vm_compute String.length; lia). reflexivity. }
  destruct fuel as [|fuel]; [lia|].
  cbn [readObject_loop]. rewrite Hend by lia. cbn [mbind result_bind negb].
  unfold objectEnd.
  assert (Hloop : objectEnd_loop (S (S fuel))
                    {| m_stream := rest; currentChar := "}" |}
                  = Ok {| m_stream := rest; currentChar := "}" |}).
  { cbn [objectEnd_loop]. unfold endObject.
    rewrite skipSpaces_none by reflexivity. reflexivity. }
  rewrite Hloop. reflexivity.
Qed.

End ObjectRoundTripProofs.

Lemma objectBegin_reads_written_name_witness :
  JSONReader.objectBegin 6
    (JSONReader.create
       (JSONWriter.m_stream
          (JSONWriter.objectBegin gxx_typeid_name Node_metatype
             (JSONWriter.create false false)) ++ "}"))
  = Ok ("4Node", JSONReader.create (JSONWriter.nl ++ "}")).
Proof.
  apply (objectBegin_reads_written_name gxx_typeid_name Node_metatype
           false false "}" 6); [reflexivity|].
  vm_compute. lia.
Defined.

Lemma readObject_identified_empty_object_witness :
  JSONReader.readObject 12 tt None
    (JSONReader.create
       (JSONWriter.m_stream
          (JSONWriter.objectEnd Node_metatype
             (JSONWriter.writeObjectId "0"
                (JSONWriter.objectBegin gxx_typeid_name Node_metatype
                   (JSONWriter.create false false)))) ++ ","))
    world_with_object_0
  = Ok (holds_pointer (Some 1%nat), JSONReader.create ",",
        <[1%nat := None]> world_with_object_0).
Proof.
  apply (readObject_identified_empty_object gxx_typeid_name (ML := sample_layer)
           Node_metatype tt "0" "," false false None 1%nat
           world_with_object_0 (<[1%nat := None]> world_with_object_0) 12);
    [reflexivity | reflexivity | vm_compute; lia | reflexivity].
Defined.

(* ===================================================================== *)
(** * The writer under sequences of calls *)
(* ===================================================================== *)

Section WriterCallProofs.

Import JSONWriter.

Variable typeid_name : ctype -> string.
Variable numToStr : Z -> string.

Local Abbreviation exec := (JSONWriter.exec typeid_name numToStr).
Local Abbreviation exec_all := (JSONWriter.exec_all typeid_name numToStr).

Lemma put_stream (s : string) (w : t) : m_stream (put s w) = m_stream w ++ s.
Proof. reflexivity. Qed.

Lemma indent_stream (w : t) :
  m_stream (indent w) = m_stream w ++ tabs (Z.to_nat (indentLevel w)).
Proof. reflexivity. Qed.

(** What one call does to the text and to the level. *)
Lemma exec_appends (c : call) (w : t) :
  exists text, m_stream (exec c w) = m_stream w ++ text.
Proof.
  destruct c; cbn [JSONWriter.exec].
  - eexists. apply put_stream.
  - eexists. apply put_stream.
  - eexists. apply put_stream.
  - unfold propertyBegin. destruct (need_nl w).
    + exists (("," ++ nl) ++ tabs (Z.to_nat (indentLevel w))
              ++ quote ++ propName ++ quote ++ ": ").
      rewrite put_stream, indent_stream. cbn [m_stream set_need_nl put indentLevel].
      by rewrite !string_app_assoc.
    + exists (tabs (Z.to_nat (indentLevel w)) ++ quote ++ propName ++ quote ++ ": ").
      rewrite put_stream, indent_stream. cbn [m_stream set_need_nl indentLevel].
      by rewrite !string_app_assoc.
  - exists "". by rewrite string_app_nil_r.
  - exists (("[" ++ nl) ++ tabs (Z.to_nat (indentLevel w + 1))).
    unfold collectionBegin. rewrite indent_stream.
    cbn [m_stream set_indentLevel set_col_need_nl put indentLevel].
    by rewrite !string_app_assoc.
  - exists (nl ++ tabs (Z.to_nat (indentLevel w - 1)) ++ "]").
    unfold collectionEnd. rewrite put_stream, indent_stream.
    cbn [m_stream set_indentLevel put indentLevel].
    by rewrite !string_app_assoc.
  - unfold elementBegin. destruct (col_need_nl w).
    + exists (("," ++ nl) ++ tabs (Z.to_nat (indentLevel w))).
      cbn [m_stream set_col_need_nl]. rewrite indent_stream.
      cbn [m_stream put indentLevel]. by rewrite !string_app_assoc.
    + exists "". cbn [m_stream set_col_need_nl]. by rewrite string_app_nil_r.
  - exists "". by rewrite string_app_nil_r.
  - eexists. apply put_stream.
  - exists (tabs (Z.to_nat (indentLevel w))
            ++ quote ++ "$id" ++ quote ++ ": " ++ quote ++ objId ++ quote).
    unfold writeObjectId. rewrite put_stream.
    cbn [m_stream set_need_nl]. rewrite indent_stream.
    by rewrite !string_app_assoc.
  - exists (tabs (Z.to_nat (indentLevel w))
            ++ quote ++ "$ref" ++ quote ++ ": " ++ quote ++ objId ++ quote).
    unfold writeObjectRef. rewrite put_stream.
    cbn [m_stream set_need_nl]. rewrite indent_stream.
    by rewrite !string_app_assoc.
  - exists (typeid_name (typeInfo mt) ++ " {" ++ nl). reflexivity.
  - exists (nl ++ tabs (Z.to_nat (indentLevel w - 1)) ++ "}").
    unfold objectEnd. cbn [m_stream set_need_nl]. rewrite put_stream, indent_stream.
    cbn [m_stream set_indentLevel put indentLevel].
    by rewrite !string_app_assoc.
Qed.

Lemma exec_level (c : call) (w : t) :
  indentLevel (exec c w) = indentLevel w + level_change c.
Proof.
  destruct c; cbn [JSONWriter.exec level_change];
    unfold writeBool, writeInt, writeString, propertyBegin, propertyEnd,
      collectionBegin, collectionEnd, elementBegin, elementEnd, writeNullPtr,
      writeObjectId, writeObjectRef, objectBegin, objectEnd;
    try destruct (need_nl w); try destruct (col_need_nl w);
    cbn [indentLevel indent put set_need_nl set_col_need_nl set_indentLevel];
    lia.
Qed.

Lemma exec_all_cons (c : call) (cs : list call) (w : t) :
  exec_all (c :: cs) w = exec_all cs (exec c w).
Proof. reflexivity. Qed.

Lemma exec_all_appends (cs : list call) (w : t) :
  exists text, m_stream (exec_all cs w) = m_stream w ++ text.
Proof.
  revert w. induction cs as [|c cs IH]; intros w.
  - exists "". cbn. by rewrite string_app_nil_r.
  - rewrite exec_all_cons. destruct (IH (exec c w)) as [t2 H2].
    destruct (exec_appends c w) as [t1 H1].
    exists (t1 ++ t2). by rewrite H2, H1, string_app_assoc.
Qed.

Lemma exec_all_level (cs : list call) (w : t) :
  indentLevel (exec_all cs w) = indentLevel w + level_changes cs.
Proof.
  revert w. induction cs as [|c cs IH]; intros w.
  - cbn. lia.
  - rewrite exec_all_cons, IH, exec_level. cbn [level_changes foldr].
    unfold level_changes. lia.
Qed.

(** X11. Whatever calls the writer receives, in whatever order, the text
    in the stream only grows at its end, and [indentLevel] is its old
    value plus the number of begin markers of objects and collections
    minus the number of their end markers. *)
Theorem writer_calls_append_and_count (cs : list call) (w : t) :
  (exists text, m_stream (exec_all cs w) = m_stream w ++ text)
  /\ indentLevel (exec_all cs w) = indentLevel w + level_changes cs.
Proof. split; [apply exec_all_appends | apply exec_all_level]. Qed.

(** X12. The closing brace lines up with the object's begin: when the
    calls between [objectBegin] and [objectEnd] open as many objects and
    collections as they close, [objectEnd] writes a newline, as many tabs
    as the level at which [objectBegin] was called, and the brace; the
    level is back at that value and a comma is due before the next
    property. *)
Theorem objectEnd_closes_at_level_of_begin (mt mt' : Metatype)
    (cs : list call) (w : t) :
  level_changes cs = 0 ->
  let inside := exec_all cs (objectBegin typeid_name mt w) in
  m_stream (objectEnd mt' inside)
  = m_stream inside ++ nl ++ tabs (Z.to_nat (indentLevel w)) ++ "}"
  /\ indentLevel (objectEnd mt' inside) = indentLevel w
  /\ need_nl (objectEnd mt' inside) = true.
Proof.
  intros Hbal inside.
  assert (Hlevel : indentLevel inside = indentLevel w + 1).
  { unfold inside. rewrite exec_all_level, Hbal.
    unfold objectBegin. cbn [indentLevel set_indentLevel put set_need_nl]. lia. }
  unfold objectEnd.
  cbn [m_stream set_need_nl indentLevel need_nl].
  rewrite put_stream, indent_stream.
  cbn [m_stream set_indentLevel put indentLevel].
  rewrite Hlevel.
  replace (indentLevel w + 1 - 1) with (indentLevel w) by lia.
  by rewrite !string_app_assoc.
Qed.

(** X13. The flag [col_need_nl] is one member for all nesting levels.
    [collectionBegin] clears it, and nothing sets it again but
    [elementBegin]: after a collection without elements, written as an
    element of an outer collection, the next [elementBegin] of the outer
    collection writes no comma.  After an inner collection with an element
    it writes the comma, the newline and the indentation. *)
Theorem empty_inner_collection_drops_comma (w : t) (value : Z) :
  let empty_inner := collectionEnd (collectionBegin (elementBegin w)) in
  let filled_inner :=
    collectionEnd
      (elementEnd (writeInt numToStr value
         (elementBegin (collectionBegin (elementBegin w))))) in
  m_stream (elementBegin empty_inner) = m_stream empty_inner
  /\ m_stream (elementBegin filled_inner)
     = m_stream filled_inner ++ "," ++ nl ++ tabs (Z.to_nat (indentLevel w)).
Proof.
  cbn zeta. split; [reflexivity|].
  set (inner := collectionEnd _).
  assert (Hflag : col_need_nl inner = true) by reflexivity.
  assert (Hlevel : indentLevel inner = indentLevel w).
  { change inner
      with (exec_all [ElementBegin; CollectionBegin; ElementBegin; WriteInt value;
                      ElementEnd; CollectionEnd] w).
    rewrite exec_all_level. cbn [level_changes foldr level_change]. lia. }
  unfold elementBegin. rewrite Hflag.
  cbn [m_stream set_col_need_nl]. rewrite indent_stream.
  cbn [indentLevel put m_stream]. rewrite Hlevel.
  by rewrite !string_app_assoc.
Qed.

End WriterCallProofs.

Lemma objectEnd_closes_at_level_of_begin_witness :
  JSONWriter.m_stream
    (JSONWriter.objectEnd Node_metatype
       (JSONWriter.exec_all gxx_typeid_name pretty
          [JSONWriter.PropertyBegin "next" Node_metatype;
           JSONWriter.ObjectBegin Node_metatype;
           JSONWriter.ObjectEnd Node_metatype;
           JSONWriter.PropertyEnd]
          (JSONWriter.objectBegin gxx_typeid_name Node_metatype
             (JSONWriter.create false false))))
  = JSONWriter.m_stream
      (JSONWriter.exec_all gxx_typeid_name pretty
          [JSONWriter.PropertyBegin "next" Node_metatype;
           JSONWriter.ObjectBegin Node_metatype;
           JSONWriter.ObjectEnd Node_metatype;
           JSONWriter.PropertyEnd]
          (JSONWriter.objectBegin gxx_typeid_name Node_metatype
             (JSONWriter.create false false)))
    ++ JSONWriter.nl ++ "}".
Proof.
  apply (objectEnd_closes_at_level_of_begin gxx_typeid_name pretty
           Node_metatype Node_metatype
           [JSONWriter.PropertyBegin "next" Node_metatype;
            JSONWriter.ObjectBegin Node_metatype;
            JSONWriter.ObjectEnd Node_metatype;
            JSONWriter.PropertyEnd]
           (JSONWriter.create false false)).
  reflexivity.
Defined.

(* ===================================================================== *)
(** * Properties: from the writer to the reader *)
(* ===================================================================== *)

Section PropertyRoundTripProofs.

Import JSONReader.

Context {any Instance World : Type} `{ML : !MetaLayer any Instance World}.

Lemma all_chars_app (p : ascii -> bool) (a b : string) :
  all_chars p (a ++ b) = all_chars p a && all_chars p b.
Proof.
  induction a as [|c a IH]; [reflexivity|].
  rewrite string_app_cons. cbn [all_chars]. by rewrite IH, andb_assoc.
Qed.

Lemma tabs_separators (n : nat) : all_chars separator (JSONWriter.tabs n) = true.
Proof.
  induction n as [|n IH]; [reflexivity|].
  cbn [JSONWriter.tabs]. by rewrite all_chars_app, IH.
Qed.

Lemma tabs_length (n : nat) : String.length (JSONWriter.tabs n) = n.
Proof.
  induction n as [|n IH]; [reflexivity|].
  cbn [JSONWriter.tabs]. rewrite string_length_app, IH. reflexivity.
Qed.

(** What [propertyBegin] appends: the comma that is due, the indentation
    and the quoted name. *)
Lemma propertyBegin_text (propName : string) (propMetatype : Metatype)
    (wr : JSONWriter.t) :
  JSONWriter.m_stream (JSONWriter.propertyBegin propName propMetatype wr)
  = JSONWriter.m_stream wr
    ++ ((if JSONWriter.need_nl wr then "," ++ JSONWriter.nl else "")
        ++ JSONWriter.tabs (Z.to_nat (JSONWriter.indentLevel wr)))
    ++ String dquote (propName ++ String dquote (": ")).
Proof.
  unfold JSONWriter.propertyBegin. destruct (JSONWriter.need_nl wr);
    cbn [JSONWriter.m_stream JSONWriter.put JSONWriter.indent
         JSONWriter.set_need_nl JSONWriter.indentLevel];
    unfold JSONWriter.quote;
    repeat (rewrite string_app_assoc || rewrite string_app_cons);
    reflexivity.
Qed.

(** X14. What [propertyBegin] writes on an empty stream is read by
    [readProperty] as the name of the property: the comma and the
    indentation are skipped, and the property's reader starts on the blank
    behind the colon.  From there [readProperty] looks the property up,
    reads the value over the present one, and calls [set] when the value
    read is not empty, the property is not of a collection type and it is
    writable; otherwise the store is the one the value's reader left.  The
    name must hold neither quote nor backslash, since the writer does not
    escape it, and must not be one of the two markers. *)
Theorem readProperty_written_property (mt : MetatypeRef) (instance : Instance)
    (w : World) (propName rest : string) (propMetatype : Metatype)
    (wr : JSONWriter.t) (fuel : nat) :
  JSONWriter.m_stream wr = "" ->
  all_chars plain_char propName = true ->
  propName <> "$id" -> propName <> "$ref" ->
  (2 + Z.to_nat (JSONWriter.indentLevel wr) + String.length propName <= fuel)%nat ->
  readProperty fuel mt instance
    (create (JSONWriter.m_stream
               (JSONWriter.propertyBegin propName propMetatype wr) ++ rest)) w
  = prop ← property mt propName;
    value ← prop_get prop instance w;
    '(mod_, rd, w1) ← prop_metatype_read prop fuel value (create (" " ++ rest)) w;
    if negb (any_is_empty mod_) && negb (prop_metatype_isCollection prop)
       && prop_isWritable prop
    then w2 ← prop_set prop instance mod_ w1; Ok (any_empty, rd, w2)
    else Ok (any_empty, rd, w1).
Proof.
  intros Hempty Hname Hid Href Hfuel.
  rewrite propertyBegin_text, Hempty.
  change ("" ++ ?x) with x.
  set (lead := (if JSONWriter.need_nl wr then "," ++ JSONWriter.nl else "")
               ++ JSONWriter.tabs (Z.to_nat (JSONWriter.indentLevel wr))).
  assert (Hlead : all_chars separator lead = true).
  { unfold lead. rewrite all_chars_app, tabs_separators.
    by destruct (JSONWriter.need_nl wr). }
  assert (Hlen : (String.length lead
                  <= 2 + Z.to_nat (JSONWriter.indentLevel wr))%nat).
  { unfold lead. rewrite string_length_app, tabs_length.
    destruct (JSONWriter.need_nl wr);
      [change (String.length ("," ++ JSONWriter.nl)) with 2%nat
      |change (String.length "") with 0%nat]; lia. }
  assert (Htext : (lead ++ String dquote (propName ++ String dquote ": ")) ++ rest
                  = lead ++ String dquote (propName ++ String dquote (": " ++ rest))).
  { repeat (rewrite string_app_assoc || rewrite string_app_cons). reflexivity. }
  rewrite Htext. clear Htext.
  unfold readProperty.
  rewrite getToken_quoted_text by (try done; lia).
  cbn [mbind result_bind].
  destruct fuel as [|fuel]; [lia|].
  change (create (": " ++ rest))
    with {| m_stream := " " ++ rest; currentChar := ":" |}.
  cbn [skipColon currentChar]. change (Ascii.eqb ":" ":") with true. cbn match.
  change (advance {| m_stream := " " ++ rest; currentChar := ":" |})
    with (create (" " ++ rest)).
  rewrite skipColon_none by reflexivity.
  cbn [mbind result_bind].
  apply String.eqb_neq in Hid, Href. rewrite Hid, Href.
  reflexivity.
Qed.

End PropertyRoundTripProofs.

Lemma readProperty_written_property_witness :
  JSONReader.readProperty (ML := sample_layer) 12 tt 0%nat
    (JSONReader.create
       (JSONWriter.m_stream
          (JSONWriter.propertyBegin "next" Node_metatype
             (JSONWriter.create true false))
        ++ "NULL" ++ JSONWriter.nl ++ "}"))
    {[ 0%nat := Some 0%nat ]}
  = Ok (holds_nothing,
        {| JSONReader.m_stream := "}"; JSONReader.currentChar := ch_n |},
        {[ 0%nat := None ]}).
Proof.
  refine (eq_trans
            (readProperty_written_property (ML := sample_layer) tt 0%nat
               {[ 0%nat := Some 0%nat ]} "next" ("NULL" ++ JSONWriter.nl ++ "}")
               Node_metatype (JSONWriter.create true false) 12 _ _ _ _ _) _);
    [reflexivity | reflexivity | discriminate | discriminate
    | vm_compute; lia | vm_compute; reflexivity].
Defined.

(* ===================================================================== *)
(** * Bindings of a typed property *)
(* ===================================================================== *)

Section BindingProofs.

Import TypedProperty.

Context {ClassT PropT any : Type}.
Variable any_cast : any -> option PropT.
Variable any_of : PropT -> any.
Variable nameOf_PropT : string.

Local Abbreviation prop := (@t ClassT PropT).

Lemma land_lor_bit (mode m bit : Z) :
  Z.land mode bit <> 0 -> Z.land (Z.lor mode m) bit <> 0.
Proof.
  intros H Hz. rewrite Z.land_lor_distr_l in Hz.
  apply Z.lor_eq_0_iff in Hz as [Hz _]. contradiction.
Qed.

Lemma setMode_keeps_readable (m : Z) (p : prop) :
  isReadable p = true -> isReadable (setMode m p) = true.
Proof.
  unfold isReadable, Property.isReadable. cbn [base setMode Property._mode Property.setMode].
  intros H. apply negb_true_iff, Z.eqb_neq in H.
  apply negb_true_iff, Z.eqb_neq. by apply land_lor_bit.
Qed.

Lemma setMode_keeps_writable (m : Z) (p : prop) :
  isWritable p = true -> isWritable (setMode m p) = true.
Proof.
  unfold isWritable, Property.isWritable. cbn [base setMode Property._mode Property.setMode].
  intros H. apply negb_true_iff, Z.eqb_neq in H.
  apply negb_true_iff, Z.eqb_neq. by apply land_lor_bit.
Qed.

Lemma configure_base (b : binding) (p : prop) :
  exists ms : list Z,
    base (configure b p) = base (foldl (fun p m => setMode m p) p ms).
Proof.
  destruct b as [[f|]|m|[g|]]; cbn [configure setter setter_member getter base].
  - by exists [Property.Writable].
  - by exists [].
  - by exists [Property.Writable; Property.Readable].
  - by exists [Property.Readable].
  - by exists [].
Qed.

Lemma setModes_keep (ms : list Z) (p : prop) :
  (isReadable p = true -> isReadable (foldl (fun p m => setMode m p) p ms) = true)
  /\ (isWritable p = true -> isWritable (foldl (fun p m => setMode m p) p ms) = true).
Proof.
  revert p. induction ms as [|m ms IH]; intros p; [done|].
  cbn [foldl]. destruct (IH (setMode m p)) as [IHr IHw]. split; intros H.
  - by apply IHr, setMode_keeps_readable.
  - by apply IHw, setMode_keeps_writable.
Qed.

Lemma configure_keeps (b : binding) (p : prop) :
  (isReadable p = true -> isReadable (configure b p) = true)
  /\ (isWritable p = true -> isWritable (configure b p) = true).
Proof.
  destruct (configure_base b p) as [ms Hb].
  unfold isReadable, isWritable in *. rewrite Hb. apply setModes_keep.
Qed.

Lemma configure_all_keeps (bs : list binding) (p : prop) :
  (isReadable p = true -> isReadable (configure_all bs p) = true)
  /\ (isWritable p = true -> isWritable (configure_all bs p) = true).
Proof.
  revert p. induction bs as [|b bs IH]; intros p; [done|].
  change (configure_all (b :: bs) p) with (configure_all bs (configure b p)).
  destruct (IH (configure b p)) as [IHr IHw].
  destruct (configure_keeps b p) as [Hr Hw]. split; intros H; auto.
Qed.

(** X15. A mode bit that is set stays set.  [setMode] only adds bits, and
    the three binding calls change the mode through [setMode] alone: no
    call and no sequence of binding calls makes a readable property
    unreadable or a writable one unwritable, binding an empty functor
    included. *)
Theorem mode_bits_stay_set (p : prop) :
  (forall m, (isReadable p = true -> isReadable (setMode m p) = true)
             /\ (isWritable p = true -> isWritable (setMode m p) = true))
  /\ (forall bs,
        (isReadable p = true -> isReadable (configure_all bs p) = true)
        /\ (isWritable p = true -> isWritable (configure_all bs p) = true)).
Proof.
  split.
  - intros m. split; [apply setMode_keeps_readable | apply setMode_keeps_writable].
  - intros bs. apply configure_all_keeps.
Qed.

Lemma setter_writable (f : ClassT -> PropT -> ClassT) (p : prop) :
  isWritable (setter (Some f) p) = true.
Proof.
  unfold isWritable, Property.isWritable.
  cbn [setter base setMode Property.setMode Property._mode].
  apply negb_true_iff, Z.eqb_neq. intros Hz.
  rewrite Z.land_lor_distr_l in Hz. apply Z.lor_eq_0_iff in Hz as [_ Hz].
  discriminate Hz.
Qed.

Lemma setter_member_modes (m : option member) (p : prop) :
  isWritable (setter_member m p) = true /\ isReadable (setter_member m p) = true.
Proof.
  unfold isWritable, isReadable, Property.isWritable, Property.isReadable.
  cbn [setter_member base setMode Property.setMode Property._mode].
  split; apply negb_true_iff, Z.eqb_neq; intros Hz;
    rewrite !Z.land_lor_distr_l in Hz;
    repeat (apply Z.lor_eq_0_iff in Hz as [Hz ?]); discriminate.
Qed.

(** X16. The binding made last decides what [set] does.  A data member
    bound after a setter functor is the one written, a functor bound after
    a data member is the one called; and after an empty functor is bound
    over either of them the property is still writable, so that [set]
    casts the value and then calls the empty functor, which throws
    [bad_function_call]. *)
Theorem last_setter_binding_decides (p : prop) (instance : ClassT)
    (val : any) (x : PropT) (m : member) (f : ClassT -> PropT -> ClassT)
    (earlier : option (ClassT -> PropT -> ClassT)) (earlier_m : option member) :
  any_cast val = Some x ->
  set any_cast (setter_member (Some m) (setter earlier p)) instance val
  = Ok (write_member m instance x)
  /\ set any_cast (setter (Some f) (setter_member earlier_m p)) instance val
     = Ok (f instance x)
  /\ isWritable (setter None (setter (Some f) p)) = true
  /\ set any_cast (setter None (setter (Some f) p)) instance val
     = Throw bad_function_call
  /\ set any_cast (setter None (setter_member earlier_m p)) instance val
     = Throw bad_function_call.
Proof.
  intros Hcast.
  assert (Hw1 : isWritable (setter None (setter (Some f) p)) = true).
  { destruct (configure_keeps (Setter None) (setter (Some f) p)) as [_ H].
    apply H, setter_writable. }
  assert (Hw2 : isWritable (setter None (setter_member earlier_m p)) = true).
  { destruct (configure_keeps (Setter None) (setter_member earlier_m p)) as [_ H].
    apply H, setter_member_modes. }
  repeat split.
  - unfold set. rewrite (proj1 (setter_member_modes _ _)), Hcast. reflexivity.
  - unfold set. rewrite setter_writable, Hcast. reflexivity.
  - exact Hw1.
  - unfold set. rewrite Hw1, Hcast. reflexivity.
  - unfold set. rewrite Hw2, Hcast. reflexivity.
Qed.

(** X17. Binding a data member makes the property readable, yet [get]
    goes through the getter functor in every case: until a getter is
    bound, [get] on a member-bound property throws [bad_function_call],
    while [set] writes the member. *)
Theorem member_binding_reads_through_getter (p : prop) (m : member)
    (instance : ClassT) (val : any) (x : PropT) :
  m_getter p = None ->
  any_cast val = Some x ->
  let q := setter_member (Some m) p in
  isReadable q = true
  /\ get any_of q instance = Throw bad_function_call
  /\ set any_cast q instance val = Ok (write_member m instance x)
  /\ forall g, get any_of (getter (Some g) q) instance = Ok (any_of (g instance)).
Proof.
  intros Hg Hcast q. repeat split.
  - apply setter_member_modes.
  - unfold get, q. cbn [setter_member m_getter setMode]. by rewrite Hg.
  - unfold set, q. rewrite (proj1 (setter_member_modes _ _)), Hcast. reflexivity.
Qed.

Lemma readable_bit_not_writable (mode : Z) :
  Z.land (Z.lor mode Property.Readable) Property.Writable
  = Z.land mode Property.Writable.
Proof.
  rewrite Z.land_lor_distr_l. change (Z.land Property.Readable Property.Writable) with 0.
  apply Z.lor_0_r.
Qed.

Lemma configure_same_but_member (b : binding) (p q : prop) :
  same_but_member p q -> same_but_member (configure b p) (configure b q).
Proof.
  intros (Hb & Hs & Hg & Hm).
  assert (Hgetter : forall g, isWritable (getter g p) = isWritable p).
  { intros [g|]; [|reflexivity]. unfold isWritable, Property.isWritable.
    cbn [getter base setMode Property.setMode Property._mode].
    by rewrite readable_bit_not_writable. }
  destruct b as [f|m|g]; unfold same_but_member; cbn [configure];
    (split; [|split; [|split]]).
  - destruct f; cbn [setter base setMode]; by rewrite Hb.
  - reflexivity.
  - destruct f; cbn [setter m_getter setMode]; exact Hg.
  - reflexivity.
  - cbn [setter_member base setMode]. by rewrite Hb.
  - reflexivity.
  - cbn [setter_member m_getter setMode]. exact Hg.
  - reflexivity.
  - destruct g; cbn [getter base setMode]; by rewrite Hb.
  - destruct g; cbn [getter m_setter setMode]; exact Hs.
  - reflexivity.
  - rewrite Hgetter. intros Hw.
    destruct g; cbn [getter m_dataMember setMode]; by apply Hm.
Qed.

Lemma configure_all_same_but_member (bs : list binding) (p q : prop) :
  same_but_member p q -> same_but_member (configure_all bs p) (configure_all bs q).
Proof.
  revert p q. induction bs as [|b bs IH]; intros p q H; [done|].
  change (configure_all (b :: bs) ?r) with (configure_all bs (configure b r)).
  by apply IH, configure_same_but_member.
Qed.

Lemma same_but_member_get_set (p q : prop) (instance : ClassT) (val : any) :
  same_but_member p q ->
  get any_of p instance = get any_of q instance
  /\ set any_cast p instance val = set any_cast q instance val.
Proof.
  intros (Hb & Hs & Hg & Hm). split.
  - unfold get. by rewrite Hg.
  - unfold set. replace (isWritable q) with (isWritable p)
      by (unfold isWritable; by rewrite Hb).
    destruct (isWritable p) eqn:Hw; [|done].
    unfold internal_set. by rewrite Hm, Hs.
Qed.

(** X18. The constructor leaves [m_dataMember] uninitialised.  As long as
    the property is configured through [setter] and [getter] only, that
    value is never looked at: [get] and [set] give the same result
    whatever it was.  [setMode] is public as well; a property made
    writable through it, with nothing bound, does hand the uninitialised
    pointer to [set]. *)
Theorem uninitialised_member_is_never_read (bs : list binding)
    (d0 d1 : option member) (instance : ClassT) (val : any) :
  (get any_of (configure_all bs (create nameOf_PropT d0)) instance
   = get any_of (configure_all bs (create nameOf_PropT d1)) instance
   /\ set any_cast (configure_all bs (create nameOf_PropT d0)) instance val
      = set any_cast (configure_all bs (create nameOf_PropT d1)) instance val)
  /\ forall x, any_cast val = Some x ->
       set any_cast (setMode Property.Writable (create nameOf_PropT d0)) instance val
       = match d0 with
         | Some m => Ok (write_member m instance x)
         | None => Throw bad_function_call
         end.
Proof.
  split.
  - apply same_but_member_get_set, configure_all_same_but_member.
    unfold same_but_member. cbn [create base m_setter m_getter m_dataMember].
    repeat split. discriminate.
  - intros x Hcast. unfold set.
    change (isWritable (setMode Property.Writable (create nameOf_PropT d0))) with true.
    cbn match. rewrite Hcast. unfold internal_set.
    cbn [setMode create m_dataMember m_setter]. by destruct d0.
Qed.

End BindingProofs.

Lemma mode_bits_stay_set_witness :
  let p := TypedProperty.setter_member (Some counter_member)
             (TypedProperty.create "int" None) in
  TypedProperty.isWritable
    (TypedProperty.configure_all
       [TypedProperty.Setter None; TypedProperty.Getter None] p) = true.
Proof.
  intros p.
  apply (proj2 (proj2 (mode_bits_stay_set p)
                  [TypedProperty.Setter None; TypedProperty.Getter None])).
  reflexivity.
Defined.

Lemma last_setter_binding_decides_witness :
  TypedProperty.set (fun v : Z => Some v)
    (TypedProperty.setter None
       (TypedProperty.setter (Some counter_add) (TypedProperty.create "int" None)))
    23 42
  = Throw bad_function_call.
Proof.
  apply (last_setter_binding_decides (fun v : Z => Some v)
           (TypedProperty.create "int" None) 23 42 42 counter_member counter_add
           None None).
  reflexivity.
Defined.

Lemma member_binding_reads_through_getter_witness :
  TypedProperty.get (fun v : Z => v)
    (TypedProperty.setter_member (Some counter_member)
       (TypedProperty.create "int" None)) 23
  = Throw bad_function_call.
Proof.
  apply (member_binding_reads_through_getter (fun v : Z => Some v) (fun v : Z => v)
           (TypedProperty.create "int" None) counter_member 23 42 42);
    reflexivity.
Defined.

Lemma uninitialised_member_is_never_read_witness :
  TypedProperty.set (fun v : Z => Some v)
    (TypedProperty.setMode Property.Writable
       (TypedProperty.create "int" (Some counter_member))) 23 42
  = Ok 42.
Proof.
  apply (proj2 (uninitialised_member_is_never_read (fun v : Z => Some v)
                  (fun v : Z => v) "int" [] (Some counter_member) None 23 42) 42).
  reflexivity.
Defined.

(* ===================================================================== *)
(** * Annotations *)
(* ===================================================================== *)

Section AnnotationProofs.

Import AnnotationList.

Variable is_a_T : Annotation -> bool.

Lemma getAll_loop_filter (m : list Annotation) (v : list Annotation) :
  getAll_loop is_a_T m v = (v ++ filter (fun a => is_a_T a = true) m)%list.
Proof.
  revert v. induction m as [|it rest IH]; intros v.
  - change (filter _ []) with (@nil Annotation). by rewrite app_nil_r.
  - destruct (is_a_T it) eqn:Hit.
    + rewrite filter_cons_True by done.
      cbn [getAll_loop]. rewrite Hit, IH. by rewrite <- app_assoc.
    + rewrite filter_cons_False by (by rewrite Hit).
      cbn [getAll_loop]. by rewrite Hit, IH.
Qed.

Lemma getFirst_head (m : list Annotation) :
  getFirst is_a_T m = head (filter (fun a => is_a_T a = true) m).
Proof.
  induction m as [|it rest IH]; [reflexivity|].
  destruct (is_a_T it) eqn:Hit.
  - rewrite filter_cons_True by done. cbn [getFirst]. by rewrite Hit.
  - rewrite filter_cons_False by (by rewrite Hit). cbn [getFirst]. by rewrite Hit.
Qed.

(** X19. The three queries of an annotation container agree with each
    other and with the order of insertion.  [getAll] returns the
    annotations of the asked class in the order in which [operator <<]
    added them; [getFirst] returns the first of these, and null exactly
    when there is none; [has] answers whether there is one; and adding an
    annotation puts it behind all earlier ones, so that it changes the
    answer of [getFirst] only when there was none of its class before. *)
Theorem annotation_queries_agree (m : list Annotation) (a : Annotation) :
  getAll is_a_T m = filter (fun a => is_a_T a = true) m
  /\ getFirst is_a_T m = head (getAll is_a_T m)
  /\ (has is_a_T m = true <-> getAll is_a_T m <> [])
  /\ getAll is_a_T (push a m)
     = (getAll is_a_T m ++ if is_a_T a then [a] else [])%list
  /\ getFirst is_a_T (push a m)
     = match getFirst is_a_T m with
       | Some first => Some first
       | None => if is_a_T a then Some a else None
       end.
Proof.
  assert (Hall : forall m' : list Annotation,
             getAll is_a_T m' = filter (fun a => is_a_T a = true) m').
  { intros m'. unfold getAll. by rewrite getAll_loop_filter. }
  assert (Hpush : filter (fun a => is_a_T a = true) (push a m : list Annotation)
                  = (filter (fun a => is_a_T a = true) m
                     ++ if is_a_T a then [a] else [])%list).
  { unfold push. rewrite filter_app. f_equal.
    destruct (is_a_T a) eqn:Ha.
    - by rewrite filter_cons_True.
    - by rewrite filter_cons_False by (by rewrite Ha). }
  repeat split.
  - apply Hall.
  - by rewrite Hall, getFirst_head.
  - unfold has. rewrite getFirst_head, Hall.
    by destruct (filter _ m).
  - unfold has. rewrite getFirst_head, Hall.
    by destruct (filter _ m).
  - by rewrite !Hall, Hpush.
  - rewrite !getFirst_head, Hpush.
    destruct (filter _ m); [|done]. by destruct (is_a_T a).
Qed.

End AnnotationProofs.

(* ===================================================================== *)
(** * Collections: text, failures and the static copy *)
(* ===================================================================== *)

Section CollectionTextProofs.

Import Metacollection.

Context {value_type any : Type}.
Variable elem_toStr : value_type -> bool -> string.
Variable elem_fromStr : string -> result any.
Variable any_cast : any -> option value_type.
Variable any_empty : any.
Variable ident : string -> string.
Variable parser : string -> list (string * string).

Local Abbreviation decodes_to := (Metacollection.decodes_to elem_fromStr any_cast).
Local Abbreviation text_of fmt := (fun e : value_type => ident (elem_toStr e fmt)).

Lemma _toStr_loop_joined (elems : list value_type) (fmt : bool) (str : string) :
  elems <> [] ->
  _toStr_loop elem_toStr ident elems fmt true str
  = str ++ ("," ++ nl) ++ joined ("," ++ nl) (map (text_of fmt) elems).
Proof.
  revert str. induction elems as [|e rest IH]; intros str Hne; [done|].
  cbn [_toStr_loop]. destruct rest as [|e' rest].
  - cbn [_toStr_loop map joined]. by rewrite !string_app_assoc.
  - rewrite IH by done. cbn [map joined]. by rewrite !string_app_assoc.
Qed.

Lemma _toStr_loop_first (elems : list value_type) (fmt : bool) (str : string) :
  _toStr_loop elem_toStr ident elems fmt false str
  = str ++ joined ("," ++ nl) (map (text_of fmt) elems).
Proof.
  destruct elems as [|e rest]; cbn [_toStr_loop].
  - by rewrite string_app_nil_r.
  - destruct rest as [|e' rest].
    + reflexivity.
    + rewrite _toStr_loop_joined by done. cbn [map joined].
      by rewrite !string_app_assoc.
Qed.

(** X20. The text of a collection is an opening bracket and a newline,
    the indented texts of the elements in iteration order with a comma
    and a newline between neighbours, and a newline and the closing
    bracket; no comma stands before the first element or behind the last,
    and the empty collection gives the two brackets with two newlines
    between them. *)
Theorem toStr_text (_collection : list value_type) (formatForStreaming : bool) :
  _toStr elem_toStr ident _collection formatForStreaming
  = "[" ++ nl
    ++ joined ("," ++ nl) (map (text_of formatForStreaming) _collection)
    ++ nl ++ "]"
  /\ _toStr elem_toStr ident [] formatForStreaming = "[" ++ nl ++ nl ++ "]".
Proof.
  split; [|reflexivity].
  unfold _toStr. rewrite _toStr_loop_first. by rewrite !string_app_assoc.
Qed.

Lemma _fromStr_loop_app (good rest : list (string * string))
    (decoded prior : list value_type) :
  Forall2 decodes_to good decoded ->
  _fromStr_loop elem_fromStr any_cast (good ++ rest) prior
  = _fromStr_loop elem_fromStr any_cast rest (prior ++ decoded).
Proof.
  intros H. revert prior.
  induction H as [|it x entries dec (m & Hm & Hx) _ IH]; intros prior.
  - by rewrite app_nil_r.
  - cbn [_fromStr_loop app]. rewrite Hm. cbn [mbind result_bind].
    rewrite Hx, IH. by rewrite <- app_assoc.
Qed.

(** X21. The first entry that does not decode ends [_fromStr]: when the
    entries in front of it decode, the call throws what the element's
    [_fromStr] throws for that entry, or [bad_any_cast] when that
    returns a value of another type; the entries behind it play no
    part. *)
Theorem fromStr_first_failure_decides (prior : list value_type) (str : string)
    (good : list (string * string)) (decoded : list value_type)
    (bad : string * string) (rest : list (string * string)) :
  parser str = (good ++ bad :: rest)%list ->
  Forall2 decodes_to good decoded ->
  (forall e, elem_fromStr (snd bad) = Throw e ->
     _fromStr elem_fromStr any_cast any_empty parser prior str = Throw e)
  /\ (forall m, elem_fromStr (snd bad) = Ok m -> any_cast m = None ->
        _fromStr elem_fromStr any_cast any_empty parser prior str
        = Throw bad_any_cast).
Proof.
  intros Hparse Hgood. unfold _fromStr. rewrite Hparse.
  rewrite (_fromStr_loop_app _ _ _ _ Hgood). cbn [_fromStr_loop].
  split.
  - intros e He. by rewrite He.
  - intros m Hm Hcast. rewrite Hm. cbn [mbind result_bind]. by rewrite Hcast.
Qed.

Local Abbreviation getReference := (@Metacollection.getReference value_type).
Local Abbreviation _toStr_any := (Metacollection._toStr_any elem_toStr ident).
Local Abbreviation _fromStr_any :=
  (Metacollection._fromStr_any elem_fromStr any_cast any_empty parser).

(** X22. A collection handed over by value is copied into a static of
    [getReference] the first time only.  From then on every collection
    passed by value resolves to that one copy: [_toStr] prints the copy,
    not its argument, and [_fromStr] appends to the copy, so that the
    elements it reads show up in the text of any collection that is
    printed by value afterwards.  The containers the application owns
    are not touched by either. *)
Theorem collections_by_value_share_one_copy (c1 c2 c3 : list value_type)
    (fmt : bool) (str : string) (decoded : list value_type) (st : store) :
  static_ref st = None ->
  Forall2 decodes_to (parser str) decoded ->
  let st1 := {| static_ref := Some c1; objects := objects st |} in
  let st2 := {| static_ref := Some (c1 ++ decoded)%list; objects := objects st |} in
  _toStr_any (any_collection c1) fmt st
  = Ok (_toStr elem_toStr ident c1 fmt, st1)
  /\ _toStr_any (any_collection c2) fmt st1
     = Ok (_toStr elem_toStr ident c1 fmt, st1)
  /\ _fromStr_any (any_collection c2) str st1 = Ok (any_empty, st2)
  /\ _toStr_any (any_collection c3) fmt st2
     = Ok (_toStr elem_toStr ident (c1 ++ decoded)%list fmt, st2).
Proof.
  intros Hstatic Hdec st1 st2.
  unfold Metacollection._toStr_any, Metacollection._fromStr_any,
    Metacollection.getReference.
  rewrite Hstatic. cbn [static_ref st1 st2 mbind result_bind read_reference].
  repeat split.
  rewrite (_fromStr_loop_appends elem_fromStr any_cast _ _ _ Hdec).
  reflexivity.
Qed.

(** X23. Through a pointer or a reference wrapper [getReference] reaches
    the container of the application: [_fromStr] appends the decoded
    elements to that container and to no other, and the static copy is
    as it was.  A null pointer is dereferenced all the same, and an
    [any] of another type makes the cast throw before anything is
    read. *)
Theorem collections_by_pointer_are_updated_in_place (a : addr)
    (prior decoded : list value_type) (str : string) (st : store) :
  objects st !! a = Some prior ->
  Forall2 decodes_to (parser str) decoded ->
  let st' := {| static_ref := static_ref st;
                objects := <[a := (prior ++ decoded)%list]> (objects st) |} in
  _fromStr_any (any_pointer (Some a)) str st = Ok (any_empty, st')
  /\ _fromStr_any (any_reference_wrapper a) str st = Ok (any_empty, st')
  /\ (forall b, b <> a -> objects st' !! b = objects st !! b)
  /\ _fromStr_any (any_pointer None) str st = Undefined
  /\ _fromStr_any any_other str st = Throw bad_any_cast.
Proof.
  intros Ha Hdec st'.
  unfold Metacollection._fromStr_any, Metacollection.getReference.
  rewrite Ha. cbn [mbind result_bind read_reference]. rewrite Ha.
  cbn [mbind result_bind].
  rewrite (_fromStr_loop_appends elem_fromStr any_cast _ _ _ Hdec).
  cbn [mbind result_bind write_reference].
  repeat split.
  intros b Hb. cbn [objects st']. by rewrite lookup_insert_ne.
Qed.

End CollectionTextProofs.

Lemma fromStr_first_failure_decides_witness :
  Metacollection._fromStr int_fromStr id None sample_parser [9] "1,x,3"
  = Throw (Error "not a number: x").
Proof.
  apply (proj1 (fromStr_first_failure_decides int_fromStr id None sample_parser
                  [9] "1,x,3" [("0", "1")] [1] ("1", "x") [("2", "3")]
                  eq_refl
                  ltac:(repeat constructor; eexists; split; reflexivity))).
  reflexivity.
Defined.

Lemma collections_by_value_share_one_copy_witness :
  Metacollection._toStr_any (fun (x : Z) _ => pretty x) id
    (Metacollection.any_collection [7; 8]) true
    {| Metacollection.static_ref := Some [1; 2]; Metacollection.objects := ∅ |}
  = Ok (Metacollection._toStr (fun (x : Z) _ => pretty x) id [1; 2] true,
        {| Metacollection.static_ref := Some [1; 2]; Metacollection.objects := ∅ |}).
Proof.
  apply (collections_by_value_share_one_copy (fun (x : Z) _ => pretty x)
           int_fromStr id None id sample_parser [1; 2] [7; 8] [] true "3"
           [3] {| Metacollection.static_ref := None; Metacollection.objects := ∅ |}
           eq_refl
           ltac:(repeat constructor; eexists; split; reflexivity)).
Defined.

Lemma collections_by_pointer_are_updated_in_place_witness :
  Metacollection._fromStr_any int_fromStr id None sample_parser
    (Metacollection.any_pointer (Some 0%nat)) "1,2"
    {| Metacollection.static_ref := None;
       Metacollection.objects := {[ 0%nat := [9] ]} |}
  = Ok (None,
        {| Metacollection.static_ref := None;
           Metacollection.objects :=
             <[ 0%nat := ([9] ++ [1; 2])%list ]> {[ 0%nat := [9] ]} |}).
Proof.
  refine (proj1 (collections_by_pointer_are_updated_in_place int_fromStr id None
                   sample_parser 0%nat [9] [1; 2] "1,2"
                   {| Metacollection.static_ref := None;
                      Metacollection.objects := {[ 0%nat := [9] ]} |} _ _));
    [vm_compute; reflexivity
    |repeat constructor; eexists; split; reflexivity].
Defined.

(* ===================================================================== *)
(** * The registry: names, pointer types and kinds *)
(* ===================================================================== *)

Section RegistryNameProofs.

Import Reflector.

Variable typeid_name : ctype -> string.
Variable cxa_demangle : string -> option string.

Local Abbreviation metatype := (Reflector.metatype cxa_demangle).
Local Abbreviation metatype_of := (Reflector.metatype_of typeid_name cxa_demangle).
Local Abbreviation declare := (Reflector.declare typeid_name cxa_demangle).
Local Abbreviation declareCollection := (Reflector.declareCollection typeid_name cxa_demangle).
Local Abbreviation declare_default := (Reflector.declare_default typeid_name cxa_demangle).
Local Abbreviation register_defaults := (Reflector.register_defaults typeid_name cxa_demangle).
Local Abbreviation clear := (Reflector.clear typeid_name cxa_demangle).
Local Abbreviation declared_state := (Reflector.declared_state typeid_name).
Local Abbreviation declarations := (Reflector.declarations typeid_name cxa_demangle).
Local Abbreviation registry_keys := (Reflector.registry_keys typeid_name).
Local Abbreviation declare_defaults := (Reflector.declare_defaults typeid_name cxa_demangle).
Local Abbreviation reachable := (Reflector.reachable typeid_name cxa_demangle).
Local Abbreviation registered_by_name := (Reflector.registered_by_name typeid_name).

Lemma declared_state_by_name (T : ctype) (M : Metatype) (s s' : t)
    (mc ptr : addr) :
  typeInfo M = T ->
  declared_state T M s s' mc ptr ->
  registered_by_name s -> registered_by_name s'.
Proof.
  intros HT (Hmc & Hptr & Hne & Hh & Ht & _) Hinv name a Hreg.
  rewrite Ht in Hreg. rewrite Hh.
  destruct (decide (name = typeid_name (Tptr T))) as [->|Hn1].
  - rewrite lookup_insert_eq in Hreg. injection Hreg as <-.
    exists (mkMetatype (Tptr T) (MetaPointerType mc) [] None). split; [|done].
    rewrite lookup_insert_ne by done. apply lookup_insert_eq.
  - rewrite lookup_insert_ne in Hreg by done.
    destruct (decide (name = typeid_name T)) as [->|Hn2].
    + rewrite lookup_insert_eq in Hreg. injection Hreg as <-.
      eexists. split; [apply lookup_insert_eq|]. cbn [typeInfo]. by rewrite HT.
    + rewrite lookup_insert_ne in Hreg by done.
      destruct (Hinv _ _ Hreg) as (m & Hm & Hname).
      exists m. split; [|done].
      rewrite !lookup_insert_ne; [done|intros ->; congruence..].
Qed.

Lemma declare_defaults_by_name (l : list (ctype * metaclass)) (s s' : t) :
  NoDup (registry_keys l) ->
  (forall key, key ∈ registry_keys l -> _meta_types s !! key = None) ->
  registered_by_name s ->
  declare_defaults l s = Ok s' ->
  registered_by_name s'.
Proof.
  revert s. induction l as [|[T k] l IH]; intros s Hnd Hfree Hinv Hrun.
  - cbn in Hrun. by injection Hrun as <-.
  - cbn [Reflector.registry_keys] in Hnd, Hfree.
    apply NoDup_cons in Hnd as [HT Hnd]. apply NoDup_cons in Hnd as [HP Hnd].
    destruct (declare_default_spec typeid_name cxa_demangle T k s)
      as (mc & ptr & s1 & Hrun1 & Hst).
    { apply Hfree. apply list_elem_of_here. }
    cbn [Reflector.declare_defaults] in Hrun. rewrite Hrun1 in Hrun.
    cbn [mbind result_bind] in Hrun.
    apply (IH s1);
      [done| |exact (declared_state_by_name T (mkMetatype T k [] None) s s1 mc ptr
               eq_refl Hst Hinv)|done].
    intros key Hkey.
    destruct Hst as (_ & _ & _ & _ & Ht & _). rewrite Ht.
    rewrite !lookup_insert_ne.
    + apply Hfree. by do 2 apply list_elem_of_further.
    + intros <-. apply HT. by apply list_elem_of_further.
    + intros <-. by apply HP.
Qed.

Lemma clear_by_name (s0 s : t) :
  NoDup (registry_keys primitive_types) ->
  clear s0 = Ok s -> registered_by_name s.
Proof.
  intros Hnd Hrun. unfold Reflector.clear, eraseMetatypes in Hrun.
  destruct (bool_decide _); [|discriminate].
  cbn [mbind result_bind] in Hrun.
  rewrite (register_defaults_unfold typeid_name cxa_demangle) in Hrun.
  eapply declare_defaults_by_name; [exact Hnd| | |exact Hrun].
  - intros key _. apply lookup_empty.
  - intros name a Hreg. cbn in Hreg. by rewrite lookup_empty in Hreg.
Qed.

Lemma reachable_by_name (s : t) :
  NoDup (registry_keys primitive_types) ->
  reachable s -> registered_by_name s.
Proof.
  intros Hnd Hreach. induction Hreach as
    [props s Hrun|s0 s _ IH Hrun|d T ann s0 mc s _ IH Hd Hrun
    |decorator s0 _ IH|tname prop s0 _ IH].
  - by eapply clear_by_name.
  - by eapply clear_by_name.
  - destruct (_meta_types s0 !! typeid_name T) as [a|] eqn:Hreg.
    + rewrite (declaration_registered_state typeid_name cxa_demangle
                 d T ann s0 s mc Hd (mk_is_Some _ _ Hreg) Hrun).
      exact IH.
    + destruct (declaration_free typeid_name cxa_demangle d T ann s0 Hd Hreg)
        as (k & mc' & ptr & s' & Hrun' & Hst).
      rewrite Hrun' in Hrun. injection Hrun as <- <-.
      exact (declared_state_by_name T (mkMetatype T k ann None) s0 s' mc' ptr
               eq_refl Hst IH).
  - exact IH.
  - exact IH.
Qed.

(** X24. In every registry that the public operations produce, a name is
    registered for an object of the type with that name: what
    [metatype] returns for a name is a live metatype whose own
    [typeInfo().name()] is that name, so that looking the object up by
    its own name gives the object again.  The names of the primitive
    types and of their pointer types must differ from each other. *)
Theorem registered_names_match_objects (s : t) (name : string) (a : addr) :
  NoDup (registry_keys primitive_types) ->
  reachable s ->
  metatype name s = Ok a ->
  exists m, heap s !! a = Some m
            /\ typeid_name (typeInfo m) = name
            /\ metatype_of (typeInfo m) s = Ok a.
Proof.
  intros Hnd Hreach Hlook.
  apply metatype_Ok in Hlook.
  destruct (reachable_by_name s Hnd Hreach name a Hlook) as (m & Hm & Hname).
  exists m. repeat split; [done..|].
  unfold Reflector.metatype_of. rewrite Hname. by apply metatype_Ok.
Qed.

(** X25. A first declaration of a type registers two objects: the
    metatype of the type, with the annotations given, and a
    pointer-metatype for the pointer type, each holding the address of
    the other.  Both are new objects, also when the name of the pointer
    type was registered before, whose entry is overwritten. *)
Theorem declaration_registers_pointer_type
    (d : ctype -> Annotations -> t -> result (addr * t))
    (T : ctype) (ann : Annotations) (s s' : t) (mc : addr) :
  d ∈ declarations ->
  _meta_types s !! typeid_name T = None ->
  typeid_name T <> typeid_name (Tptr T) ->
  d T ann s = Ok (mc, s') ->
  exists (ptr : addr) (m : Metatype),
    metatype_of T s' = Ok mc
    /\ metatype_of (Tptr T) s' = Ok ptr
    /\ heap s' !! mc = Some m
    /\ typeInfo m = T /\ annotations m = ann /\ pointerMetatype m = Some ptr
    /\ heap s' !! ptr = Some (mkMetatype (Tptr T) (MetaPointerType mc) [] None)
    /\ heap s !! mc = None /\ heap s !! ptr = None.
Proof.
  intros Hd Hfree Hne Hrun.
  destruct (declaration_free typeid_name cxa_demangle d T ann s Hd Hfree)
    as (k & mc' & ptr & s'' & Hrun' & Hst).
  rewrite Hrun' in Hrun. injection Hrun as <- <-.
  destruct (declared_state_lookup_type typeid_name _ _ _ _ _ _ Hne Hst)
    as (Hl & Hlp & Hobj & Hpobj).
  destruct Hst as (Hmc & Hptr & _).
  exists ptr, (mkMetatype T k ann (Some ptr)).
  split; [by apply metatype_Ok|]. split; [by apply metatype_Ok|].
  split; [exact Hobj|]. do 3 (split; [reflexivity|]).
  split; [exact Hpobj|]. split; [exact Hmc|exact Hptr].
Qed.

(** X26. A collection metatype is a custom metaclass, and not the other
    way round.  Once [declareCollection] has returned for a type,
    [declare] for that type returns the same object and changes
    nothing; but after a first [declare] of a type, [declareCollection]
    for it casts the registered object down to [Metacollection], gets a
    null pointer and dereferences it. *)
Theorem collection_and_class_declarations (C : ctype) (ann ann' : Annotations)
    (s s1 : t) (mc : addr) :
  typeid_name C <> typeid_name (Tptr C) ->
  (declareCollection C ann s = Ok (mc, s1) ->
   declare C ann' s1 = Ok (mc, s1))
  /\ (_meta_types s !! typeid_name C = None ->
      declare C ann s = Ok (mc, s1) ->
      declareCollection C ann' s1 = Undefined).
Proof.
  intros Hne. split.
  - intros Hrun.
    destruct (_meta_types s !! typeid_name C) as [a|] eqn:Hreg.
    + unfold Reflector.declareCollection in Hrun.
      rewrite (proj2 (count_true _ _)) in Hrun by (by rewrite Hreg).
      unfold Reflector.metatype_of, Reflector.metatype in Hrun. rewrite Hreg in Hrun.
      cbn [mbind result_bind] in Hrun. unfold dynamic_cast in Hrun.
      destruct (heap s !! a) as [m|] eqn:Hobj; [|discriminate].
      destruct (is_Metacollection C (dynamic_class m)) eqn:Hcls; [|discriminate].
      cbn [mbind result_bind] in Hrun. injection Hrun as <- <-.
      eapply declare_registered; [exact Hreg|exact Hobj|].
      destruct (dynamic_class m); try discriminate. exact Hcls.
    + destruct (fresh_declaration typeid_name cxa_demangle (Metacollection_ C)
                  C ann s Hreg) as (mc' & ptr & s' & Hrun' & Hst).
      unfold Reflector.declareCollection in Hrun.
      rewrite (proj2 (count_false _ _)) in Hrun by done.
      rewrite Hrun' in Hrun. injection Hrun as <- <-.
      destruct (declared_state_lookup_type typeid_name _ _ _ _ _ _ Hne Hst)
        as (Hl & _ & Hobj & _).
      eapply declare_registered; [exact Hl|exact Hobj|].
      cbn. by apply bool_decide_eq_true_2.
  - intros Hfree Hrun.
    destruct (fresh_declaration typeid_name cxa_demangle (CustomMetaclass C false)
                C ann s Hfree) as (mc' & ptr & s' & Hrun' & Hst).
    unfold Reflector.declare in Hrun.
    rewrite (proj2 (count_false _ _)) in Hrun by done.
    rewrite Hrun' in Hrun. injection Hrun as <- <-.
    destruct (declared_state_lookup_type typeid_name _ _ _ _ _ _ Hne Hst)
      as (Hl & _ & Hobj & _).
    unfold Reflector.declareCollection.
    rewrite (proj2 (count_true _ _)) by (by rewrite Hl).
    unfold Reflector.metatype_of, Reflector.metatype. rewrite Hl.
    cbn [mbind result_bind]. unfold dynamic_cast. rewrite Hobj. reflexivity.
Qed.

End RegistryNameProofs.

Section DemangleProofs.

Import Reflector.

Lemma substr_app (a b : string) (n : nat) :
  substr (String.length a + n) (a ++ b) = substr n b.
Proof.
  induction a as [|c a IH]; [reflexivity|].
  rewrite string_app_cons. exact IH.
Qed.

Lemma demangle_loop_none (decorators : list string) (name : string) :
  Forall (fun it => find it name = None) decorators ->
  demangle_loop decorators name = Ok name.
Proof.
  induction 1 as [|it rest Hit _ IH]; [reflexivity|].
  cbn [demangle_loop]. by rewrite Hit.
Qed.

Lemma demangle_loop_first (before after : list string) (it name : string)
    (pos : nat) :
  Forall (fun it => find it name = None) before ->
  find it name = Some pos ->
  demangle_loop (before ++ it :: after) name
  = substr (pos + String.length it + 1) name.
Proof.
  intros Hbefore Hit. induction Hbefore as [|x before Hx _ IH].
  - cbn [app demangle_loop]. by rewrite Hit.
  - cbn [app demangle_loop]. by rewrite Hx.
Qed.

(** X27. The branch of [demangle] for compilers other than GNU and
    Borland C++.  A name in which no registered decorator occurs is
    returned as it is.  Otherwise the first registered decorator that
    occurs in the name decides, wherever in the name it stands: the
    result is what follows its first occurrence and one more character,
    whatever that character is and whatever stands in front; and when
    the name ends with that occurrence, [substr] is called with a
    position behind the end and throws [out_of_range]. *)
Theorem demangle_portable_strips_first_decorator (s : t)
    (before after : list string) (it front tail name : string) :
  m_prefixDecorators s = (before ++ it :: after)%list ->
  Forall (fun d => find d name = None) before ->
  name = front ++ it ++ tail ->
  find it name = Some (String.length front) ->
  demangle_portable name s
  = match tail with
    | "" => Throw out_of_range
    | String _ rest => Ok rest
    end
  /\ forall s' name',
       Forall (fun d => find d name' = None) (m_prefixDecorators s') ->
       demangle_portable name' s' = Ok name'.
Proof.
  intros Hdec Hbefore Hname Hfind. split.
  - unfold demangle_portable. rewrite Hdec.
    rewrite (demangle_loop_first before after it name _ Hbefore Hfind).
    rewrite Hname, <- Nat.add_assoc, substr_app, substr_app.
    by destruct tail.
  - intros s' name' Hnone. by apply demangle_loop_none.
Qed.

End DemangleProofs.

Lemma registered_names_match_objects_witness :
  exists m, Reflector.heap sample_registry !! 6%nat = Some m
            /\ gxx_typeid_name (typeInfo m) = "i"
            /\ Reflector.metatype_of gxx_typeid_name gxx_demangle (typeInfo m)
                 sample_registry = Ok 6%nat.
Proof.
  apply (registered_names_match_objects gxx_typeid_name gxx_demangle
           sample_registry "i" 6%nat).
  - apply (bool_decide_unpack _). vm_compute. exact I.
  - apply (Reflector.reach_create gxx_typeid_name gxx_demangle ∅).
    vm_compute. reflexivity.
  - vm_compute. reflexivity.
Defined.

Lemma declaration_registers_pointer_type_witness :
  exists mc s' ptr,
    Reflector.declareCollection gxx_typeid_name gxx_demangle (Tclass "Sample")
      [NonStreamable] sample_registry = Ok (mc, s')
    /\ Reflector.metatype_of gxx_typeid_name gxx_demangle (Tptr (Tclass "Sample")) s'
       = Ok ptr
    /\ Reflector.heap s' !! ptr
       = Some (mkMetatype (Tptr (Tclass "Sample")) (MetaPointerType mc) [] None).
Proof.
  assert (Hd : Reflector.declareCollection gxx_typeid_name gxx_demangle
               ∈ Reflector.declarations gxx_typeid_name gxx_demangle).
  { do 2 apply list_elem_of_further. apply list_elem_of_here. }
  assert (Hfree : Reflector._meta_types sample_registry
                    !! gxx_typeid_name (Tclass "Sample") = None)
    by (vm_compute; reflexivity).
  destruct (declaration_free gxx_typeid_name gxx_demangle _ (Tclass "Sample")
              [NonStreamable] sample_registry Hd Hfree)
    as (k & mc & ptr0 & s' & Hrun & _).
  destruct (declaration_registers_pointer_type gxx_typeid_name gxx_demangle
              (Reflector.declareCollection gxx_typeid_name gxx_demangle)
              (Tclass "Sample") [NonStreamable] sample_registry s' mc Hd Hfree
              ltac:(vm_compute; discriminate) Hrun)
    as (ptr & m & _ & Hptr & _ & _ & _ & _ & Hobj & _).
  exists mc, s', ptr. split; [exact Hrun|]. split; [exact Hptr|exact Hobj].
Defined.

Lemma collection_and_class_declarations_witness :
  exists mc s1,
    Reflector.declare gxx_typeid_name gxx_demangle (Tclass "Sample") []
      sample_registry = Ok (mc, s1)
    /\ Reflector.declareCollection gxx_typeid_name gxx_demangle (Tclass "Sample") [] s1
       = Undefined.
Proof.
  assert (Hfree : Reflector._meta_types sample_registry
                    !! gxx_typeid_name (Tclass "Sample") = None)
    by (vm_compute; reflexivity).
  destruct (declare_free gxx_typeid_name gxx_demangle (Tclass "Sample") []
              sample_registry Hfree) as (mc & ptr & s1 & Hrun & _).
  exists mc, s1. split; [exact Hrun|].
  exact (proj2 (collection_and_class_declarations gxx_typeid_name gxx_demangle
                  (Tclass "Sample") [] [] sample_registry s1 mc
                  ltac:(vm_compute; discriminate)) Hfree Hrun).
Defined.

Lemma demangle_portable_strips_first_decorator_witness :
  Reflector.demangle_portable "class Sample" sample_registry = Ok "Sample".
Proof.
  apply (demangle_portable_strips_first_decorator sample_registry
           ["struct"] [] "class" "" " Sample" "class Sample").
  - vm_compute. reflexivity.
  - repeat constructor.
  - reflexivity.
  - reflexivity.
Defined.

(* ===================================================================== *)
(** * Pending properties of primitive types *)
(* ===================================================================== *)

Section PendingDefaultsProofs.

Import Reflector.

Variable typeid_name : ctype -> string.
Variable cxa_demangle : string -> option string.

Local Abbreviation metatype := (Reflector.metatype cxa_demangle).
Local Abbreviation clear := (Reflector.clear typeid_name cxa_demangle).
Local Abbreviation declared_state := (Reflector.declared_state typeid_name).
Local Abbreviation registry_keys := (Reflector.registry_keys typeid_name).
Local Abbreviation declare_defaults := (Reflector.declare_defaults typeid_name cxa_demangle).

Lemma registry_keys_elem (l : list (ctype * metaclass)) (T : ctype) (k : metaclass) :
  (T, k) ∈ l ->
  typeid_name T ∈ registry_keys l /\ typeid_name (Tptr T) ∈ registry_keys l.
Proof.
  induction l as [|[T0 k0] l IH]; intros Hin; [by apply elem_of_nil in Hin|].
  cbn [Reflector.registry_keys].
  apply elem_of_cons in Hin as [Heq|Hin].
  - injection Heq as -> ->. split.
    + apply list_elem_of_here.
    + apply list_elem_of_further, list_elem_of_here.
  - destruct (IH Hin) as [H1 H2].
    split; by do 2 apply list_elem_of_further.
Qed.

(** What the declarations of a list of types do to the pending
    properties, when none of the names is registered yet. *)
Lemma declare_defaults_pending (l : list (ctype * metaclass)) (s s' : t) :
  NoDup (registry_keys l) ->
  (forall key, key ∈ registry_keys l -> _meta_types s !! key = None) ->
  declare_defaults l s = Ok s' ->
  (forall key, m_pendingProperties s' !! key
               = if bool_decide (key ∈ registry_keys l) then None
                 else m_pendingProperties s !! key)
  /\ (forall key, key ∉ registry_keys l ->
                  _meta_types s' !! key = _meta_types s !! key)
  /\ (forall prop,
        (forall key, key ∈ registry_keys l -> prop ∉ pending_for key s) ->
        property_metatype s' !! prop = property_metatype s !! prop)
  /\ (forall T k prop,
        (T, k) ∈ l ->
        prop ∈ pending_for (typeid_name T) s ->
        (forall key, key ∈ registry_keys l -> key <> typeid_name T ->
                     prop ∉ pending_for key s) ->
        exists mc, _meta_types s' !! typeid_name T = Some mc
                   /\ property_metatype s' !! prop = Some mc).
Proof.
  revert s. induction l as [|[T0 k0] l IH]; intros s Hnd Hfree Hrun.
  - cbn in Hrun. injection Hrun as <-. repeat split; try done.
    intros T k prop Hin. by apply elem_of_nil in Hin.
  - cbn [Reflector.registry_keys] in Hnd, Hfree |- *.
    apply NoDup_cons in Hnd as [HT Hnd]. apply NoDup_cons in Hnd as [HP Hnd].
    assert (Hne : typeid_name T0 <> typeid_name (Tptr T0)).
    { intros Heq. apply HT. rewrite Heq. apply list_elem_of_here. }
    assert (HT' : typeid_name T0 ∉ registry_keys l).
    { intros Hin. apply HT. by apply list_elem_of_further. }
    destruct (declare_default_spec typeid_name cxa_demangle T0 k0 s)
      as (mc0 & ptr0 & s1 & Hrun1 & Hst).
    { apply Hfree. apply list_elem_of_here. }
    cbn [Reflector.declare_defaults] in Hrun. rewrite Hrun1 in Hrun.
    cbn [mbind result_bind] in Hrun.
    destruct (declared_state_lookup_type typeid_name _ _ _ _ _ _ Hne Hst)
      as (Hl0 & _ & _ & _).
    destruct Hst as (_ & _ & _ & _ & Hmap & _ & Hpend & Hpm).
    cbn [typeInfo] in Hpend, Hpm.
    assert (Hqueue : forall key, key <> typeid_name T0 ->
                       key <> typeid_name (Tptr T0) ->
                       pending_for key s1 = pending_for key s).
    { intros key H1 H2. unfold pending_for. rewrite Hpend.
      by rewrite !lookup_delete_ne. }
    assert (Hkeys : forall key, key ∈ registry_keys l ->
                      key <> typeid_name T0 /\ key <> typeid_name (Tptr T0)).
    { intros key Hin. split; intros ->; [by apply HT'|by apply HP]. }
    assert (Hbind : forall prop,
               prop ∉ pending_for (typeid_name (Tptr T0)) s ->
               property_metatype s1 !! prop
               = if bool_decide (prop ∈ pending_for (typeid_name T0) s)
                 then Some mc0 else property_metatype s !! prop).
    { intros prop Hnot. rewrite Hpm.
      rewrite lookup_delete_ne by done.
      fold (pending_for (typeid_name (Tptr T0)) s).
      by rewrite bool_decide_eq_false_2. }
    destruct (IH s1 Hnd) as (IHa & IHb & IHc & IHd); [|exact Hrun|].
    { intros key Hin. destruct (Hkeys key Hin) as [H1 H2].
      rewrite Hmap. rewrite !lookup_insert_ne by done.
      apply Hfree. by do 2 apply list_elem_of_further. }
    split; [|split; [|split]].
    + intros key. rewrite IHa.
      destruct (decide (key ∈ registry_keys l)) as [Hin|Hnin].
      * rewrite bool_decide_eq_true_2 by done.
        rewrite bool_decide_eq_true_2; [done|].
        by do 2 apply list_elem_of_further.
      * rewrite bool_decide_eq_false_2 by done. rewrite Hpend.
        destruct (decide (key = typeid_name (Tptr T0))) as [->|H2].
        { rewrite lookup_delete_eq.
          rewrite bool_decide_eq_true_2; [done|].
          apply list_elem_of_further, list_elem_of_here. }
        rewrite lookup_delete_ne by done.
        destruct (decide (key = typeid_name T0)) as [->|H1].
        { rewrite lookup_delete_eq.
          rewrite bool_decide_eq_true_2; [done|]. apply list_elem_of_here. }
        rewrite lookup_delete_ne by done.
        rewrite bool_decide_eq_false_2; [done|].
        intros Hin. apply elem_of_cons in Hin as [?|Hin]; [done|].
        apply elem_of_cons in Hin as [?|Hin]; done.
    + intros key Hnin. rewrite IHb.
      * rewrite Hmap. rewrite !lookup_insert_ne; [done|..].
        -- intros <-. apply Hnin. apply list_elem_of_here.
        -- intros <-. apply Hnin. apply list_elem_of_further, list_elem_of_here.
      * intros Hin. apply Hnin. by do 2 apply list_elem_of_further.
    + intros prop Hnone. rewrite IHc.
      * rewrite Hbind.
        -- rewrite bool_decide_eq_false_2; [done|].
           apply Hnone. apply list_elem_of_here.
        -- apply Hnone. apply list_elem_of_further, list_elem_of_here.
      * intros key Hin. destruct (Hkeys key Hin) as [H1 H2].
        rewrite Hqueue by done. apply Hnone. by do 2 apply list_elem_of_further.
    + intros T k prop Hin Hq Hother.
      apply elem_of_cons in Hin as [Heq|Hin].
      * injection Heq as -> ->. exists mc0. split.
        -- rewrite IHb by done. exact Hl0.
        -- rewrite IHc.
           ++ rewrite Hbind.
              ** by rewrite bool_decide_eq_true_2.
              ** apply Hother; [|by intros Heq; apply Hne].
                 apply list_elem_of_further, list_elem_of_here.
           ++ intros key Hin. destruct (Hkeys key Hin) as [H1 H2].
              rewrite Hqueue by done.
              apply Hother; [|done]. by do 2 apply list_elem_of_further.
      * destruct (registry_keys_elem l T k Hin) as [HinT _].
        destruct (Hkeys _ HinT) as [H1 H2].
        apply (IHd T k prop Hin).
        -- by rewrite Hqueue.
        -- intros key Hkey Hkne. destruct (Hkeys key Hkey) as [H3 H4].
           rewrite Hqueue by done.
           apply Hother; [|done]. by do 2 apply list_elem_of_further.
Qed.

(** X29. Building the registry resolves the properties that wait for a
    primitive type.  After [clear], and so after the constructor, no
    property is pending under the name of a primitive type or of its
    pointer type, and the queues under all other names are as they were;
    a property that was pending under the name of one primitive type only
    is bound to the metatype now registered under that name; and a
    property that was pending under none of these names keeps the metatype
    it had. *)
Theorem clear_resolves_pending_primitives (s0 s : t) :
  NoDup (registry_keys primitive_types) ->
  clear s0 = Ok s ->
  (forall key, m_pendingProperties s !! key
               = if bool_decide (key ∈ registry_keys primitive_types) then None
                 else m_pendingProperties s0 !! key)
  /\ (forall T k prop,
        (T, k) ∈ primitive_types ->
        prop ∈ pending_for (typeid_name T) s0 ->
        (forall key, key ∈ registry_keys primitive_types ->
                     key <> typeid_name T -> prop ∉ pending_for key s0) ->
        exists mc, metatype (typeid_name T) s = Ok mc
                   /\ property_metatype s !! prop = Some mc)
  /\ (forall prop,
        (forall key, key ∈ registry_keys primitive_types ->
                     prop ∉ pending_for key s0) ->
        property_metatype s !! prop = property_metatype s0 !! prop).
Proof.
  intros Hnd Hrun. unfold Reflector.clear, eraseMetatypes in Hrun.
  destruct (bool_decide _); [|discriminate].
  cbn [mbind result_bind] in Hrun.
  rewrite (register_defaults_unfold typeid_name cxa_demangle) in Hrun.
  match type of Hrun with
  | Reflector.declare_defaults _ _ _ ?st = _ =>
      destruct (declare_defaults_pending primitive_types st s Hnd)
        as (Ha & _ & Hc & Hd); [|exact Hrun|]
  end.
  { intros key _. apply lookup_empty. }
  split; [exact Ha|]. split; [|exact Hc].
  intros T k prop Hin Hq Hother.
  destruct (Hd T k prop Hin Hq Hother) as (mc & Hl & Hb).
  exists mc. split; [by apply metatype_Ok|exact Hb].
Qed.

End PendingDefaultsProofs.

Lemma clear_resolves_pending_primitives_witness :
  exists s mc,
    Reflector.clear gxx_typeid_name gxx_demangle registry_with_pending_int = Ok s
    /\ Reflector.metatype gxx_demangle "i" s = Ok mc
    /\ Reflector.property_metatype s !! 2%nat = Some mc
    /\ Reflector.m_pendingProperties s !! "i" = None.
Proof.
  assert (Hnd : NoDup (Reflector.registry_keys gxx_typeid_name Reflector.primitive_types)).
  { apply (bool_decide_unpack _). vm_compute. exact I. }
  assert (Hlive : Reflector.registered_live registry_with_pending_int).
  { apply registered_live_img. apply (bool_decide_unpack _). vm_compute. exact I. }
  destruct (clear_spec gxx_typeid_name gxx_demangle registry_with_pending_int Hnd Hlive)
    as (s & Hrun & _).
  destruct (clear_resolves_pending_primitives gxx_typeid_name gxx_demangle
              registry_with_pending_int s Hnd Hrun) as (Ha & Hd & _).
  destruct (Hd Tint MetaInt 2%nat) as (mc & Hm & Hb).
  - do 3 apply list_elem_of_further. apply list_elem_of_here.
  - apply (bool_decide_unpack _). vm_compute. exact I.
  - intros key _ Hne.
    unfold Reflector.pending_for, registry_with_pending_int,
      Reflector.addPendingProperty.
    cbn [Reflector.m_pendingProperties Reflector.set_pendingProperties].
    rewrite lookup_insert_ne by (intros Heq; apply Hne; by rewrite <- Heq).
    assert (Hempty : Reflector.m_pendingProperties sample_registry = ∅)
      by (vm_compute; reflexivity).
    rewrite Hempty, lookup_empty. apply not_elem_of_nil.
  - exists s, mc. split; [exact Hrun|]. split; [exact Hm|]. split; [exact Hb|].
    rewrite Ha. rewrite bool_decide_eq_true_2; [reflexivity|].
    apply (bool_decide_unpack _). vm_compute. exact I.
Defined.
